(** * Hybrid reconciliation engine: shallow embedding of [services/db.ts]
      and of the encoding collaborator [utils/security.ts].

    JavaScript strings are sequences of UTF-16 code units; they are modelled
    as [list N].  Arrays that the code only ever rebinds are modelled as
    immutable lists; the one place where aliasing of a mutable array matters
    (the list handed to observers by [notifyListeners]) has a heap model of
    its own in module [Aliasing]. *)

From Stdlib Require Import NArith ZArith Ascii String Lia Bool.
From stdpp Require Import base decidable option list gmap.

Local Open Scope N_scope.

(** ** JavaScript strings *)

Abbreviation jsstring := (list N) (only parsing).

(** A string literal of the source, as code units. *)
Definition lit (s : string) : jsstring :=
  map N_of_ascii (list_ascii_of_string s).

Module JSString.

(** [String.prototype.startsWith(p)] at position 0. *)
Fixpoint startsWith (s p : jsstring) {struct p} : bool :=
  match p, s with
  | [], _ => true
  | _ :: _, [] => false
  | c :: p', d :: s' => (c =? d) && startsWith s' p'
  end.

(** [String.prototype.replace(pat, rep)] with a string pattern: only the
    first occurrence of [pat] is replaced.  The source only ever passes the
    empty replacement, so the [$]-patterns of a replacement string do not
    arise. *)
Fixpoint replace (s pat rep : jsstring) : jsstring :=
  if startsWith s pat then rep ++ drop (length pat) s
  else match s with
       | [] => []
       | c :: s' => c :: replace s' pat rep
       end.

(** WhiteSpace and LineTerminator code units of ECMAScript, the ones that
    [String.prototype.trim] strips: TAB, LF, VT, FF, CR, SP, NBSP, the Zs
    category, LS, PS and the BOM. *)
Definition isWhiteSpace (c : N) : bool :=
  ((9 <=? c) && (c <=? 13)) || (c =? 32) || (c =? 160) || (c =? 5760)
  || ((8192 <=? c) && (c <=? 8202)) || (c =? 8232) || (c =? 8233)
  || (c =? 8239) || (c =? 8287) || (c =? 12288) || (c =? 65279).

Fixpoint trimStart (s : jsstring) : jsstring :=
  match s with
  | [] => []
  | c :: s' => if isWhiteSpace c then trimStart s' else s
  end.

Definition trimEnd (s : jsstring) : jsstring := rev (trimStart (rev s)).

(** [String.prototype.trim]. *)
Definition trim (s : jsstring) : jsstring := trimEnd (trimStart s).

(** [Number.prototype.toString] of a non-negative integer (the value of
    [Date.now()]): its decimal digits. *)
Fixpoint digits (fuel : nat) (n : N) (acc : jsstring) : jsstring :=
  match fuel with
  | O => acc
  | S fuel' =>
      let acc' := (48 + n mod 10) :: acc in
      if n <? 10 then acc' else digits fuel' (n / 10) acc'
  end.

Definition toString (n : N) : jsstring := digits (S (N.to_nat (N.log2 n))) n [].

End JSString.

(** ** Completions: a JavaScript call either returns or throws *)

Inductive JSError : Type :=
| InvalidCharacterError
| TypeError
| Error (message : jsstring).

Inductive completion (A : Type) : Type :=
| Normal (a : A)
| Throw (e : JSError).
Arguments Normal {A} a.
Arguments Throw {A} e.

Definition cbind {A B} (c : completion A) (k : A -> completion B) : completion B :=
  match c with
  | Normal a => k a
  | Throw e => Throw e
  end.

(** [try { body } catch (e) { handler e }] *)
Definition try_catch {A} (body : completion A) (handler : JSError -> completion A)
  : completion A :=
  match body with
  | Normal a => Normal a
  | Throw e => handler e
  end.

(** ** [btoa] and [atob] of the platform (WHATWG forgiving base64) *)

Module Base64.

(** Index of a code unit in the base64 alphabet. *)
Definition index (c : N) : option N :=
  if (65 <=? c) && (c <=? 90) then Some (c - 65)
  else if (97 <=? c) && (c <=? 122) then Some (c - 71)
  else if (48 <=? c) && (c <=? 57) then Some (c + 4)
  else if c =? 43 then Some 62
  else if c =? 47 then Some 63
  else None.

(** The alphabet character of a six-bit value. *)
Definition char (n : N) : N :=
  if n <? 26 then n + 65
  else if n <? 52 then n + 71
  else if n <? 62 then n - 4
  else if n =? 62 then 43
  else 47.

Definition pad : N := 61.

(** Three bytes give four characters; a last group of one or two bytes is
    padded with [=]. *)
Fixpoint encode (bytes : list N) : jsstring :=
  match bytes with
  | [] => []
  | [x] =>
      let n := x * 16 in
      [char (n / 64); char (n mod 64); pad; pad]
  | [x; y] =>
      let n := (x * 256 + y) * 4 in
      [char (n / 4096); char ((n / 64) mod 64); char (n mod 64); pad]
  | x :: y :: z :: rest =>
      let n := (x * 256 + y) * 256 + z in
      char (n / 262144) :: char ((n / 4096) mod 64)
        :: char ((n / 64) mod 64) :: char (n mod 64) :: encode rest
  end.

(** [btoa]: throws on a code unit above U+00FF. *)
Definition btoa (s : jsstring) : completion jsstring :=
  if forallb (fun c => c <? 256) s then Normal (encode s)
  else Throw InvalidCharacterError.

(** ASCII whitespace of the Infra standard: TAB, LF, FF, CR, SPACE. *)
Definition isAsciiWhitespace (c : N) : bool :=
  (c =? 9) || (c =? 10) || (c =? 12) || (c =? 13) || (c =? 32).

Definition removeWhitespace (s : jsstring) : jsstring :=
  List.filter (fun c => negb (isAsciiWhitespace c)) s.

(** Removes one or two [=] at the end of the string. *)
Fixpoint dropPadding (s : jsstring) : jsstring :=
  match s with
  | [] => []
  | c :: s' =>
      if (c =? pad)
         && match s' with
            | [] => true
            | [d] => d =? pad
            | _ => false
            end
      then []
      else c :: dropPadding s'
  end.

(** The indexes of all characters, or [None] when one of them is outside
    the alphabet. *)
Fixpoint indexes (s : jsstring) : option (list N) :=
  match s with
  | [] => Some []
  | c :: s' =>
      match index c, indexes s' with
      | Some n, Some ns => Some (n :: ns)
      | _, _ => None
      end
  end.

(** Four six-bit values fill the 24-bit buffer and give three bytes; a rest
    of 18 bits gives two bytes and one of 12 bits gives one byte, the
    surplus low bits being discarded. *)
Fixpoint decode (ns : list N) : list N :=
  match ns with
  | a :: b :: c :: d :: rest =>
      let n := ((a * 64 + b) * 64 + c) * 64 + d in
      n / 65536 :: (n / 256) mod 256 :: n mod 256 :: decode rest
  | [a; b; c] =>
      let n := ((a * 64 + b) * 64 + c) / 4 in
      [n / 256; n mod 256]
  | [a; b] => [(a * 64 + b) / 16]
  | _ => []
  end.

(** [atob]: forgiving-base64 decode; a failure is thrown as an
    [InvalidCharacterError].  Lengths are counted in code units: a string
    where code units and code points differ holds a surrogate, which is
    outside the alphabet, and fails either way. *)
Definition atob (data : jsstring) : completion jsstring :=
  let data1 := removeWhitespace data in
  let data2 := if N.of_nat (length data1) mod 4 =? 0
               then dropPadding data1 else data1 in
  if N.of_nat (length data2) mod 4 =? 1 then Throw InvalidCharacterError
  else match indexes data2 with
       | None => Throw InvalidCharacterError
       | Some ns => Normal (decode ns)
       end.

End Base64.

(** ** [utils/security.ts] *)

Module Security.
Import JSString Base64.

Definition SECRET_KEY_PREFIX : jsstring := lit "THESIS_SECURE_".

(** [encryptData] on a string argument ([String(value)] is then the
    identity). *)
Definition encryptData (value : jsstring) : completion jsstring :=
  let text := value in
  cbind (btoa (SECRET_KEY_PREFIX ++ text)) (fun b => Normal (lit "ENC_" ++ b)).

Definition decryptData (encryptedValue : jsstring) : completion jsstring :=
  if negb (startsWith encryptedValue (lit "ENC_")) then Normal (lit "0")
  else
    try_catch
      (cbind (atob (replace encryptedValue (lit "ENC_") []))
             (fun decoded => Normal (replace decoded SECRET_KEY_PREFIX [])))
      (fun _ => Normal (lit "0")).

(** [decryptData] as a snapshot callback calls it, on a field of
    [doc.data()] that no type checks: [None] is a value that is not a string
    (a missing field, a number), on which the call of [startsWith], which
    stands before the [try], throws. *)
Definition decryptValue (encryptedValue : option jsstring) : completion jsstring :=
  match encryptedValue with
  | Some s => decryptData s
  | None => Throw TypeError
  end.

End Security.

(** ** [utils/security.ts]: what the forms check *)

Module Validation.

(** The replacement function of [sanitizeInput]: the entity of one of the
    five characters [<], [>], [&], the double quote and the single quote,
    and any other code unit as it is. *)
Definition escape (c : N) : jsstring :=
  if c =? 60 then lit "&lt;"
  else if c =? 62 then lit "&gt;"
  else if c =? 38 then lit "&amp;"
  else if c =? 34 then lit "&quot;"
  else if c =? 39 then lit "&#39;"
  else [c].

(** The global replacement of the five characters, behind the test for
    the empty string. *)
Definition sanitizeInput (input : jsstring) : jsstring :=
  match input with
  | [] => []
  | _ => flat_map escape input
  end.

Record PasswordCheck := mkPasswordCheck {
  isValid : bool;
  message : jsstring;
}.

Definition isUpper (c : N) : bool := negb (c <? 65) && (c <=? 90).
Definition isLower (c : N) : bool := negb (c <? 97) && (c <=? 122).
Definition isDigit (c : N) : bool := negb (c <? 48) && (c <=? 57).

(** The class of the eight special characters of the last test. *)
Definition isSpecial (c : N) : bool :=
  (c =? 33) || (c =? 64) || (c =? 35) || (c =? 36) || (c =? 37) || (c =? 94)
  || (c =? 38) || (c =? 42).

(** The test of a string against a character class. *)
Definition test (class : N -> bool) (s : jsstring) : bool := existsb class s.

Definition validateStrongPassword (password : jsstring) : PasswordCheck :=
  if N.of_nat (length password) <? 8 then
    mkPasswordCheck false (lit "Password must be at least 8 characters long.")
  else if negb (test isUpper password) then
    mkPasswordCheck false
      (lit "Password must contain at least one Uppercase letter (A-Z).")
  else if negb (test isLower password) then
    mkPasswordCheck false
      (lit "Password must contain at least one Lowercase letter (a-z).")
  else if negb (test isDigit password) then
    mkPasswordCheck false (lit "Password must contain at least one Number (0-9).")
  else if negb (test isSpecial password) then
    mkPasswordCheck false
      (lit "Password must contain at least one Special Character (!@#$%^&*).")
  else mkPasswordCheck true (lit "Strong Password").

End Validation.

(** ** The JavaScript runtime the data layer runs on

    What the platform decides and the repository does not: the number type
    and [parseFloat], Unicode case mapping, the collation order of
    [localeCompare] and the system clock ([clock n] is the value of the
    [n]-th reading of [Date.now()], [new Date()] or [Timestamp.now()]). *)

Class Runtime := {
  Number : Type;
  parseFloat : jsstring -> Number;
  toLowerCase : jsstring -> jsstring;
  localeCompare : jsstring -> jsstring -> Z;
  clock : nat -> N;
}.

(** ** [types.ts] *)

Module Category.
Record t := mk {
  id : jsstring;
  name : jsstring;
  isSystemDefault : bool;
  createdAt : N;
}.
End Category.

Inductive LogStatus := SUCCESS | WARN | ERROR.

Module AuditLog.
Record t := mk {
  id : jsstring;
  timestamp : N;
  actor : jsstring;
  action : jsstring;
  details : jsstring;
  status : LogStatus;
}.
End AuditLog.

Module UserMetadata.
Record t {R : Runtime} := mk {
  uid : jsstring;
  email : jsstring;
  lastLogin : jsstring;
  isLocked : bool;
  riskScore : Number;
}.
End UserMetadata.

Inductive AppealStatus := PENDING | APPROVED | REJECTED.

Module AccessAppeal.
Record t := mk {
  id : jsstring;
  uid : jsstring;
  email : jsstring;
  reason : jsstring;
  status : AppealStatus;
  timestamp : jsstring;
}.
End AccessAppeal.

Module CutOff.
Record t {R : Runtime} := mk {
  id : jsstring;
  userId : jsstring;
  startDate : jsstring;
  endDate : jsstring;
  encryptedTotalIncome : jsstring;
  encryptedTotalSavings : jsstring;
  decryptedIncome : option Number;
  decryptedSavings : option Number;
}.
End CutOff.

Module Expense.
Record t {R : Runtime} := mk {
  id : jsstring;
  cutOffId : jsstring;
  userId : jsstring;
  category : jsstring;
  date : jsstring;
  description : jsstring;
  encryptedAmount : jsstring;
  decryptedAmount : option Number;
}.
End Expense.

Module RecurringTemplate.
Record t {R : Runtime} := mk {
  id : jsstring;
  userId : jsstring;
  category : jsstring;
  description : jsstring;
  encryptedAmount : jsstring;
  decryptedAmount : option Number;
}.
End RecurringTemplate.

(** ** Documents of the remote collections

    What a snapshot hands to the module for a document: [doc.id] and
    [doc.data()], which the source casts to the interfaces above without a
    check.  The fields that the module decodes are modelled as they may be
    found, [None] standing for a field that is missing or holds something
    else than a string; the other fields are taken to conform to the
    interface. *)

Module CutOffDoc.
Record t {R : Runtime} := mk {
  id : jsstring;
  userId : jsstring;
  startDate : jsstring;
  endDate : jsstring;
  encryptedTotalIncome : option jsstring;
  encryptedTotalSavings : option jsstring;
  decryptedIncome : option Number;
  decryptedSavings : option Number;
}.

(** The document that holds the fields of [c]. *)
Definition conforming {R : Runtime} (c : CutOff.t) : t :=
  mk R (CutOff.id c) (CutOff.userId c) (CutOff.startDate c) (CutOff.endDate c)
    (Some (CutOff.encryptedTotalIncome c)) (Some (CutOff.encryptedTotalSavings c))
    (CutOff.decryptedIncome c) (CutOff.decryptedSavings c).
End CutOffDoc.

Module ExpenseDoc.
Record t {R : Runtime} := mk {
  id : jsstring;
  cutOffId : jsstring;
  userId : jsstring;
  category : jsstring;
  date : jsstring;
  description : jsstring;
  encryptedAmount : option jsstring;
  decryptedAmount : option Number;
}.

Definition conforming {R : Runtime} (e : Expense.t) : t :=
  mk R (Expense.id e) (Expense.cutOffId e) (Expense.userId e) (Expense.category e)
    (Expense.date e) (Expense.description e) (Some (Expense.encryptedAmount e))
    (Expense.decryptedAmount e).
End ExpenseDoc.

Module TemplateDoc.
Record t {R : Runtime} := mk {
  id : jsstring;
  userId : jsstring;
  category : jsstring;
  description : jsstring;
  encryptedAmount : option jsstring;
  decryptedAmount : option Number;
}.

Definition conforming {R : Runtime} (t0 : RecurringTemplate.t) : t :=
  mk R (RecurringTemplate.id t0) (RecurringTemplate.userId t0)
    (RecurringTemplate.category t0) (RecurringTemplate.description t0)
    (Some (RecurringTemplate.encryptedAmount t0))
    (RecurringTemplate.decryptedAmount t0).
End TemplateDoc.

(** ** [Array.prototype.sort] with a comparator

    The sort of ECMAScript is stable; for a consistent comparator its result
    is the one of this insertion sort. *)

Section Sort.
Context {A : Type} (cmp : A -> A -> Z).

Fixpoint insert_sorted (x : A) (l : list A) : list A :=
  match l with
  | [] => [x]
  | y :: l' => if (0 <? cmp x y)%Z then y :: insert_sorted x l' else x :: l
  end.

Fixpoint sort (l : list A) : list A :=
  match l with
  | [] => []
  | x :: l' => insert_sorted x (sort l')
  end.
End Sort.

(** ** [services/db.ts]: state *)

(** A caller's callback function; two callbacks are the same function when
    their numbers are equal. *)
Definition Observer := nat.

(** The functions stored in [listeners]: either the caller's callback itself,
    or the [userCallback] closure that an owner-scoped subscription wraps
    around it ([closure] numbers the closures in order of creation, as each
    call of the subscription creates a new function). *)
Inductive Listener :=
| Callback (callback : Observer)
| UserCallback (closure : nat) (userId : jsstring) (callback : Observer).

Global Instance Listener_eq_dec : EqDecision Listener.
Proof. solve_decision. Defined.

(** The argument a callback is called with. *)
Inductive View {R : Runtime} :=
| Categories (l : list Category.t)
| CutOffs (l : list CutOff.t)
| Expenses (l : list Expense.t)
| Logs (l : list AuditLog.t)
| Users (l : list UserMetadata.t)
| Appeals (l : list AccessAppeal.t)
| Templates (l : list RecurringTemplate.t)
| Status (isOnline : bool).

(** One call of a caller's callback: the listener it was reached through and
    the argument the callback received. *)
Record Delivery {R : Runtime} := mkDelivery {
  via : Listener;
  payload : View;
}.

(** A Firestore query: [query(collection(db, c), where('userId','==',u),
    limit(n))], the last two optional. *)
Record Query := mkQuery {
  q_collection : string;
  q_userId : option jsstring;
  q_limit : option nat;
}.

(** The calls made to Firestore, in order. *)
Inductive RemoteOp {R : Runtime} :=
| AddCategory (name : jsstring) (isSystemDefault : bool) (createdAt : N)
| AddCutOff (securePayload : CutOff.t) (createdAt : N)
| AddExpense (securePayload : Expense.t) (createdAt : N)
| AddTemplate (securePayload : RecurringTemplate.t) (createdAt : N)
| AddAuditLog (timestamp : N) (actor action details : jsstring) (status : LogStatus)
| DeleteDoc (collection : string) (id : jsstring)
| OnSnapshot (q : Query)
| Unsubscribe (q : Query).

Record World {R : Runtime} := mkWorld {
  MOCK_CATEGORIES : list Category.t;
  MOCK_CUTOFFS : list CutOff.t;
  MOCK_EXPENSES : list Expense.t;
  MOCK_LOGS : list AuditLog.t;
  MOCK_USERS : list UserMetadata.t;
  MOCK_APPEALS : list AccessAppeal.t;
  MOCK_TEMPLATES : list RecurringTemplate.t;
  PENDING_DELETES : gset (list N);
  PENDING_DELETE_NAMES : gset (list N);
  listeners : gmap string (list Listener);
  (** number of [userCallback] closures created so far *)
  closures : nat;
  (** number of clock readings so far *)
  ticks : nat;
  (** calls of the callers' callbacks, oldest first *)
  deliveries : list Delivery;
  (** calls made to Firestore, oldest first *)
  remote : list RemoteOp;
}.

Section Setters.
Context {R : Runtime}.

Definition set_MOCK_CATEGORIES (v : list Category.t) (w : World) : World :=
  mkWorld R v (MOCK_CUTOFFS w) (MOCK_EXPENSES w) (MOCK_LOGS w) (MOCK_USERS w)
    (MOCK_APPEALS w) (MOCK_TEMPLATES w) (PENDING_DELETES w)
    (PENDING_DELETE_NAMES w) (listeners w) (closures w) (ticks w)
    (deliveries w) (remote w).

Definition set_MOCK_CUTOFFS (v : list CutOff.t) (w : World) : World :=
  mkWorld R (MOCK_CATEGORIES w) v (MOCK_EXPENSES w) (MOCK_LOGS w) (MOCK_USERS w)
    (MOCK_APPEALS w) (MOCK_TEMPLATES w) (PENDING_DELETES w)
    (PENDING_DELETE_NAMES w) (listeners w) (closures w) (ticks w)
    (deliveries w) (remote w).

Definition set_MOCK_EXPENSES (v : list Expense.t) (w : World) : World :=
  mkWorld R (MOCK_CATEGORIES w) (MOCK_CUTOFFS w) v (MOCK_LOGS w) (MOCK_USERS w)
    (MOCK_APPEALS w) (MOCK_TEMPLATES w) (PENDING_DELETES w)
    (PENDING_DELETE_NAMES w) (listeners w) (closures w) (ticks w)
    (deliveries w) (remote w).

Definition set_MOCK_LOGS (v : list AuditLog.t) (w : World) : World :=
  mkWorld R (MOCK_CATEGORIES w) (MOCK_CUTOFFS w) (MOCK_EXPENSES w) v (MOCK_USERS w)
    (MOCK_APPEALS w) (MOCK_TEMPLATES w) (PENDING_DELETES w)
    (PENDING_DELETE_NAMES w) (listeners w) (closures w) (ticks w)
    (deliveries w) (remote w).

Definition set_MOCK_TEMPLATES (v : list RecurringTemplate.t) (w : World) : World :=
  mkWorld R (MOCK_CATEGORIES w) (MOCK_CUTOFFS w) (MOCK_EXPENSES w) (MOCK_LOGS w)
    (MOCK_USERS w) (MOCK_APPEALS w) v (PENDING_DELETES w)
    (PENDING_DELETE_NAMES w) (listeners w) (closures w) (ticks w)
    (deliveries w) (remote w).

Definition set_PENDING_DELETES (v : gset (list N)) (w : World) : World :=
  mkWorld R (MOCK_CATEGORIES w) (MOCK_CUTOFFS w) (MOCK_EXPENSES w) (MOCK_LOGS w)
    (MOCK_USERS w) (MOCK_APPEALS w) (MOCK_TEMPLATES w) v
    (PENDING_DELETE_NAMES w) (listeners w) (closures w) (ticks w)
    (deliveries w) (remote w).

Definition set_PENDING_DELETE_NAMES (v : gset (list N)) (w : World) : World :=
  mkWorld R (MOCK_CATEGORIES w) (MOCK_CUTOFFS w) (MOCK_EXPENSES w) (MOCK_LOGS w)
    (MOCK_USERS w) (MOCK_APPEALS w) (MOCK_TEMPLATES w) (PENDING_DELETES w)
    v (listeners w) (closures w) (ticks w) (deliveries w) (remote w).

Definition set_listeners (v : gmap string (list Listener)) (w : World) : World :=
  mkWorld R (MOCK_CATEGORIES w) (MOCK_CUTOFFS w) (MOCK_EXPENSES w) (MOCK_LOGS w)
    (MOCK_USERS w) (MOCK_APPEALS w) (MOCK_TEMPLATES w) (PENDING_DELETES w)
    (PENDING_DELETE_NAMES w) v (closures w) (ticks w) (deliveries w) (remote w).

Definition set_closures (v : nat) (w : World) : World :=
  mkWorld R (MOCK_CATEGORIES w) (MOCK_CUTOFFS w) (MOCK_EXPENSES w) (MOCK_LOGS w)
    (MOCK_USERS w) (MOCK_APPEALS w) (MOCK_TEMPLATES w) (PENDING_DELETES w)
    (PENDING_DELETE_NAMES w) (listeners w) v (ticks w) (deliveries w) (remote w).

Definition set_ticks (v : nat) (w : World) : World :=
  mkWorld R (MOCK_CATEGORIES w) (MOCK_CUTOFFS w) (MOCK_EXPENSES w) (MOCK_LOGS w)
    (MOCK_USERS w) (MOCK_APPEALS w) (MOCK_TEMPLATES w) (PENDING_DELETES w)
    (PENDING_DELETE_NAMES w) (listeners w) (closures w) v (deliveries w) (remote w).

Definition set_deliveries (v : list Delivery) (w : World) : World :=
  mkWorld R (MOCK_CATEGORIES w) (MOCK_CUTOFFS w) (MOCK_EXPENSES w) (MOCK_LOGS w)
    (MOCK_USERS w) (MOCK_APPEALS w) (MOCK_TEMPLATES w) (PENDING_DELETES w)
    (PENDING_DELETE_NAMES w) (listeners w) (closures w) (ticks w) v (remote w).

Definition set_remote (v : list RemoteOp) (w : World) : World :=
  mkWorld R (MOCK_CATEGORIES w) (MOCK_CUTOFFS w) (MOCK_EXPENSES w) (MOCK_LOGS w)
    (MOCK_USERS w) (MOCK_APPEALS w) (MOCK_TEMPLATES w) (PENDING_DELETES w)
    (PENDING_DELETE_NAMES w) (listeners w) (closures w) (ticks w) (deliveries w) v.

(** The module as it is when it has been loaded: empty stores, empty
    tombstone sets and nine channels without listeners. *)
Definition initial : World :=
  mkWorld R [] [] [] [] [] [] [] ∅ ∅
    (list_to_map
       [("categories", []); ("cutoffs", []); ("expenses", []); ("logs", []);
        ("admin_all_expenses", []); ("admin_all_cutoffs", []);
        ("admin_users", []); ("admin_appeals", []); ("recurring", [])]%string)
    0 0 [] [].
End Setters.

(** ** A state and exception monad for the module's functions *)

Definition M {R : Runtime} (A : Type) : Type := World -> completion A * World.

Section Monad.
Context {R : Runtime}.

Definition ret {A} (a : A) : M A := fun w => (Normal a, w).

Definition bind {A B} (m : M A) (k : A -> M B) : M B :=
  fun w => match m w with
           | (Normal a, w') => k a w'
           | (Throw e, w') => (Throw e, w')
           end.

Definition throw {A} (e : JSError) : M A := fun w => (Throw e, w).
Definition gets {A} (f : World -> A) : M A := fun w => (Normal (f w), w).
Definition modify (f : World -> World) : M unit := fun w => (Normal tt, f w).
Definition liftC {A} (c : completion A) : M A := fun w => (c, w).

(** [l.forEach(f)] *)
Fixpoint forEach {A} (l : list A) (f : A -> M unit) : M unit :=
  match l with
  | [] => ret tt
  | x :: l' => bind (f x) (fun _ => forEach l' f)
  end.

(** [l.map(f)] for an [f] that may throw. *)
Fixpoint mapM_ {A B} (f : A -> M B) (l : list A) : M (list B) :=
  match l with
  | [] => ret []
  | x :: l' => bind (f x) (fun y => bind (mapM_ f l') (fun ys => ret (y :: ys)))
  end.
End Monad.

Global Instance M_ret {R : Runtime} : MRet M := @ret R.
Global Instance M_bind {R : Runtime} : MBind M := fun A B k m => bind m k.

(** ** [services/db.ts]: functions

    [db] tells whether [firebase.ts] obtained a Firestore handle; it is set
    once when the module is loaded.  The functions are modelled up to their
    first [await] on a remote call: what follows it is either a call of
    [logSystemAction], which is an event of its own, or a rejection handed
    to the caller, which changes no state; for the three writes of records
    it is written out in the functions named [_settled].  Remote documents are taken to
    conform to the interface the source casts them to, but for the fields
    that are decoded, which may be missing; their [id] field is [doc.id].
    A snapshot event of a run hands over documents that conform in every
    field.  The [id] of a payload sent to Firestore is not part of
    it and is left empty.  Callbacks only record what they receive.  The
    snapshot callbacks of the logs and of the users and the functions for
    users and appeals are in [Admin] below; the snapshot callback of the
    appeals, which orders them by parsed dates, is not modelled. *)

Module Db.
Section WithRuntime.
Context {R : Runtime} (db : bool).
Import JSString.

(** [Date.now()], [new Date()], [Timestamp.now()] *)
Definition Date_now : M N :=
  fun w => (Normal (clock (ticks w)), set_ticks (S (ticks w)) w).

Definition firestore (op : RemoteOp) : M unit :=
  modify (fun w => set_remote (remote w ++ [op]) w).

(** [allData.filter(x => x.userId === userId)], the body of every
    [userCallback]; a record without a [userId] property never passes. *)
Definition filterByUser (userId : jsstring) (allData : View) : View :=
  match allData with
  | CutOffs l => CutOffs (filter (fun c => CutOff.userId c = userId) l)
  | Expenses l => Expenses (filter (fun e => Expense.userId e = userId) l)
  | Templates l => Templates (filter (fun t => RecurringTemplate.userId t = userId) l)
  | Categories _ => Categories []
  | Logs _ => Logs []
  | Users _ => Users []
  | Appeals _ => Appeals []
  | Status b => Status b
  end.

(** What the caller's callback receives when listener [cb] is called with
    [data]. *)
Definition received (cb : Listener) (data : View) : View :=
  match cb with
  | Callback _ => data
  | UserCallback _ userId _ => filterByUser userId data
  end.

(** [cb(data)] *)
Definition call (cb : Listener) (data : View) : M unit :=
  modify (fun w => set_deliveries (deliveries w ++ [mkDelivery R cb (received cb data)]) w).

Definition notifyListeners (key : string) (data : View) : M unit :=
  ls ← gets (fun w => listeners w !! key);
  match ls with
  | Some ls =>
      let safeData := data in
      forEach ls (fun cb => call cb safeData)
  | None => ret tt
  end.

(** [listeners[key].push(cb)] *)
Definition push (key : string) (cb : Listener) : M unit :=
  ls ← gets (fun w => listeners w !! key);
  match ls with
  | Some ls => modify (fun w => set_listeners (<[key := ls ++ [cb]]> (listeners w)) w)
  | None => throw TypeError
  end.

(** [listeners[key] = listeners[key].filter(cb => cb !== callback)] *)
Definition remove (key : string) (callback : Listener) : M unit :=
  ls ← gets (fun w => listeners w !! key);
  match ls with
  | Some ls =>
      modify (fun w => set_listeners
                         (<[key := filter (fun cb => cb <> callback) ls]> (listeners w)) w)
  | None => throw TypeError
  end.

(** What a subscription returns: enough to run its unsubscribe closure. *)
Record Subscription := mkSubscription {
  sub_channel : string;
  sub_listener : Listener;
  sub_query : option Query;
}.

(** [onSnapshot(q, ...)] when [db] is set. *)
Definition listen (key : string) (cb : Listener) (q : Query) : M Subscription :=
  if db then firestore (OnSnapshot q) ;; ret (mkSubscription key cb (Some q))
  else ret (mkSubscription key cb None).

(** The closure returned by every subscription. *)
Definition unsubscribe (s : Subscription) : M unit :=
  match sub_query s with
  | Some q => firestore (Unsubscribe q)
  | None => ret tt
  end ;;
  remove (sub_channel s) (sub_listener s).

(** *** Audit log *)

Definition logSystemAction (actor action details : jsstring) (status : LogStatus)
  : M unit :=
  now ← Date_now;
  date ← Date_now;
  let newLog := AuditLog.mk (toString now) date actor action details status in
  modify (fun w => set_MOCK_LOGS (newLog :: MOCK_LOGS w) w) ;;
  logs ← gets MOCK_LOGS;
  notifyListeners "logs" (Logs logs) ;;
  if db then
    ts ← Date_now;
    firestore (AddAuditLog ts actor action details status)
  else ret tt.

Definition subscribeToAuditLogs (callback : Observer) (onStatusChange : option Observer)
  : M Subscription :=
  push "logs" (Callback callback) ;;
  logs ← gets MOCK_LOGS;
  call (Callback callback) (Logs logs) ;;
  if db then listen "logs" (Callback callback) (mkQuery "audit_logs" None (Some 50%nat))
  else
    match onStatusChange with
    | Some f => call (Callback f) (Status false)
    | None => ret tt
    end ;;
    ret (mkSubscription "logs" (Callback callback) None).

(** *** Categories *)

Definition subscribeToCategories (callback : Observer) : M Subscription :=
  push "categories" (Callback callback) ;;
  cats ← gets MOCK_CATEGORIES;
  call (Callback callback) (Categories cats) ;;
  listen "categories" (Callback callback) (mkQuery "categories" None None).

(** The merge of the snapshot callback of [subscribeToCategories]:
    [dead], [deadNames] are the two tombstone sets, [cache] is
    [MOCK_CATEGORIES] and [docs] the documents of the snapshot. *)
Definition mergeCategories (dead deadNames : gset (list N))
    (cache docs : list Category.t) : list Category.t :=
  let categories :=
    filter (fun c => let isIdDead := Category.id c ∈ dead in
                     let isNameDead :=
                       toLowerCase (trim (Category.name c)) ∈ deadNames in
                     ¬ isIdDead ∧ ¬ isNameDead) docs in
  let cloudNames : gset (list N) :=
    list_to_set (map (fun c => toLowerCase (Category.name c)) categories) in
  let pendingItems :=
    filter (fun c => let normalized := toLowerCase (trim (Category.name c)) in
                     (normalized ∉ cloudNames)
                     ∧ (Category.id c ∉ dead)
                     ∧ (normalized ∉ deadNames)) cache in
  let merged := categories ++ pendingItems in
  sort (fun a b => localeCompare (Category.name a) (Category.name b)) merged.

(** The snapshot callback of [subscribeToCategories]; the query has no
    filter, [docs] is the whole collection. *)
Definition onCategoriesSnapshot (docs : list Category.t) : M unit :=
  dead ← gets PENDING_DELETES;
  deadNames ← gets PENDING_DELETE_NAMES;
  cache ← gets MOCK_CATEGORIES;
  let merged := mergeCategories dead deadNames cache docs in
  modify (set_MOCK_CATEGORIES merged) ;;
  cats ← gets MOCK_CATEGORIES;
  notifyListeners "categories" (Categories cats).

Definition addSystemCategory (name adminEmail : jsstring) : M unit :=
  let normalizedName := toLowerCase (trim name) in
  modify (fun w =>
            if decide (normalizedName ∈ PENDING_DELETE_NAMES w)
            then set_PENDING_DELETE_NAMES (PENDING_DELETE_NAMES w ∖ {[normalizedName]}) w
            else w) ;;
  cats ← gets MOCK_CATEGORIES;
  if decide (Exists (fun c => toLowerCase (Category.name c) = normalizedName) cats)
  then throw (Error (lit "Category '" ++ name ++ lit "' already exists."))
  else if negb db then
    stamp ← Date_now;
    let tempId := lit "temp_" ++ toString stamp in
    created ← Date_now;
    let newCat := Category.mk tempId (trim name) false created in
    modify (fun w => set_MOCK_CATEGORIES (MOCK_CATEGORIES w ++ [newCat]) w) ;;
    cats ← gets MOCK_CATEGORIES;
    notifyListeners "categories" (Categories cats) ;;
    logSystemAction adminEmail (lit "CATEGORY_ADD")
      (lit "Added " ++ name ++ lit " (Simulation)") WARN
  else
    ts ← Date_now;
    firestore (AddCategory (trim name) false ts).

Definition deleteSystemCategory (id adminEmail : jsstring) : M unit :=
  cats ← gets MOCK_CATEGORIES;
  let target := List.find (fun c => bool_decide (Category.id c = id)) cats in
  match target with
  | Some target =>
      modify (fun w => set_PENDING_DELETE_NAMES
                         (PENDING_DELETE_NAMES w ∪ {[toLowerCase (trim (Category.name target))]}) w)
  | None => ret tt
  end ;;
  modify (fun w => set_PENDING_DELETES (PENDING_DELETES w ∪ {[id]}) w) ;;
  modify (fun w => set_MOCK_CATEGORIES
                     (filter (fun c => Category.id c <> id) (MOCK_CATEGORIES w)) w) ;;
  cats ← gets MOCK_CATEGORIES;
  notifyListeners "categories" (Categories cats) ;;
  if db then
    if startsWith id (lit "temp_")
    then modify (fun w => set_PENDING_DELETES (PENDING_DELETES w ∖ {[id]}) w)
    else firestore (DeleteDoc "categories" id)
  else ret tt.

(** *** Recurring templates *)

(** A field that the spread [...data] copies into the record; where the
    document has no string there, the field of the record, which the module
    never reads again, is left empty. *)
Definition copied (field : option jsstring) : jsstring := default [] field.

(** [{ id: doc.id, ...data, decryptedAmount: parseFloat(decryptData(...)) }] *)
Definition decodeTemplate (doc : TemplateDoc.t) : M RecurringTemplate.t :=
  amount ← liftC (Security.decryptValue (TemplateDoc.encryptedAmount doc));
  ret (RecurringTemplate.mk R (TemplateDoc.id doc) (TemplateDoc.userId doc)
         (TemplateDoc.category doc) (TemplateDoc.description doc)
         (copied (TemplateDoc.encryptedAmount doc)) (Some (parseFloat amount))).

Definition subscribeToTemplates (userId : jsstring) (callback : Observer)
  : M Subscription :=
  k ← gets closures;
  modify (set_closures (S k));;
  let userCallback := UserCallback k userId callback in
  push "recurring" userCallback;;
  temps ← gets MOCK_TEMPLATES;
  call userCallback (Templates temps);;
  listen "recurring" userCallback (mkQuery "recurring_templates" (Some userId) None).

(** The snapshot callback of [subscribeToTemplates userId]; [collection]
    is the remote collection, of which the query selects the documents of
    [userId]. *)
Definition onTemplatesSnapshot (userId : jsstring)
    (collection : list TemplateDoc.t) : M unit :=
  let docs := filter (fun d => TemplateDoc.userId d = userId) collection in
  templates ← mapM_ decodeTemplate docs;
  let cloudIds : gset (list N) := list_to_set (map RecurringTemplate.id templates) in
  cache ← gets MOCK_TEMPLATES;
  let optimistic :=
    filter (fun t => RecurringTemplate.userId t = userId
                     ∧ (RecurringTemplate.id t ∉ cloudIds)) cache in
  let others := filter (fun t => RecurringTemplate.userId t <> userId) cache in
  modify (set_MOCK_TEMPLATES (others ++ templates ++ optimistic));;
  temps ← gets MOCK_TEMPLATES;
  notifyListeners "recurring" (Templates temps).

(** [template] has no [id] by its type; the field of the record is not
    read. *)
Definition saveRecurringTemplate (template : RecurringTemplate.t) : M unit :=
  if negb db then
    now ← Date_now;
    let newTemp :=
      RecurringTemplate.mk R (toString now) (RecurringTemplate.userId template)
        (RecurringTemplate.category template) (RecurringTemplate.description template)
        (RecurringTemplate.encryptedAmount template)
        (RecurringTemplate.decryptedAmount template) in
    modify (fun w => set_MOCK_TEMPLATES (MOCK_TEMPLATES w ++ [newTemp]) w);;
    temps ← gets MOCK_TEMPLATES;
    notifyListeners "recurring" (Templates temps)
  else
    let securePayload :=
      RecurringTemplate.mk R [] (RecurringTemplate.userId template)
        (RecurringTemplate.category template) (RecurringTemplate.description template)
        (RecurringTemplate.encryptedAmount template) None in
    ts ← Date_now;
    firestore (AddTemplate securePayload ts).

Definition deleteRecurringTemplate (id : jsstring) : M unit :=
  if negb db then
    modify (fun w => set_MOCK_TEMPLATES
                       (filter (fun t => RecurringTemplate.id t <> id) (MOCK_TEMPLATES w)) w);;
    temps ← gets MOCK_TEMPLATES;
    notifyListeners "recurring" (Templates temps)
  else firestore (DeleteDoc "recurring_templates" id).

(** *** Cut-offs *)

Definition withIncome (doc : CutOffDoc.t) (income savings : option Number) : CutOff.t :=
  CutOff.mk R (CutOffDoc.id doc) (CutOffDoc.userId doc) (CutOffDoc.startDate doc)
    (CutOffDoc.endDate doc) (copied (CutOffDoc.encryptedTotalIncome doc))
    (copied (CutOffDoc.encryptedTotalSavings doc)) income savings.

(** The document mapping of [subscribeToCutoffs]: both amounts decoded. *)
Definition decodeCutOff (doc : CutOffDoc.t) : M CutOff.t :=
  income ← liftC (Security.decryptValue (CutOffDoc.encryptedTotalIncome doc));
  savings ← liftC (Security.decryptValue (CutOffDoc.encryptedTotalSavings doc));
  ret (withIncome doc (Some (parseFloat income)) (Some (parseFloat savings))).

(** The document mapping of [subscribeToAllCutoffs]: the income only. *)
Definition decodeCutOffIncome (doc : CutOffDoc.t) : M CutOff.t :=
  income ← liftC (Security.decryptValue (CutOffDoc.encryptedTotalIncome doc));
  ret (withIncome doc (Some (parseFloat income)) (CutOffDoc.decryptedSavings doc)).

Definition subscribeToCutoffs (userId : jsstring) (callback : Observer)
  : M Subscription :=
  k ← gets closures;
  modify (set_closures (S k));;
  let userCallback := UserCallback k userId callback in
  push "cutoffs" userCallback;;
  cuts ← gets MOCK_CUTOFFS;
  call userCallback (CutOffs cuts);;
  listen "cutoffs" userCallback (mkQuery "cutoffs" (Some userId) None).

(** The merge of the snapshot callback of [subscribeToCutoffs userId], on
    the decoded documents. *)
Definition mergeCutoffs (userId : jsstring) (cache decoded : list CutOff.t)
  : list CutOff.t :=
  let cloudData :=
    sort (fun a b => localeCompare (CutOff.startDate b) (CutOff.startDate a)) decoded in
  let cloudIds : gset (list N) := list_to_set (map CutOff.id cloudData) in
  let optimistic :=
    filter (fun c => CutOff.userId c = userId ∧ (CutOff.id c ∉ cloudIds)) cache in
  let others := filter (fun c => CutOff.userId c <> userId) cache in
  others ++ cloudData ++ optimistic.

Definition onCutoffsSnapshot (userId : jsstring) (collection : list CutOffDoc.t)
  : M unit :=
  let docs := filter (fun d => CutOffDoc.userId d = userId) collection in
  decoded ← mapM_ decodeCutOff docs;
  cache ← gets MOCK_CUTOFFS;
  modify (set_MOCK_CUTOFFS (mergeCutoffs userId cache decoded));;
  cuts ← gets MOCK_CUTOFFS;
  notifyListeners "cutoffs" (CutOffs cuts).

(** [cutoff] has no [id] by its type; the field of the record is not
    read. *)
Definition saveCutOff (cutoff : CutOff.t) (userEmail : jsstring) : M unit :=
  if negb db then
    now ← Date_now;
    let newCo :=
      CutOff.mk R (toString now) (CutOff.userId cutoff) (CutOff.startDate cutoff)
        (CutOff.endDate cutoff) (CutOff.encryptedTotalIncome cutoff)
        (CutOff.encryptedTotalSavings cutoff) (CutOff.decryptedIncome cutoff)
        (CutOff.decryptedSavings cutoff) in
    modify (fun w => set_MOCK_CUTOFFS (newCo :: MOCK_CUTOFFS w) w);;
    cuts ← gets MOCK_CUTOFFS;
    notifyListeners "cutoffs" (CutOffs cuts);;
    logSystemAction userEmail (lit "CUTOFF_CREATE")
      (lit "Created period " ++ CutOff.startDate cutoff ++ lit " to "
         ++ CutOff.endDate cutoff) SUCCESS
  else
    let securePayload :=
      CutOff.mk R [] (CutOff.userId cutoff) (CutOff.startDate cutoff)
        (CutOff.endDate cutoff) (CutOff.encryptedTotalIncome cutoff)
        (CutOff.encryptedTotalSavings cutoff) None None in
    ts ← Date_now;
    firestore (AddCutOff securePayload ts).

(** *** Expenses *)

Definition decodeExpense (doc : ExpenseDoc.t) : M Expense.t :=
  amount ← liftC (Security.decryptValue (ExpenseDoc.encryptedAmount doc));
  ret (Expense.mk R (ExpenseDoc.id doc) (ExpenseDoc.cutOffId doc) (ExpenseDoc.userId doc)
         (ExpenseDoc.category doc) (ExpenseDoc.date doc) (ExpenseDoc.description doc)
         (copied (ExpenseDoc.encryptedAmount doc)) (Some (parseFloat amount))).

Definition subscribeToExpenses (userId : jsstring) (callback : Observer)
  : M Subscription :=
  k ← gets closures;
  modify (set_closures (S k));;
  let userCallback := UserCallback k userId callback in
  push "expenses" userCallback;;
  exps ← gets MOCK_EXPENSES;
  call userCallback (Expenses exps);;
  listen "expenses" userCallback (mkQuery "expenses" (Some userId) None).

(** The merge of the snapshot callback of [subscribeToExpenses userId], on
    the decoded documents. *)
Definition mergeExpenses (userId : jsstring) (cache decoded : list Expense.t)
  : list Expense.t :=
  let cloudData :=
    sort (fun a b => localeCompare (Expense.date b) (Expense.date a)) decoded in
  let cloudIds : gset (list N) := list_to_set (map Expense.id cloudData) in
  let optimistic :=
    filter (fun c => Expense.userId c = userId ∧ (Expense.id c ∉ cloudIds)) cache in
  let others := filter (fun c => Expense.userId c <> userId) cache in
  others ++ cloudData ++ optimistic.

Definition onExpensesSnapshot (userId : jsstring) (collection : list ExpenseDoc.t)
  : M unit :=
  let docs := filter (fun d => ExpenseDoc.userId d = userId) collection in
  decoded ← mapM_ decodeExpense docs;
  cache ← gets MOCK_EXPENSES;
  modify (set_MOCK_EXPENSES (mergeExpenses userId cache decoded));;
  exps ← gets MOCK_EXPENSES;
  notifyListeners "expenses" (Expenses exps).

(** [expense] has no [id] by its type; the field of the record is not
    read. *)
Definition saveExpense (expense : Expense.t) (userEmail : jsstring) : M unit :=
  if negb db then
    now ← Date_now;
    let newEx :=
      Expense.mk R (toString now) (Expense.cutOffId expense) (Expense.userId expense)
        (Expense.category expense) (Expense.date expense) (Expense.description expense)
        (Expense.encryptedAmount expense) (Expense.decryptedAmount expense) in
    modify (fun w => set_MOCK_EXPENSES (newEx :: MOCK_EXPENSES w) w);;
    exps ← gets MOCK_EXPENSES;
    notifyListeners "expenses" (Expenses exps);;
    logSystemAction userEmail (lit "EXPENSE_ADD")
      (lit "Added expense to " ++ Expense.category expense) SUCCESS
  else
    let securePayload :=
      Expense.mk R [] (Expense.cutOffId expense) (Expense.userId expense)
        (Expense.category expense) (Expense.date expense) (Expense.description expense)
        (Expense.encryptedAmount expense) None in
    ts ← Date_now;
    firestore (AddExpense securePayload ts).

(** *** Administration views *)

Definition subscribeToUsers (callback : Observer) : M Subscription :=
  push "admin_users" (Callback callback);;
  users ← gets MOCK_USERS;
  call (Callback callback) (Users users);;
  listen "admin_users" (Callback callback) (mkQuery "users" None (Some 100%nat)).

Definition subscribeToAppeals (callback : Observer) : M Subscription :=
  push "admin_appeals" (Callback callback);;
  appeals ← gets MOCK_APPEALS;
  call (Callback callback) (Appeals appeals);;
  listen "admin_appeals" (Callback callback) (mkQuery "appeals" None (Some 50%nat)).

Definition subscribeToAllExpenses (callback : Observer) : M Subscription :=
  push "admin_all_expenses" (Callback callback);;
  exps ← gets MOCK_EXPENSES;
  call (Callback callback) (Expenses exps);;
  listen "admin_all_expenses" (Callback callback)
    (mkQuery "expenses" None (Some 500%nat)).

(** The snapshot callback of [subscribeToAllExpenses]; the query takes at
    most 500 documents of [collection]. *)
Definition onAllExpensesSnapshot (collection : list ExpenseDoc.t) : M unit :=
  let docs := take 500 collection in
  cloudData ← mapM_ decodeExpense docs;
  cache ← gets MOCK_EXPENSES;
  let others :=
    filter (fun e => ¬ Exists (fun c => Expense.id c = Expense.id e) cloudData) cache in
  modify (set_MOCK_EXPENSES (others ++ cloudData));;
  exps ← gets MOCK_EXPENSES;
  notifyListeners "admin_all_expenses" (Expenses exps).

Definition subscribeToAllCutoffs (callback : Observer) : M Subscription :=
  push "admin_all_cutoffs" (Callback callback);;
  cuts ← gets MOCK_CUTOFFS;
  call (Callback callback) (CutOffs cuts);;
  listen "admin_all_cutoffs" (Callback callback)
    (mkQuery "cutoffs" None (Some 500%nat)).

(** The snapshot callback of [subscribeToAllCutoffs]. *)
Definition onAllCutoffsSnapshot (collection : list CutOffDoc.t) : M unit :=
  let docs := take 500 collection in
  cloudData ← mapM_ decodeCutOffIncome docs;
  cache ← gets MOCK_CUTOFFS;
  let others :=
    filter (fun c => ¬ Exists (fun d => CutOff.id d = CutOff.id c) cloudData) cache in
  modify (set_MOCK_CUTOFFS (others ++ cloudData));;
  cuts ← gets MOCK_CUTOFFS;
  notifyListeners "admin_all_cutoffs" (CutOffs cuts).

(** *** What follows a remote write

    How the promise of a remote call stands when the caller looks at it:
    fulfilled, rejected with a message, or not settled. *)
Inductive Outcome :=
| Resolved
| Rejected (message : jsstring)
| Unsettled.

(** [withTimeout(promise, ms)]: the race of the promise against a timer
    that rejects with the error "TIMEOUT" after [ms] milliseconds;
    [Unsettled] is a promise that has not settled by then. *)
Definition withTimeout (promise : Outcome) : Outcome :=
  match promise with
  | Unsettled => Rejected (lit "TIMEOUT")
  | settled => settled
  end.

(** [addSystemCategory] from its [await withTimeout(writeOp, 5000)] on,
    inside the [try] whose [catch] throws the cloud error. *)
Definition addSystemCategory_settled (name adminEmail : jsstring) (writeOp : Outcome)
  : M unit :=
  match withTimeout writeOp with
  | Resolved =>
      logSystemAction adminEmail (lit "CATEGORY_ADD")
        (lit "Added global category: " ++ name) SUCCESS
  | Rejected message => throw (Error (lit "Cloud Error: " ++ message))
  | Unsettled => ret tt
  end.

(** The [then] and the [catch] that [saveCutOff] and [saveExpense] hang on
    the promise of [addDoc], which they do not await: the first logs, the
    second writes to the console, and neither runs while the promise is not
    settled. *)
Definition saveCutOff_settled (cutoff : CutOff.t) (userEmail : jsstring)
    (writeOp : Outcome) : M unit :=
  match writeOp with
  | Resolved =>
      logSystemAction userEmail (lit "CUTOFF_CREATE")
        (lit "Created period " ++ CutOff.startDate cutoff ++ lit " to "
           ++ CutOff.endDate cutoff) SUCCESS
  | Rejected _ => ret tt
  | Unsettled => ret tt
  end.

Definition saveExpense_settled (expense : Expense.t) (userEmail : jsstring)
    (writeOp : Outcome) : M unit :=
  match writeOp with
  | Resolved =>
      logSystemAction userEmail (lit "EXPENSE_ADD")
        (lit "Added expense to " ++ Expense.category expense) SUCCESS
  | Rejected _ => ret tt
  | Unsettled => ret tt
  end.

(** *** Runs of the module

    What can happen to the module: a call of one of its exported
    functions, a call of an unsubscribe closure, or Firestore calling one
    of the snapshot callbacks, with documents that conform to the
    interfaces. *)
Inductive Event :=
| SubscribeToAuditLogs (callback : Observer) (onStatusChange : option Observer)
| SubscribeToCategories (callback : Observer)
| SubscribeToUsers (callback : Observer)
| SubscribeToAppeals (callback : Observer)
| SubscribeToTemplates (userId : jsstring) (callback : Observer)
| SubscribeToCutoffs (userId : jsstring) (callback : Observer)
| SubscribeToExpenses (userId : jsstring) (callback : Observer)
| SubscribeToAllExpenses (callback : Observer)
| SubscribeToAllCutoffs (callback : Observer)
| CallUnsubscribe (s : Subscription)
| CategoriesSnapshot (docs : list Category.t)
| TemplatesSnapshot (userId : jsstring) (collection : list RecurringTemplate.t)
| CutoffsSnapshot (userId : jsstring) (collection : list CutOff.t)
| ExpensesSnapshot (userId : jsstring) (collection : list Expense.t)
| AllExpensesSnapshot (collection : list Expense.t)
| AllCutoffsSnapshot (collection : list CutOff.t)
| LogSystemAction (actor action details : jsstring) (status : LogStatus)
| AddSystemCategory (name adminEmail : jsstring)
| DeleteSystemCategory (id adminEmail : jsstring)
| SaveRecurringTemplate (template : RecurringTemplate.t)
| DeleteRecurringTemplate (id : jsstring)
| SaveCutOff (cutoff : CutOff.t) (userEmail : jsstring)
| SaveExpense (expense : Expense.t) (userEmail : jsstring).

Definition discard {A} (m : M A) : M unit := _ ← m; ret tt.

Definition step (e : Event) : M unit :=
  match e with
  | SubscribeToAuditLogs f g => discard (subscribeToAuditLogs f g)
  | SubscribeToCategories f => discard (subscribeToCategories f)
  | SubscribeToUsers f => discard (subscribeToUsers f)
  | SubscribeToAppeals f => discard (subscribeToAppeals f)
  | SubscribeToTemplates u f => discard (subscribeToTemplates u f)
  | SubscribeToCutoffs u f => discard (subscribeToCutoffs u f)
  | SubscribeToExpenses u f => discard (subscribeToExpenses u f)
  | SubscribeToAllExpenses f => discard (subscribeToAllExpenses f)
  | SubscribeToAllCutoffs f => discard (subscribeToAllCutoffs f)
  | CallUnsubscribe s => unsubscribe s
  | CategoriesSnapshot docs => onCategoriesSnapshot docs
  | TemplatesSnapshot u c => onTemplatesSnapshot u (map TemplateDoc.conforming c)
  | CutoffsSnapshot u c => onCutoffsSnapshot u (map CutOffDoc.conforming c)
  | ExpensesSnapshot u c => onExpensesSnapshot u (map ExpenseDoc.conforming c)
  | AllExpensesSnapshot c => onAllExpensesSnapshot (map ExpenseDoc.conforming c)
  | AllCutoffsSnapshot c => onAllCutoffsSnapshot (map CutOffDoc.conforming c)
  | LogSystemAction a b c d => logSystemAction a b c d
  | AddSystemCategory n a => addSystemCategory n a
  | DeleteSystemCategory i a => deleteSystemCategory i a
  | SaveRecurringTemplate t => saveRecurringTemplate t
  | DeleteRecurringTemplate i => deleteRecurringTemplate i
  | SaveCutOff c u => saveCutOff c u
  | SaveExpense e u => saveExpense e u
  end.

(** The state after an event; an exception goes to the caller of that
    event and leaves the state as it was when it was thrown. *)
Definition after (e : Event) (w : World) : World := snd (step e w).

(** The state after a sequence of events. *)
Definition run (es : list Event) (w : World) : World :=
  fold_left (fun w e => after e w) es w.

End WithRuntime.
End Db.

(** ** [services/db.ts]: users, appeals and the snapshot of the audit log

    The functions that [Db] leaves out.  As there, a function is modelled
    up to its first [await] on a remote call; the request it awaits is its
    result ([None] where it runs to its end without one).  [toISOString]
    is [Date.prototype.toISOString] on the date of a clock reading and
    [zero] the number 0. *)

Module Admin.
Section WithRuntime.
Context {R : Runtime} (db : bool).
Variable toISOString : N -> jsstring.
Variable zero : Number.
Import JSString Db.

Definition set_MOCK_USERS (v : list UserMetadata.t) (w : World) : World :=
  mkWorld R (MOCK_CATEGORIES w) (MOCK_CUTOFFS w) (MOCK_EXPENSES w) (MOCK_LOGS w) v
    (MOCK_APPEALS w) (MOCK_TEMPLATES w) (PENDING_DELETES w)
    (PENDING_DELETE_NAMES w) (listeners w) (closures w) (ticks w)
    (deliveries w) (remote w).

Definition set_MOCK_APPEALS (v : list AccessAppeal.t) (w : World) : World :=
  mkWorld R (MOCK_CATEGORIES w) (MOCK_CUTOFFS w) (MOCK_EXPENSES w) (MOCK_LOGS w)
    (MOCK_USERS w) v (MOCK_TEMPLATES w) (PENDING_DELETES w)
    (PENDING_DELETE_NAMES w) (listeners w) (closures w) (ticks w)
    (deliveries w) (remote w).

(** The remote calls these functions await. *)
Inductive Request :=
| GetDoc (collection : string) (id : jsstring)
| UpdateLock (uid : jsstring) (isLocked : bool)
| AddAppeal (uid email reason : jsstring) (status : AppealStatus) (timestamp : jsstring)
| UpdateAppeal (id : jsstring) (status : AppealStatus).

(** [MOCK_USERS.find(u => u.uid === uid)] *)
Definition findUser (uid : jsstring) (users : list UserMetadata.t)
  : option UserMetadata.t :=
  List.find (fun u => bool_decide (UserMetadata.uid u = uid)) users.

Definition syncUserProfile (uid email : jsstring) : M (option Request) :=
  if negb db then
    users ← gets MOCK_USERS;
    match findUser uid users with
    | None =>
        now ← Date_now;
        let user := UserMetadata.mk R uid email (toISOString now) false zero in
        modify (fun w => set_MOCK_USERS (MOCK_USERS w ++ [user]) w);;
        users ← gets MOCK_USERS;
        notifyListeners "admin_users" (Users users)
    | Some _ => ret tt
    end;;
    ret None
  else ret (Some (GetDoc "users" uid)).

(** [getDoc] is the outcome of the read that the function awaits when
    there is a Firestore handle: the data of the document, if it exists, or
    the rejection. *)
Definition checkUserLockStatus (uid : jsstring)
    (getDoc : completion (option UserMetadata.t)) : M bool :=
  if negb db then
    users ← gets MOCK_USERS;
    match findUser uid users with
    | Some user => ret (UserMetadata.isLocked user)
    | None => ret false
    end
  else
    liftC (try_catch
             (cbind getDoc
                (fun snap =>
                   match snap with
                   | Some data => if UserMetadata.isLocked data then Normal true
                                  else Normal false
                   | None => Normal false
                   end))
             (fun _ => Normal false)).

(** [{ ...u, isLocked }] *)
Definition withLock (u : UserMetadata.t) (isLocked : bool) : UserMetadata.t :=
  UserMetadata.mk R (UserMetadata.uid u) (UserMetadata.email u)
    (UserMetadata.lastLogin u) isLocked (UserMetadata.riskScore u).

(** A boolean in a template literal. *)
Definition boolString (b : bool) : jsstring := if b then lit "true" else lit "false".

Definition toggleUserLock (targetUid : jsstring) (currentStatus : bool)
    (adminEmail adminUid : jsstring) : M (option Request) :=
  if decide (targetUid = adminUid) then
    throw (Error (lit "SECURITY VIOLATION: Administrators cannot lock their own root access."))
  else if negb db then
    modify (fun w =>
              set_MOCK_USERS
                (map (fun u => if decide (UserMetadata.uid u = targetUid)
                               then withLock u (negb currentStatus) else u)
                   (MOCK_USERS w)) w);;
    users ← gets MOCK_USERS;
    notifyListeners "admin_users" (Users users);;
    logSystemAction db adminEmail (lit "ADMIN_LOCK_TOGGLE")
      (lit "User " ++ targetUid ++ lit " lock status set to "
         ++ boolString (negb currentStatus) ++ lit " (Offline)") WARN;;
    ret None
  else ret (Some (UpdateLock targetUid (negb currentStatus))).

(** The snapshot callback of [subscribeToUsers]; the query takes at most
    100 documents of [collection]. *)
Definition onUsersSnapshot (collection : list UserMetadata.t) : M unit :=
  let users := take 100 collection in
  modify (set_MOCK_USERS users);;
  users ← gets MOCK_USERS;
  notifyListeners "admin_users" (Users users).

Definition submitAppeal (uid email reason : jsstring) : M (option Request) :=
  if negb db then
    now ← Date_now;
    date ← Date_now;
    let appeal :=
      AccessAppeal.mk (toString now) uid email reason PENDING (toISOString date) in
    modify (fun w => set_MOCK_APPEALS (appeal :: MOCK_APPEALS w) w);;
    appeals ← gets MOCK_APPEALS;
    notifyListeners "admin_appeals" (Appeals appeals);;
    logSystemAction db email (lit "APPEAL_SUBMIT")
      (lit "User submitted lockout appeal (Offline)") WARN;;
    ret None
  else
    date ← Date_now;
    ret (Some (AddAppeal uid email reason PENDING (toISOString date))).

(** [{ ...a, status }] *)
Definition withStatus (a : AccessAppeal.t) (status : AppealStatus) : AccessAppeal.t :=
  AccessAppeal.mk (AccessAppeal.id a) (AccessAppeal.uid a) (AccessAppeal.email a)
    (AccessAppeal.reason a) status (AccessAppeal.timestamp a).

Definition statusString (s : AppealStatus) : jsstring :=
  match s with
  | PENDING => lit "PENDING"
  | APPROVED => lit "APPROVED"
  | REJECTED => lit "REJECTED"
  end.

(** [newStatus] is [APPROVED] or [REJECTED] by its type. *)
Definition resolveAppeal (appealId : jsstring) (newStatus : AppealStatus)
    (adminEmail : jsstring) : M (option Request) :=
  if negb db then
    modify (fun w =>
              set_MOCK_APPEALS
                (map (fun a => if decide (AccessAppeal.id a = appealId)
                               then withStatus a newStatus else a)
                   (MOCK_APPEALS w)) w);;
    appeals ← gets MOCK_APPEALS;
    notifyListeners "admin_appeals" (Appeals appeals);;
    logSystemAction db adminEmail (lit "APPEAL_DECISION")
      (lit "Appeal " ++ appealId ++ lit " set to " ++ statusString newStatus
         ++ lit " (Offline)") SUCCESS;;
    ret None
  else ret (Some (UpdateAppeal appealId newStatus)).

(** A document of the collection [audit_logs]: its [timestamp] may be
    missing. *)
Record LogDoc := mkLogDoc {
  log_id : jsstring;
  log_timestamp : option N;
  log_actor : jsstring;
  log_action : jsstring;
  log_details : jsstring;
  log_status : LogStatus;
}.

(** The document mapping of [subscribeToAuditLogs]: a document without a
    timestamp gets the time of the snapshot. *)
Definition decodeLog (doc : LogDoc) : M AuditLog.t :=
  date ← match log_timestamp doc with
         | Some t => ret t
         | None => Date_now
         end;
  ret (AuditLog.mk (log_id doc) date (log_actor doc) (log_action doc)
         (log_details doc) (log_status doc)).

(** [(a, b) => b.timestamp.getTime() - a.timestamp.getTime()] *)
Definition newestFirst (a b : AuditLog.t) : Z :=
  (Z.of_N (AuditLog.timestamp b) - Z.of_N (AuditLog.timestamp a))%Z.

(** The snapshot callback of [subscribeToAuditLogs callback onStatusChange];
    the query takes at most 50 documents of [collection]. *)
Definition onLogsSnapshot (onStatusChange : option Observer)
    (collection : list LogDoc) : M unit :=
  let docs := take 50 collection in
  logs ← mapM_ decodeLog docs;
  let logs := sort newestFirst logs in
  modify (set_MOCK_LOGS logs);;
  match onStatusChange with
  | Some f => call (Callback f) (Status true)
  | None => ret tt
  end;;
  logs ← gets MOCK_LOGS;
  notifyListeners "logs" (Logs logs).

(** *** Runs with these functions

    An event of [Db], a call of one of the functions above, or Firestore
    calling the snapshot callback of the users or of the audit log. *)
Inductive Action :=
| Base (e : Event)
| SyncUserProfile (uid email : jsstring)
| CheckUserLockStatus (uid : jsstring) (getDoc : completion (option UserMetadata.t))
| ToggleUserLock (targetUid : jsstring) (currentStatus : bool)
    (adminEmail adminUid : jsstring)
| UsersSnapshot (collection : list UserMetadata.t)
| SubmitAppeal (uid email reason : jsstring)
| ResolveAppeal (appealId : jsstring) (newStatus : AppealStatus) (adminEmail : jsstring)
| LogsSnapshot (onStatusChange : option Observer) (collection : list LogDoc).

Definition perform (a : Action) : M unit :=
  match a with
  | Base e => step db e
  | SyncUserProfile u e => discard (syncUserProfile u e)
  | CheckUserLockStatus u g => discard (checkUserLockStatus u g)
  | ToggleUserLock t s e a => discard (toggleUserLock t s e a)
  | UsersSnapshot c => onUsersSnapshot c
  | SubmitAppeal u e r => discard (submitAppeal u e r)
  | ResolveAppeal i s a => discard (resolveAppeal i s a)
  | LogsSnapshot f c => onLogsSnapshot f c
  end.

(** The state after a sequence of actions. *)
Definition performAll (acts : list Action) (w : World) : World :=
  fold_left (fun w a => snd (perform a w)) acts w.

End WithRuntime.
End Admin.

(** ** [ExpenseManager]: saving a template from the form

    [handleSaveTemplate] on the fields of the form; the sounds and the
    alerts of the page are left out. *)

Module ExpenseManager.
Section WithRuntime.
Context {R : Runtime} (db : bool).



End WithRuntime.
End ExpenseManager.

(** ** A runtime to evaluate the functions on ASCII data

    Case mapping of the letters A to Z, comparison code unit by code unit, a
    number kept as the text it is parsed from and a clock that starts at
    1700000000000 and advances by one at each reading. *)

Module AsciiRuntime.

Definition lower (c : N) : N :=
  if negb (c <? 65) && (c <=? 90) then c + 32 else c.

Fixpoint compareUnits (a b : jsstring) : Z :=
  match a, b with
  | [], [] => 0%Z
  | [], _ :: _ => (-1)%Z
  | _ :: _, [] => 1%Z
  | x :: a', y :: b' =>
      if x <? y then (-1)%Z else if y <? x then 1%Z else compareUnits a' b'
  end.

Definition runtime : Runtime := {|
  Number := list N;
  parseFloat := fun s => s;
  toLowerCase := map lower;
  localeCompare := compareUnits;
  clock := fun n => N.of_nat n + 1700000000000;
|}.

End AsciiRuntime.

(** ** [notifyListeners] with arrays as mutable objects

    Above, the list a callback receives is a value.  In the source it is an
    array object that the callback may edit in place; this module keeps the
    arrays in a heap to tell which callbacks receive the same object.  A
    callback is given by the edit it performs on the array it is handed. *)

Module Aliasing.
Section Heap.
Context {A : Type}.

(** The heap of arrays; a reference is an index in it. *)
Abbreviation ref := nat (only parsing).
Abbreviation heap := (list (list A)) (only parsing).

Definition read (h : heap) (r : ref) : list A := default [] (h !! r).
Definition write (h : heap) (r : ref) (l : list A) : heap := <[r := l]> h.
Definition alloc (h : heap) (l : list A) : ref * heap := (length h, h ++ [l]).

(** A caller's callback: its in-place edit of the array it receives
    (the identity for a callback that only reads). *)
Definition observer := list A -> list A.

(** The functions stored in [listeners]: the callback itself, or a
    [userCallback] closure that calls it on [allData.filter(owned)]. *)
Inductive listener :=
| Callback (f : observer)
| UserCallback (owned : A -> bool) (f : observer).

(** One call of a caller's callback: the array it received and what the
    array held when the call began. *)
Record reception := mkReception {
  array : ref;
  seen : list A;
}.

Definition state := (heap * list reception)%type.

(** [f(r)] *)
Definition callObserver (f : observer) (r : ref) (st : state) : state :=
  let '(h, log) := st in
  (write h r (f (read h r)), log ++ [mkReception r (read h r)]).

(** [cb(r)] *)
Definition call (cb : listener) (r : ref) (st : state) : state :=
  match cb with
  | Callback f => callObserver f r st
  | UserCallback owned f =>
      let '(h, log) := st in
      let '(filtered, h') := alloc h (List.filter owned (read h r)) in
      callObserver f filtered (h', log)
  end.

(** [notifyListeners(key, data)] where [ls] is [listeners[key]] and
    [data] the array passed, which is always one of the stores. *)
Definition notifyListeners (ls : list listener) (data : ref) (st : state) : state :=
  let '(h, log) := st in
  let '(safeData, h') := alloc h (read h data) in
  fold_left (fun st cb => call cb safeData st) ls (h', log).

End Heap.
Arguments listener A : clear implicits.
Arguments reception A : clear implicits.
End Aliasing.

(** * Properties *)

(** ** Strings *)

Section StringFacts.
Import JSString.

Lemma startsWith_app (p s : jsstring) : startsWith (p ++ s) p = true.
Proof.
  induction p as [|c p IH]; [reflexivity|].
  cbn [app startsWith]. now rewrite N.eqb_refl, IH.
Qed.

Lemma replace_unfold (s pat rep : jsstring) :
  replace s pat rep =
  if startsWith s pat then rep ++ drop (length pat) s
  else match s with
       | [] => []
       | c :: s' => c :: replace s' pat rep
       end.
Proof. destruct s; reflexivity. Qed.

(** Replacing the first occurrence of a prefix by the empty string removes
    the prefix. *)
Lemma replace_prefix (p s : jsstring) : replace (p ++ s) p [] = s.
Proof.
  rewrite replace_unfold, startsWith_app. cbn [app].
  now rewrite drop_app_length.
Qed.

End StringFacts.

(** ** Base64 *)

Section Base64Facts.
Import Base64.

Ltac div_lia := zify; Z.to_euclidean_division_equations; lia.

Ltac split_if :=
  repeat match goal with
    | |- context [if ?a <? ?b then _ else _] => destruct (N.ltb_spec a b)
    | |- context [if ?a =? ?b then _ else _] => destruct (N.eqb_spec a b)
    | |- context [if (?a <=? ?b) && _ then _ else _] =>
        destruct (N.leb_spec a b); cbn [andb]
    | |- context [if ?a <=? ?b then _ else _] => destruct (N.leb_spec a b)
    end.

Lemma index_char (n : N) : n < 64 -> index (char n) = Some n.
Proof.
  intros Hn. unfold char. split_if; unfold index; split_if; try lia; f_equal; lia.
Qed.

Lemma char_not_pad (n : N) : (char n =? pad) = false.
Proof. unfold char, pad. split_if; apply N.eqb_neq; lia. Qed.

Lemma char_not_space (n : N) : isAsciiWhitespace (char n) = false.
Proof.
  unfold isAsciiWhitespace, char.
  split_if; repeat (apply orb_false_intro); apply N.eqb_neq; lia.
Qed.

(** Induction on a list of bytes, three at a time. *)
Lemma list_ind3 {A} (P : list A -> Prop) :
  P [] -> (forall x, P [x]) -> (forall x y, P [x; y]) ->
  (forall x y z l, P l -> P (x :: y :: z :: l)) ->
  forall l, P l.
Proof.
  intros H0 H1 H2 H3 l.
  assert (H : P l /\ (forall x, P (x :: l)) /\ (forall x y, P (x :: y :: l))).
  { induction l as [|a l (IH0 & IH1 & IH2)]; [now auto|].
    split; [apply IH1|]. split; [intros; apply IH2|]. intros; now apply H3. }
  apply H.
Qed.

Definition len4 (s : jsstring) : N := N.of_nat (length s) mod 4.

Lemma len4_cons4 (a b c d : N) (s : jsstring) :
  len4 (a :: b :: c :: d :: s) = len4 s.
Proof. unfold len4. cbn [length]. div_lia. Qed.

Lemma encode_len4 (bs : list N) : len4 (encode bs) = 0.
Proof.
  induction bs as [| x | x y | x y z l IH] using list_ind3;
    cbn [encode]; rewrite ?len4_cons4; auto.
Qed.

Lemma encode_no_space (bs : list N) : removeWhitespace (encode bs) = encode bs.
Proof.
  unfold removeWhitespace, pad.
  induction bs as [| x | x y | x y z l IH] using list_ind3;
    cbn [encode List.filter]; rewrite ?char_not_space; cbn [negb];
    try reflexivity.
  now rewrite IH.
Qed.

Lemma dropPadding_char (n : N) (s : jsstring) :
  dropPadding (char n :: s) = char n :: dropPadding s.
Proof. cbn [dropPadding]. now rewrite char_not_pad. Qed.

(** Decoding the characters of an encoding, its padding removed, gives the
    bytes back. *)
Lemma decode_encode (bs : list N) :
  Forall (fun c => c < 256) bs ->
  exists ns, indexes (dropPadding (encode bs)) = Some ns
             /\ decode ns = bs
             /\ len4 (dropPadding (encode bs)) <> 1.
Proof.
  induction bs as [| x | x y | x y z l IH] using list_ind3; intros Hb.
  - exists []. split; [reflexivity|]. split; [reflexivity|discriminate].
  - apply Forall_cons in Hb as [Hx _].
    cbn [encode]. rewrite !dropPadding_char.
    cbn [dropPadding]. rewrite N.eqb_refl. cbn [andb indexes].
    rewrite !index_char by div_lia.
    eexists. split; [reflexivity|].
    split; [|change (len4 [char (x * 16 / 64); char ((x * 16) mod 64)]) with 2;
             discriminate].
    cbn [decode]. f_equal. div_lia.
  - apply Forall_cons in Hb as [Hx Hb]. apply Forall_cons in Hb as [Hy _].
    cbn [encode]. rewrite !dropPadding_char.
    cbn [dropPadding]. rewrite N.eqb_refl. cbn [andb indexes].
    rewrite !index_char by div_lia.
    eexists. split; [reflexivity|].
    split; [|unfold len4; cbn [length]; discriminate].
    cbn [decode]. f_equal; [|f_equal]; div_lia.
  - apply Forall_cons in Hb as [Hx Hb]. apply Forall_cons in Hb as [Hy Hb].
    apply Forall_cons in Hb as [Hz Hb].
    destruct (IH Hb) as (ns & Hns & Hdec & Hlen).
    cbn [encode]. rewrite !dropPadding_char, len4_cons4.
    cbn [indexes]. rewrite Hns, !index_char by div_lia.
    eexists. split; [reflexivity|]. split; [|assumption].
    cbn [decode]. rewrite Hdec.
    f_equal; [|f_equal; [|f_equal]]; div_lia.
Qed.

(** [atob(btoa(s))] is [s] for every string that [btoa] accepts. *)
Lemma atob_encode (bs : list N) :
  Forall (fun c => c < 256) bs -> atob (encode bs) = Normal bs.
Proof.
  intros Hb. unfold atob. rewrite encode_no_space.
  fold (len4 (encode bs)). rewrite encode_len4. cbn [N.eqb].
  destruct (decode_encode bs Hb) as (ns & Hns & Hdec & Hlen).
  fold (len4 (dropPadding (encode bs))).
  destruct (N.eqb_spec (len4 (dropPadding (encode bs))) 1); [contradiction|].
  now rewrite Hns, Hdec.
Qed.

Lemma btoa_latin1 (s : jsstring) :
  Forall (fun c => c < 256) s -> btoa s = Normal (encode s).
Proof.
  intros Hs. unfold btoa.
  replace (forallb (fun c => c <? 256) s) with true; [reflexivity|].
  symmetry. apply forallb_forall. intros c Hc.
  apply N.ltb_lt. rewrite Forall_forall in Hs. apply Hs.
  now apply list_elem_of_In.
Qed.

End Base64Facts.

(** ** [utils/security.ts] *)

Section SecurityFacts.
Import JSString Base64 Security.

(** The value [decryptData] returns. *)
Definition plaintext (encryptedValue : jsstring) : jsstring :=
  match decryptData encryptedValue with
  | Normal v => v
  | Throw _ => lit "0"
  end.

Lemma decryptData_returns (s : jsstring) : decryptData s = Normal (plaintext s).
Proof.
  unfold plaintext, decryptData.
  destruct (startsWith s (lit "ENC_")); cbn [negb]; [|reflexivity].
  destruct (atob _); reflexivity.
Qed.

Lemma decryptData_no_prefix (s : jsstring) :
  startsWith s (lit "ENC_") = false -> decryptData s = Normal (lit "0").
Proof. intros H. unfold decryptData. now rewrite H. Qed.

Lemma decryptData_malformed (payload : jsstring) (e : JSError) :
  atob payload = Throw e -> decryptData (lit "ENC_" ++ payload) = Normal (lit "0").
Proof.
  intros H. unfold decryptData.
  rewrite startsWith_app, replace_prefix, H. reflexivity.
Qed.

Lemma decryptData_encoded (s : jsstring) :
  Forall (fun c => c < 256) s ->
  decryptData (lit "ENC_" ++ encode (SECRET_KEY_PREFIX ++ s)) = Normal s.
Proof.
  intros Hs. unfold decryptData.
  rewrite startsWith_app, replace_prefix. cbn [negb].
  rewrite atob_encode.
  - cbn [cbind try_catch]. now rewrite replace_prefix.
  - apply Forall_app. split; [|assumption].
    vm_compute. repeat constructor.
Qed.

End SecurityFacts.

(** ** [services/db.ts] *)

(** *** Reading the monad *)

Section MonadFacts.
Context {R : Runtime}.
Import Db.

Lemma bind_run {A B} (m : M A) (k : A -> M B) (w : World) :
  (m ≫= k) w = match m w with
               | (Normal a, w') => k a w'
               | (Throw e, w') => (Throw e, w')
               end.
Proof. reflexivity. Qed.

Lemma set_deliveries_same (w : World) : set_deliveries (deliveries w) w = w.
Proof. now destruct w. Qed.

(** What a call of [notifyListeners key data] delivers in [w]: [data] to
    every listener of the channel, in the order of subscription. *)
Definition published (key : string) (data : View) (w : World) : list Delivery :=
  match listeners w !! key with
  | Some ls => map (fun cb => mkDelivery R cb (received cb data)) ls
  | None => []
  end.

Lemma forEach_call (ls : list Listener) (data : View) (w : World) :
  forEach ls (fun cb => call cb data) w =
  (Normal tt,
   set_deliveries
     (deliveries w ++ map (fun cb => mkDelivery R cb (received cb data)) ls) w).
Proof.
  revert w. induction ls as [|cb ls IH]; intros w.
  - cbn. now rewrite app_nil_r, set_deliveries_same.
  - cbn [forEach]. unfold bind at 1. unfold call at 1, modify.
    rewrite IH. cbn. now rewrite <- app_assoc.
Qed.

Lemma notifyListeners_run (key : string) (data : View) (w : World) :
  notifyListeners key data w =
  (Normal tt, set_deliveries (deliveries w ++ published key data w) w).
Proof.
  unfold notifyListeners, published. rewrite bind_run. unfold gets.
  destruct (listeners w !! key) as [ls|].
  - apply forEach_call.
  - cbn. now rewrite app_nil_r, set_deliveries_same.
Qed.

End MonadFacts.

(** *** Invariants of monadic code *)

Section Preserves.
Context {R : Runtime}.
Import Db.

(** [m] keeps [I]: if [I] holds before [m] runs, it holds afterwards,
    whether [m] returns or throws. *)
Definition preserves {A} (I : World -> Prop) (m : M A) : Prop :=
  forall w, I w -> I (snd (m w)).

Lemma preserves_ret {A} (I : World -> Prop) (a : A) : preserves I (mret a).
Proof. intros w H. exact H. Qed.

Lemma preserves_throw {A} (I : World -> Prop) (e : JSError) :
  preserves I (throw (A := A) e).
Proof. intros w H. exact H. Qed.

Lemma preserves_gets {A} (I : World -> Prop) (f : World -> A) : preserves I (gets f).
Proof. intros w H. exact H. Qed.

Lemma preserves_liftC {A} (I : World -> Prop) (c : completion A) :
  preserves I (liftC c).
Proof. intros w H. exact H. Qed.

Lemma preserves_modify (I : World -> Prop) (f : World -> World) :
  (forall w, I w -> I (f w)) -> preserves I (modify f).
Proof. intros Hf w H. now apply Hf. Qed.

Lemma preserves_bind {A B} (I : World -> Prop) (m : M A) (k : A -> M B) :
  preserves I m -> (forall a, preserves I (k a)) -> preserves I (m ≫= k).
Proof.
  intros Hm Hk w H. rewrite bind_run.
  specialize (Hm w H). destruct (m w) as [[a|e] w']; cbn in *; [|exact Hm].
  now apply Hk.
Qed.

Lemma preserves_forEach {A} (I : World -> Prop) (l : list A) (f : A -> M unit) :
  (forall x, preserves I (f x)) -> preserves I (forEach l f).
Proof.
  intros Hf. induction l as [|x l IH]; [apply preserves_ret|].
  apply (preserves_bind I (f x) (fun _ => forEach l f)); [apply Hf|intros _; exact IH].
Qed.

Lemma preserves_mapM_ {A B} (I : World -> Prop) (f : A -> M B) (l : list A) :
  (forall x, preserves I (f x)) -> preserves I (mapM_ f l).
Proof.
  intros Hf. induction l as [|x l IH]; [apply preserves_ret|].
  apply (preserves_bind I (f x)); [apply Hf|intros y].
  apply (preserves_bind I (mapM_ f l)); [exact IH|intros ys; apply preserves_ret].
Qed.

Lemma preserves_Date_now (I : World -> Prop) :
  (forall w, I w -> I (set_ticks (S (ticks w)) w)) -> preserves I Date_now.
Proof. intros Hf w H. now apply Hf. Qed.

Lemma preserves_run (db : bool) (I : World -> Prop) (es : list Event) :
  (forall e, e ∈ es -> preserves I (step db e)) ->
  forall w, I w -> I (run db es w).
Proof.
  induction es as [|e es IH]; intros He w H; [exact H|].
  cbn [run fold_left]. apply IH.
  - intros e' He'. apply He. now right.
  - apply (He e); [now left|exact H].
Qed.

End Preserves.

(** Breaks a [preserves] goal down to the state updates of the code. *)
Ltac preserve_core :=
  repeat match goal with
    | |- preserves _ (if ?b then _ else _) => destruct b
    | |- preserves _ (match ?x with _ => _ end) => destruct x
    | |- preserves _ (mret _) => apply preserves_ret
    | |- preserves _ (ret _) => apply preserves_ret
    | |- preserves _ (throw _) => apply preserves_throw
    | |- preserves _ (gets _) => apply preserves_gets
    | |- preserves _ (liftC _) => apply preserves_liftC
    | |- preserves _ (_ ≫= _) => apply preserves_bind; [|intros ?]
    | |- preserves _ (forEach _ _) => apply preserves_forEach; intros ?
    | |- preserves _ (mapM_ _ _) => apply preserves_mapM_; intros ?
    | |- preserves _ (modify _) => apply preserves_modify; intros ? ?; repeat case_decide
    | |- preserves _ Db.Date_now => apply preserves_Date_now; intros ? ?
    | |- preserves _ _ =>
        progress unfold Db.step, Db.discard, Db.onCategoriesSnapshot,
          Db.onTemplatesSnapshot, Db.onCutoffsSnapshot, Db.onExpensesSnapshot,
          Db.onAllExpensesSnapshot, Db.onAllCutoffsSnapshot,
          Db.subscribeToAuditLogs, Db.subscribeToCategories, Db.subscribeToUsers,
          Db.subscribeToAppeals, Db.subscribeToTemplates, Db.subscribeToCutoffs,
          Db.subscribeToExpenses, Db.subscribeToAllExpenses,
          Db.subscribeToAllCutoffs, Db.unsubscribe, Db.logSystemAction,
          Db.addSystemCategory, Db.deleteSystemCategory, Db.saveRecurringTemplate,
          Db.deleteRecurringTemplate, Db.saveCutOff, Db.saveExpense,
          Db.notifyListeners, Db.call, Db.listen, Db.firestore,
          Db.decodeTemplate, Db.decodeCutOff, Db.decodeCutOffIncome,
          Db.decodeExpense
    end.


(** The same, down to the updates of [listeners] as well. *)
Ltac preserve := preserve_core; unfold Db.push, Db.remove; preserve_core.

(** *** Sorting *)

Section SortFacts.
Context {A : Type} (cmp : A -> A -> Z).

Lemma insert_sorted_perm (x : A) (l : list A) : insert_sorted cmp x l ≡ₚ x :: l.
Proof.
  induction l as [|y l IH]; [reflexivity|].
  cbn [insert_sorted]. destruct (0 <? cmp x y)%Z; [|reflexivity].
  rewrite IH. apply Permutation_swap.
Qed.

Lemma sort_perm (l : list A) : sort cmp l ≡ₚ l.
Proof.
  induction l as [|x l IH]; [reflexivity|].
  cbn [sort]. now rewrite insert_sorted_perm, IH.
Qed.

Lemma elem_of_sort (x : A) (l : list A) : x ∈ sort cmp l <-> x ∈ l.
Proof. now rewrite sort_perm. Qed.

End SortFacts.

(** *** Categories and their tombstones *)

(** Runs straight-line monadic code on a state. *)
Ltac mrun :=
  repeat first
    [ progress cbn [gets modify ret mret M_ret throw liftC Db.firestore Db.Date_now
                      Db.call snd fst]
    | rewrite bind_run ].

Section Tombstones.
Context {R : Runtime} (db : bool).
Import JSString Db.

(** The natural key of a category: its name, trimmed and case-folded. *)
Definition key (c : Category.t) : jsstring := toLowerCase (trim (Category.name c)).

Definition isSnapshot (e : Event) : bool :=
  match e with
  | CategoriesSnapshot _ | TemplatesSnapshot _ _ | CutoffsSnapshot _ _
  | ExpensesSnapshot _ _ | AllExpensesSnapshot _ | AllCutoffsSnapshot _ => true
  | _ => false
  end.

Lemma run_cons (e : Event) (es : list Event) (w : World) :
  run db (e :: es) w = run db es (after db e w).
Proof. reflexivity. Qed.

Lemma run_app (es es' : list Event) (w : World) :
  run db (es ++ es') w = run db es' (run db es w).
Proof. apply fold_left_app. Qed.

Lemma snapshot_keeps_tombstones (e : Event) (dead deadNames : gset (list N)) :
  isSnapshot e = true ->
  preserves (fun w => PENDING_DELETES w = dead /\ PENDING_DELETE_NAMES w = deadNames)
    (step db e).
Proof.
  intros He. destruct e; try discriminate He; preserve; assumption.
Qed.

Lemma elem_of_mergeCategories (dead deadNames : gset (list N))
    (cache docs : list Category.t) (c : Category.t) :
  c ∈ mergeCategories dead deadNames cache docs ->
  (Category.id c ∉ dead) /\ (key c ∉ deadNames).
Proof.
  unfold mergeCategories. rewrite elem_of_sort, elem_of_app, !list_elem_of_filter.
  unfold key. tauto.
Qed.

Lemma onCategoriesSnapshot_run (docs : list Category.t) (w : World) :
  let merged :=
    mergeCategories (PENDING_DELETES w) (PENDING_DELETE_NAMES w)
      (MOCK_CATEGORIES w) docs in
  onCategoriesSnapshot docs w =
  (Normal tt,
   set_deliveries (deliveries w ++ published "categories" (Categories merged) w)
     (set_MOCK_CATEGORIES merged w)).
Proof.
  intros merged. unfold onCategoriesSnapshot.
  mrun. now rewrite notifyListeners_run.
Qed.

(** A callback that receives a list of categories receives the published
    one, or the empty list behind an owner filter. *)
Lemma received_categories (cb : Listener) (merged l : list Category.t) :
  received cb (Categories merged) = Categories l -> l = merged \/ l = [].
Proof.
  destruct cb; cbn; intros H; injection H as <-; auto.
Qed.

Lemma published_categories (key : string) (merged l : list Category.t)
    (w : World) (d : Delivery) :
  d ∈ published key (Categories merged) w -> payload d = Categories l ->
  l = merged \/ l = [].
Proof.
  unfold published. destruct (listeners w !! key) as [ls|]; [|now intros ?%elem_of_nil].
  intros (cb & -> & _)%list_elem_of_fmap. cbn. apply received_categories.
Qed.

(** C1, tombstone precedence: while the id of a category is in the
    pending-delete id set and its trimmed, case-folded name in the
    pending-delete name set, no remote snapshot, whether it contains the
    category or not, puts it into [MOCK_CATEGORIES] or into a list delivered
    to a callback. *)
Theorem tombstone_precedence (r : Category.t) (snapshots : list (list Category.t))
    (w : World) :
  Category.id r ∈ PENDING_DELETES w ->
  key r ∈ PENDING_DELETE_NAMES w ->
  let w' := run db (map CategoriesSnapshot snapshots) w in
  (snapshots <> [] -> r ∉ MOCK_CATEGORIES w')
  /\ exists new, deliveries w' = deliveries w ++ new
                 /\ forall d l, d ∈ new -> payload d = Categories l -> r ∉ l.
Proof.
  intros Hid Hname.
  assert (Hgen : forall snaps v,
             Category.id r ∈ PENDING_DELETES v ->
             (r ∉ MOCK_CATEGORIES v \/ snaps <> []) ->
             (r ∉ MOCK_CATEGORIES (run db (map CategoriesSnapshot snaps) v))
             /\ exists new,
                 deliveries (run db (map CategoriesSnapshot snaps) v)
                 = deliveries v ++ new
                 /\ forall d l, d ∈ new -> payload d = Categories l -> r ∉ l).
  { induction snaps as [|docs snaps IH]; intros v Hv Hc.
    - destruct Hc as [Hc|Hc]; [|congruence]. split; [exact Hc|].
      exists []. split; [now rewrite app_nil_r|]. now intros d l ?%elem_of_nil.
    - cbn [map]. rewrite run_cons. unfold after. cbn [step].
      rewrite onCategoriesSnapshot_run. cbn [snd].
      set (merged := mergeCategories _ _ _ docs).
      assert (Hm : r ∉ merged).
      { intros [Hin _]%elem_of_mergeCategories. now apply Hin. }
      set (v1 := set_deliveries _ _).
      destruct (IH v1) as (Hcache & new & Hnew & Hall); [exact Hv|now left|].
      split; [exact Hcache|].
      exists (published "categories" (Categories merged) v ++ new).
      split; [rewrite Hnew; cbn; now rewrite app_assoc|].
      intros d l [Hd|Hd]%elem_of_app Hl; [|now apply (Hall d)].
      destruct (published_categories _ _ _ _ _ Hd Hl) as [-> | ->];
        [exact Hm|apply not_elem_of_nil]. }
  intros w'. subst w'.
  destruct snapshots as [|docs snaps].
  - split; [congruence|]. exists []. split; [now rewrite app_nil_r|].
    now intros d l ?%elem_of_nil.
  - destruct (Hgen (docs :: snaps) w Hid) as [Hc Hd]; [now right|].
    split; [intros _; exact Hc|exact Hd].
Qed.

Lemma snapshots_keep_tombstones (es : list Event) (w : World) :
  Forall (fun e => isSnapshot e = true) es ->
  PENDING_DELETES (run db es w) = PENDING_DELETES w
  /\ PENDING_DELETE_NAMES (run db es w) = PENDING_DELETE_NAMES w.
Proof.
  intros Hes.
  apply (preserves_run db
           (fun v => PENDING_DELETES v = PENDING_DELETES w
                     /\ PENDING_DELETE_NAMES v = PENDING_DELETE_NAMES w));
    [|now split].
  intros e He. apply snapshot_keeps_tombstones.
  rewrite Forall_forall in Hes. now apply Hes.
Qed.

Lemma addSystemCategory_cancels (name adminEmail : jsstring) (w : World) :
  toLowerCase (trim name)
  ∉ PENDING_DELETE_NAMES (after db (AddSystemCategory name adminEmail) w).
Proof.
  unfold after. cbn [step]. unfold addSystemCategory.
  rewrite bind_run. cbn [modify].
  match goal with
  | |- _ ∉ PENDING_DELETE_NAMES (snd (?m ?v)) =>
      assert (Hm : preserves
                     (fun u => toLowerCase (trim name) ∉ PENDING_DELETE_NAMES u) m)
        by (preserve; assumption);
      apply Hm
  end.
  destruct (decide (toLowerCase (trim name) ∈ PENDING_DELETE_NAMES w)) as [Hin|Hout];
    [|exact Hout].
  cbn. intros [_ Hne]%elem_of_difference. apply Hne. now apply elem_of_singleton.
Qed.

Lemma addSystemCategory_keeps_ids (name adminEmail : jsstring) (w : World) :
  PENDING_DELETES (after db (AddSystemCategory name adminEmail) w) = PENDING_DELETES w.
Proof.
  assert (Hm : preserves (fun u => PENDING_DELETES u = PENDING_DELETES w)
                 (step db (AddSystemCategory name adminEmail)))
    by (preserve; assumption).
  now apply Hm.
Qed.

(** C7, as the code has it: no snapshot removes a tombstone, whether it
    contains the deleted category or not; every snapshot callback leaves
    both pending-delete sets as they are.  What removes a name from the
    pending-delete name set is a create that reuses it. *)
Theorem tombstones_outlive_snapshots (es : list Event) (w : World)
    (name adminEmail : jsstring) :
  (Forall (fun e => isSnapshot e = true) es ->
   PENDING_DELETES (run db es w) = PENDING_DELETES w
   /\ PENDING_DELETE_NAMES (run db es w) = PENDING_DELETE_NAMES w)
  /\ (toLowerCase (trim name)
      ∉ PENDING_DELETE_NAMES (after db (AddSystemCategory name adminEmail) w)).
Proof.
  split; [apply snapshots_keep_tombstones|apply addSystemCategory_cancels].
Qed.

End Tombstones.

(** *** Channels and their listeners *)

Section Channels.
Context {R : Runtime} (db : bool).
Import JSString Db.

(** All records of [v] belong to owner [A]; a view of a collection without
    owners is empty behind an owner filter. *)
Definition ownedBy (A : jsstring) (v : View) : Prop :=
  match v with
  | CutOffs l => Forall (fun c => CutOff.userId c = A) l
  | Expenses l => Forall (fun e => Expense.userId e = A) l
  | Templates l => Forall (fun t => RecurringTemplate.userId t = A) l
  | Categories l => l = []
  | Logs l => l = []
  | Users l => l = []
  | Appeals l => l = []
  | Status _ => True
  end.

Lemma filterByUser_ownedBy (A : jsstring) (v : View) : ownedBy A (filterByUser A v).
Proof.
  destruct v; cbn; try reflexivity; try exact I;
    apply Forall_forall; intros x Hx; now apply list_elem_of_filter in Hx.
Qed.

(** Every recorded delivery was made by a call of a listener. *)
Definition deliveredByCall (w : World) : Prop :=
  Forall (fun d => exists data, payload d = received (via d) data) (deliveries w).

Lemma step_deliveredByCall (e : Event) : preserves deliveredByCall (step db e).
Proof.
  destruct e; preserve;
    match goal with
    | H : deliveredByCall _ |- _ =>
        first [ exact H
              | unfold deliveredByCall in *; cbn [deliveries set_deliveries];
                apply Forall_app; split; [exact H|];
                apply Forall_cons; split; [eexists; reflexivity|constructor] ]
    end.
Qed.

Definition isUserCallback (cb : Listener) : Prop :=
  match cb with
  | UserCallback _ _ _ => True
  | Callback _ => False
  end.

Definition scoped (key : string) : Prop :=
  key = "cutoffs"%string \/ key = "expenses"%string \/ key = "recurring"%string.

(** The listeners of the owner-scoped channels are [userCallback]
    closures. *)
Definition scopedListeners (w : World) : Prop :=
  forall key ls cb, scoped key -> listeners w !! key = Some ls -> cb ∈ ls ->
                    isUserCallback cb.

Lemma push_scopedListeners (key : string) (cb : Listener) :
  (scoped key -> isUserCallback cb) -> preserves scopedListeners (push key cb).
Proof.
  intros Hcb w Hw. unfold push. rewrite bind_run. cbn [gets].
  destruct (listeners w !! key) as [ls|] eqn:Hls; [|exact Hw].
  cbn. intros key' ls' cb' Hs. cbn.
  destruct (decide (key = key')) as [<-|Hne].
  - rewrite lookup_insert_eq. intros [= <-] [Hin|Hin%list_elem_of_singleton]%elem_of_app.
    + now apply (Hw key ls).
    + subst cb'. now apply Hcb.
  - rewrite lookup_insert_ne by exact Hne. now apply Hw.
Qed.

Lemma remove_scopedListeners (key : string) (cb : Listener) :
  preserves scopedListeners (remove key cb).
Proof.
  intros w Hw. unfold remove. rewrite bind_run. cbn [gets].
  destruct (listeners w !! key) as [ls|] eqn:Hls; [|exact Hw].
  cbn. intros key' ls' cb' Hs. cbn.
  destruct (decide (key = key')) as [<-|Hne].
  - rewrite lookup_insert_eq. intros [= <-] [_ Hin]%list_elem_of_filter.
    now apply (Hw key ls).
  - rewrite lookup_insert_ne by exact Hne. now apply Hw.
Qed.

Lemma step_scopedListeners (e : Event) : preserves scopedListeners (step db e).
Proof.
  destruct e; preserve_core;
    try match goal with
      | |- preserves _ (push _ _) =>
          apply push_scopedListeners; unfold scoped; cbn; intuition congruence
      | |- preserves _ (remove _ _) => apply remove_scopedListeners
      | H : scopedListeners _ |- _ => exact H
      end.
Qed.

Lemma initial_scopedListeners : scopedListeners initial.
Proof.
  intros key ls cb [-> | [-> | ->]]; cbn; intros [= <-]; now intros ?%elem_of_nil.
Qed.

(** C4, ownership isolation: in every run of the module, a callback
    subscribed with owner [A] (reached through the [userCallback] closure of
    [subscribeToCutoffs], [subscribeToExpenses] or [subscribeToTemplates])
    only ever receives records whose [userId] is [A], and the channels of
    the owner-scoped collections hold no other kind of listener. *)
Theorem ownership_isolation (es : list Event) :
  (forall d closure A callback,
      d ∈ deliveries (run db es initial) ->
      via d = UserCallback closure A callback ->
      ownedBy A (payload d))
  /\ (forall key ls cb,
        scoped key -> listeners (run db es initial) !! key = Some ls -> cb ∈ ls ->
        exists closure A callback, cb = UserCallback closure A callback).
Proof.
  split.
  - intros d closure A callback Hd Hvia.
    assert (H : deliveredByCall (run db es initial)).
    { apply preserves_run; [intros e _; apply step_deliveredByCall|constructor]. }
    unfold deliveredByCall in H. rewrite Forall_forall in H.
    destruct (H d Hd) as [data Hdata]. rewrite Hdata, Hvia. cbn.
    apply filterByUser_ownedBy.
  - intros key ls cb Hs Hls Hcb.
    assert (H : scopedListeners (run db es initial)).
    { apply preserves_run; [intros e _; apply step_scopedListeners
                           |apply initial_scopedListeners]. }
    specialize (H key ls cb Hs Hls Hcb). destruct cb; [contradiction|eauto].
Qed.

End Channels.

(** *** Subscriptions *)

Section Replay.
Context {R : Runtime} (db : bool).
Import JSString Db.

(** For a subscription event in state [w]: the channel subscribed to, the
    listener the call stores in [listeners] and the channel's current view,
    which is the content of the store the channel publishes. *)
Definition subscription (e : Event) (w : World) : option (string * Listener * View) :=
  match e with
  | SubscribeToAuditLogs f _ => Some ("logs"%string, Callback f, Logs (MOCK_LOGS w))
  | SubscribeToCategories f =>
      Some ("categories"%string, Callback f, Categories (MOCK_CATEGORIES w))
  | SubscribeToUsers f => Some ("admin_users"%string, Callback f, Users (MOCK_USERS w))
  | SubscribeToAppeals f =>
      Some ("admin_appeals"%string, Callback f, Appeals (MOCK_APPEALS w))
  | SubscribeToTemplates u f =>
      Some ("recurring"%string, UserCallback (closures w) u f,
            Templates (MOCK_TEMPLATES w))
  | SubscribeToCutoffs u f =>
      Some ("cutoffs"%string, UserCallback (closures w) u f, CutOffs (MOCK_CUTOFFS w))
  | SubscribeToExpenses u f =>
      Some ("expenses"%string, UserCallback (closures w) u f,
            Expenses (MOCK_EXPENSES w))
  | SubscribeToAllExpenses f =>
      Some ("admin_all_expenses"%string, Callback f, Expenses (MOCK_EXPENSES w))
  | SubscribeToAllCutoffs f =>
      Some ("admin_all_cutoffs"%string, Callback f, CutOffs (MOCK_CUTOFFS w))
  | _ => None
  end.

(** [cb] is among the listeners of channel [key]. *)
Definition listening (key : string) (cb : Listener) (w : World) : Prop :=
  exists ls, listeners w !! key = Some ls /\ cb ∈ ls.

Lemma push_run (key : string) (cb : Listener) (w : World) (ls : list Listener) :
  listeners w !! key = Some ls ->
  push key cb w = (Normal tt, set_listeners (<[key := ls ++ [cb]]> (listeners w)) w).
Proof. intros H. unfold push. rewrite bind_run. cbn [gets]. now rewrite H. Qed.

Lemma listen_run (key : string) (cb : Listener) (q : Query) (w : World) :
  exists s, listen db key cb q w
            = (Normal s, if db then set_remote (remote w ++ [OnSnapshot q]) w else w).
Proof. unfold listen. destruct db; eexists; reflexivity. Qed.

Definition channels : list string :=
  ["categories"; "cutoffs"; "expenses"; "logs"; "admin_all_expenses";
   "admin_all_cutoffs"; "admin_users"; "admin_appeals"; "recurring"]%string.

(** The nine channels of the module are never removed from [listeners]. *)
Definition hasChannels (w : World) : Prop :=
  forall key, key ∈ channels -> is_Some (listeners w !! key).

Lemma insert_hasChannels (key : string) (ls : list Listener) (w : World) :
  hasChannels w -> hasChannels (set_listeners (<[key := ls]> (listeners w)) w).
Proof.
  intros Hw key' Hk. cbn. destruct (decide (key = key')) as [<-|Hne].
  - rewrite lookup_insert_eq. eauto.
  - rewrite lookup_insert_ne by exact Hne. now apply Hw.
Qed.

Lemma step_hasChannels (e : Event) : preserves hasChannels (step db e).
Proof.
  destruct e; preserve;
    match goal with
    | H : hasChannels _ |- _ => first [exact H | now apply insert_hasChannels]
    end.
Qed.

Lemma initial_hasChannels : hasChannels initial.
Proof.
  intros key Hk. unfold channels in Hk.
  repeat (apply elem_of_cons in Hk as [-> | Hk]; [cbn; eauto|]).
  now apply elem_of_nil in Hk.
Qed.

Lemma subscription_channel (e : Event) (w : World) (key : string) (cb : Listener)
    (view : View) :
  subscription e w = Some (key, cb, view) -> key ∈ channels.
Proof.
  destruct e; cbn; intros [= <- <- <-]; unfold channels;
    repeat first [apply list_elem_of_here | apply list_elem_of_further].
Qed.

Lemma push_listening (key key' : string) (cb cb' : Listener) :
  preserves (listening key cb) (push key' cb').
Proof.
  intros w (ls & Hls & Hin). unfold push. rewrite bind_run. cbn [gets].
  destruct (listeners w !! key') as [ls'|] eqn:Hls'; [|now exists ls].
  cbn. unfold listening. cbn. destruct (decide (key' = key)) as [->|Hne].
  - rewrite lookup_insert_eq. eexists. split; [reflexivity|].
    apply elem_of_app. left. congruence.
  - rewrite lookup_insert_ne by exact Hne. now exists ls.
Qed.

Lemma remove_listening (key key' : string) (cb cb' : Listener) :
  cb' <> cb -> preserves (listening key cb) (remove key' cb').
Proof.
  intros Hcb w (ls & Hls & Hin). unfold remove. rewrite bind_run. cbn [gets].
  destruct (listeners w !! key') as [ls'|] eqn:Hls'; [|now exists ls].
  cbn. unfold listening. cbn. destruct (decide (key' = key)) as [->|Hne].
  - rewrite lookup_insert_eq. eexists. split; [reflexivity|].
    apply list_elem_of_filter. split; [congruence|]. congruence.
  - rewrite lookup_insert_ne by exact Hne. now exists ls.
Qed.

Lemma step_listening (key : string) (cb : Listener) (e : Event) :
  (forall s, e = CallUnsubscribe s -> sub_listener s <> cb) ->
  preserves (listening key cb) (step db e).
Proof.
  intros He. destruct e; preserve_core;
    match goal with
    | |- preserves _ (push _ _) => apply push_listening
    | |- preserves _ (remove _ _) => apply remove_listening; now apply He
    | H : listening _ _ _ |- _ => exact H
    end.
Qed.

Lemma published_listening (key : string) (cb : Listener) (data : View) (w : World) :
  listening key cb w ->
  exists pre post,
    published key data w = pre ++ mkDelivery R cb (received cb data) :: post.
Proof.
  intros (ls & Hls & Hin). unfold published. rewrite Hls.
  apply list_elem_of_split in Hin as (l1 & l2 & ->).
  eexists _, _. rewrite map_app. reflexivity.
Qed.

(** After a subscription the callback has been called with the channel's
    current view and the listener is in [listeners]. *)
Lemma subscription_run (e : Event) (w : World) (key : string) (cb : Listener)
    (view : View) :
  subscription e w = Some (key, cb, view) -> is_Some (listeners w !! key) ->
  (exists rest,
      deliveries (after db e w)
      = deliveries w ++ mkDelivery R cb (received cb view) :: rest)
  /\ listening key cb (after db e w).
Proof.
  intros Hsub [ls Hls]. unfold listening, after.
  destruct e; cbn in Hsub; try discriminate Hsub;
    injection Hsub as <- <- <-; cbn [step]; unfold discard;
    unfold subscribeToAuditLogs, subscribeToCategories, subscribeToUsers,
      subscribeToAppeals, subscribeToTemplates, subscribeToCutoffs,
      subscribeToExpenses, subscribeToAllExpenses, subscribeToAllCutoffs;
    mrun;
    (erewrite push_run by exact Hls); mrun;
    unfold listen; destruct db;
    try match goal with
      | |- context [match ?o with Some _ => _ | None => _ end] => destruct o
      end;
    mrun; cbn;
    (split;
     [ eexists; rewrite <- ?app_assoc; reflexivity
     | eexists; split;
       [ apply lookup_insert_eq
       | apply elem_of_app; right; apply list_elem_of_singleton; reflexivity ] ]).
Qed.

(** The last known view of the channel that [e] subscribes to, in the
    words of the specification: the current content of the channel's store,
    and on an owner-scoped channel the records of the owner in it. *)
Definition lastKnownView (e : Event) (w : World) : option View :=
  match e with
  | SubscribeToAuditLogs _ _ => Some (Logs (MOCK_LOGS w))
  | SubscribeToCategories _ => Some (Categories (MOCK_CATEGORIES w))
  | SubscribeToUsers _ => Some (Users (MOCK_USERS w))
  | SubscribeToAppeals _ => Some (Appeals (MOCK_APPEALS w))
  | SubscribeToTemplates u _ =>
      Some (Templates (filter (fun t => RecurringTemplate.userId t = u)
                         (MOCK_TEMPLATES w)))
  | SubscribeToCutoffs u _ =>
      Some (CutOffs (filter (fun c => CutOff.userId c = u) (MOCK_CUTOFFS w)))
  | SubscribeToExpenses u _ =>
      Some (Expenses (filter (fun x => Expense.userId x = u) (MOCK_EXPENSES w)))
  | SubscribeToAllExpenses _ => Some (Expenses (MOCK_EXPENSES w))
  | SubscribeToAllCutoffs _ => Some (CutOffs (MOCK_CUTOFFS w))
  | _ => None
  end.

(** What the observer behind a listener is to be handed of a published
    view: all of it, or, behind an owner's closure, the records of that
    owner in it (a record that has no owner is none of them). *)
Definition shareOf (cb : Listener) (data : View) : View :=
  match cb with
  | Callback _ => data
  | UserCallback _ u _ =>
      match data with
      | CutOffs l => CutOffs (filter (fun c => CutOff.userId c = u) l)
      | Expenses l => Expenses (filter (fun x => Expense.userId x = u) l)
      | Templates l => Templates (filter (fun t => RecurringTemplate.userId t = u) l)
      | Categories _ => Categories []
      | Logs _ => Logs []
      | Users _ => Users []
      | Appeals _ => Appeals []
      | Status b => Status b
      end
  end.

Lemma subscription_lastKnownView (e : Event) (w : World) (key : string)
    (cb : Listener) (view : View) :
  subscription e w = Some (key, cb, view) ->
  lastKnownView e w = Some (received cb view).
Proof. destruct e; cbn; intros [= <- <- <-]; reflexivity. Qed.

Lemma received_shareOf (cb : Listener) (data : View) :
  received cb data = shareOf cb data.
Proof. destruct cb, data; reflexivity. Qed.

(** C5, late-subscriber replay: whatever happened before, a subscription to
    any of the nine channels calls the callback during the call of the
    subscription, with the channel's last known view: the content of its
    store, and where the subscription has an owner the records of that
    owner in the store; and as long as its unsubscribe closure has not been
    called, every later call of [notifyListeners] on the channel hands it
    the published view, or the records of its owner in it. *)
Theorem late_subscriber_replay (before later : list Event) (e : Event)
    (key : string) (cb : Listener) (view data : View) :
  let w := run db before initial in
  let w1 := after db e w in
  let w2 := run db later w1 in
  subscription e w = Some (key, cb, view) ->
  (forall s, CallUnsubscribe s ∈ later -> sub_listener s <> cb) ->
  (exists seen rest,
      lastKnownView e w = Some seen
      /\ deliveries w1 = deliveries w ++ mkDelivery R cb seen :: rest)
  /\ (exists pre post,
        deliveries (snd (notifyListeners key data w2))
        = deliveries w2 ++ pre ++ mkDelivery R cb (shareOf cb data) :: post).
Proof.
  intros w w1 w2 Hsub Hlater.
  assert (Hw : hasChannels w).
  { apply preserves_run; [intros e' _; apply step_hasChannels|apply initial_hasChannels]. }
  destruct (subscription_run e w key cb view Hsub) as [[rest Hfirst] Hin].
  { apply Hw. eapply subscription_channel, Hsub. }
  split.
  { exists (received cb view), rest.
    split; [now apply (subscription_lastKnownView e w key)|exact Hfirst]. }
  assert (Hin2 : listening key cb w2).
  { apply preserves_run; [|exact Hin].
    intros e' He'. apply step_listening. intros s ->. now apply Hlater. }
  destruct (published_listening key cb data w2 Hin2) as (pre & post & Hpub).
  exists pre, post. rewrite notifyListeners_run. cbn.
  now rewrite Hpub, received_shareOf.
Qed.

End Replay.

(** *** Writes *)

Section Writes.
Context {R : Runtime}.
Import JSString Db.

(** The record [saveExpense] builds when there is no Firestore handle. *)
Definition newExpense (expense : Expense.t) (now : N) : Expense.t :=
  Expense.mk R (toString now) (Expense.cutOffId expense) (Expense.userId expense)
    (Expense.category expense) (Expense.date expense) (Expense.description expense)
    (Expense.encryptedAmount expense) (Expense.decryptedAmount expense).

(** The record [saveCutOff] builds when there is no Firestore handle. *)
Definition newCutOff (cutoff : CutOff.t) (now : N) : CutOff.t :=
  CutOff.mk R (toString now) (CutOff.userId cutoff) (CutOff.startDate cutoff)
    (CutOff.endDate cutoff) (CutOff.encryptedTotalIncome cutoff)
    (CutOff.encryptedTotalSavings cutoff) (CutOff.decryptedIncome cutoff)
    (CutOff.decryptedSavings cutoff).

(** The record [addSystemCategory] builds when there is no Firestore
    handle. *)
Definition newCategory (name : jsstring) (stamp created : N) : Category.t :=
  Category.mk (lit "temp_" ++ toString stamp) (trim name) false created.

(** [name] is not yet the name of a cached category, in the sense of the
    test of [addSystemCategory]. *)
Definition nameIsFree (name : jsstring) (w : World) : Prop :=
  ¬ Exists (fun c => toLowerCase (Category.name c) = toLowerCase (trim name))
      (MOCK_CATEGORIES w).

Lemma logSystemAction_run (db : bool) (actor action details : jsstring)
    (status : LogStatus) (w : World) :
  exists w', logSystemAction db actor action details status w = (Normal tt, w')
    /\ MOCK_CATEGORIES w' = MOCK_CATEGORIES w
    /\ MOCK_CUTOFFS w' = MOCK_CUTOFFS w
    /\ MOCK_EXPENSES w' = MOCK_EXPENSES w
    /\ (exists logs, deliveries w' = deliveries w ++ logs)
    /\ (db = false -> remote w' = remote w).
Proof.
  unfold logSystemAction. mrun. rewrite notifyListeners_run. mrun.
  destruct db; mrun; eexists; (split; [reflexivity|]); cbn;
    repeat split; eauto; discriminate.
Qed.

(** C6, as the code has it: without a Firestore handle, [saveExpense],
    [saveCutOff] and [addSystemCategory] (for a name that is free) put the
    new record into the store at once and publish the store to the
    listeners of the channel, and call Firestore for nothing; with a
    Firestore handle the call leaves the store and the callbacks alone and
    only issues the remote write.  Of the three, [addSystemCategory] alone
    waits for its write under [withTimeout]: a write that has not settled
    in time makes it throw the cloud error "TIMEOUT"; [saveExpense] and
    [saveCutOff] return at once, and a write of theirs that does not settle
    has no further effect and raises nothing. *)
Theorem optimistic_write_offline_only (w : World) :
  (forall expense userEmail,
      let now := clock (ticks w) in
      let w' := after false (SaveExpense expense userEmail) w in
      MOCK_EXPENSES w' = newExpense expense now :: MOCK_EXPENSES w
      /\ (exists logs,
             deliveries w'
             = deliveries w
               ++ published "expenses" (Expenses (MOCK_EXPENSES w')) w ++ logs)
      /\ remote w' = remote w)
  /\ (forall cutoff userEmail,
        let now := clock (ticks w) in
        let w' := after false (SaveCutOff cutoff userEmail) w in
        MOCK_CUTOFFS w' = newCutOff cutoff now :: MOCK_CUTOFFS w
        /\ (exists logs,
               deliveries w'
               = deliveries w
                 ++ published "cutoffs" (CutOffs (MOCK_CUTOFFS w')) w ++ logs)
        /\ remote w' = remote w)
  /\ (forall name adminEmail,
        nameIsFree name w ->
        let stamp := clock (ticks w) in
        let created := clock (S (ticks w)) in
        let w' := after false (AddSystemCategory name adminEmail) w in
        MOCK_CATEGORIES w' = MOCK_CATEGORIES w ++ [newCategory name stamp created]
        /\ (exists logs,
               deliveries w'
               = deliveries w
                 ++ published "categories" (Categories (MOCK_CATEGORIES w')) w ++ logs)
        /\ remote w' = remote w)
  /\ (forall expense userEmail,
        let w' := after true (SaveExpense expense userEmail) w in
        MOCK_EXPENSES w' = MOCK_EXPENSES w /\ deliveries w' = deliveries w
        /\ exists securePayload ts, remote w' = remote w ++ [AddExpense securePayload ts])
  /\ (forall cutoff userEmail,
        let w' := after true (SaveCutOff cutoff userEmail) w in
        MOCK_CUTOFFS w' = MOCK_CUTOFFS w /\ deliveries w' = deliveries w
        /\ exists securePayload ts, remote w' = remote w ++ [AddCutOff securePayload ts])
  /\ (forall name adminEmail,
        nameIsFree name w ->
        let w' := after true (AddSystemCategory name adminEmail) w in
        MOCK_CATEGORIES w' = MOCK_CATEGORIES w /\ deliveries w' = deliveries w
        /\ exists ts, remote w' = remote w ++ [AddCategory (trim name) false ts])
  /\ (forall name adminEmail,
        addSystemCategory_settled true name adminEmail Unsettled w
        = (Throw (Error (lit "Cloud Error: TIMEOUT")), w))
  /\ (forall expense userEmail,
        fst (step true (SaveExpense expense userEmail) w) = Normal tt
        /\ saveExpense_settled true expense userEmail Unsettled w = (Normal tt, w))
  /\ (forall cutoff userEmail,
        fst (step true (SaveCutOff cutoff userEmail) w) = Normal tt
        /\ saveCutOff_settled true cutoff userEmail Unsettled w = (Normal tt, w)).
Proof.
  split; [|split; [|split; [|split; [|split; [|split; [|split; [|split]]]]]]].
  - intros expense userEmail now w'. subst w'. unfold after. cbn [step].
    unfold saveExpense. cbn [negb]. mrun. rewrite notifyListeners_run. mrun.
    match goal with
    | |- context [logSystemAction ?b ?a1 ?a2 ?a3 ?a4 ?v] =>
        destruct (logSystemAction_run b a1 a2 a3 a4 v)
          as (w' & -> & _ & _ & Hexp & [logs Hdel] & Hrem)
    end.
    cbn [snd]. rewrite Hexp, Hdel, Hrem by reflexivity. cbn.
    split; [reflexivity|]. split; [|reflexivity].
    exists logs. now rewrite app_assoc.
  - intros cutoff userEmail now w'. subst w'. unfold after. cbn [step].
    unfold saveCutOff. cbn [negb]. mrun. rewrite notifyListeners_run. mrun.
    match goal with
    | |- context [logSystemAction ?b ?a1 ?a2 ?a3 ?a4 ?v] =>
        destruct (logSystemAction_run b a1 a2 a3 a4 v)
          as (w' & -> & _ & Hcut & _ & [logs Hdel] & Hrem)
    end.
    cbn [snd]. rewrite Hcut, Hdel, Hrem by reflexivity. cbn.
    split; [reflexivity|]. split; [|reflexivity].
    exists logs. now rewrite app_assoc.
  - intros name adminEmail Hfree stamp created w'. subst w'. unfold after. cbn [step].
    unfold addSystemCategory. cbn [negb]. mrun.
    assert (Hcats : forall v, MOCK_CATEGORIES
                (if decide (toLowerCase (trim name) ∈ PENDING_DELETE_NAMES w)
                 then set_PENDING_DELETE_NAMES v w else w) = MOCK_CATEGORIES w)
      by (intros v; now case_decide).
    rewrite Hcats. destruct (decide (Exists _ (MOCK_CATEGORIES w))) as [Hex|_];
      [contradiction|].
    mrun. rewrite notifyListeners_run. mrun.
    match goal with
    | |- context [logSystemAction ?b ?a1 ?a2 ?a3 ?a4 ?v] =>
        destruct (logSystemAction_run b a1 a2 a3 a4 v)
          as (w' & -> & Hcat & _ & _ & [logs Hdel] & Hrem)
    end.
    cbn [snd]. rewrite Hcat, Hdel, Hrem by reflexivity. cbn.
    case_decide; cbn; (split; [reflexivity|]); (split; [|reflexivity]);
      exists logs; now rewrite app_assoc.
  - intros expense userEmail w'. subst w'. cbn. eauto.
  - intros cutoff userEmail w'. subst w'. cbn. eauto.
  - intros name adminEmail Hfree w'. subst w'. unfold after. cbn [step].
    unfold addSystemCategory. cbn [negb]. mrun.
    assert (Hcats : forall v, MOCK_CATEGORIES
                (if decide (toLowerCase (trim name) ∈ PENDING_DELETE_NAMES w)
                 then set_PENDING_DELETE_NAMES v w else w) = MOCK_CATEGORIES w)
      by (intros v; now case_decide).
    rewrite Hcats. destruct (decide (Exists _ (MOCK_CATEGORIES w))) as [Hex|_];
      [contradiction|].
    mrun. case_decide; cbn; eauto.
  - reflexivity.
  - intros expense userEmail. split; reflexivity.
  - intros cutoff userEmail. split; reflexivity.
Qed.

End Writes.

(** *** [trim] *)

Section TrimFacts.
Import JSString.

Lemma trimStart_suffix (s : jsstring) : exists ws, s = ws ++ trimStart s.
Proof.
  induction s as [|c s [ws IH]]; [now exists []|].
  cbn [trimStart]. destruct (isWhiteSpace c).
  - exists (c :: ws). cbn. now f_equal.
  - now exists [].
Qed.

(** A string that does not begin with white space. *)
Definition clean (s : jsstring) : Prop :=
  match s with
  | [] => True
  | c :: _ => isWhiteSpace c = false
  end.

Lemma trimStart_clean (s : jsstring) : clean (trimStart s).
Proof.
  induction s as [|c s IH]; [exact I|].
  cbn [trimStart]. destruct (isWhiteSpace c) eqn:Hc; [exact IH|exact Hc].
Qed.

Lemma trimStart_id (s : jsstring) : clean s -> trimStart s = s.
Proof. destruct s as [|c s]; [reflexivity|]. cbn. now intros ->. Qed.

Lemma clean_prefix (s t : jsstring) : clean (s ++ t) -> clean s.
Proof. destruct s; [intros; exact I|exact id]. Qed.

Lemma trim_idempotent (s : jsstring) : trim (trim s) = trim s.
Proof.
  unfold trim, trimEnd.
  set (u := trimStart s).
  assert (Hu : clean u) by apply trimStart_clean.
  destruct (trimStart_suffix (rev u)) as [ws Hws].
  set (t := trimStart (rev u)) in *.
  assert (Hclean : clean (rev t)).
  { apply (clean_prefix _ (rev ws)). rewrite <- rev_app_distr, <- Hws.
    now rewrite rev_involutive. }
  rewrite (trimStart_id (rev t) Hclean), rev_involutive.
  now rewrite (trimStart_id t (trimStart_clean (rev u))).
Qed.

End TrimFacts.

(** *** Deleting a category and creating it again *)

Section Recreate.
Context {R : Runtime}.
Import JSString Db.

Lemma filter_none {A} (P : A -> Prop) `{forall x, Decision (P x)} (l : list A) :
  (forall y, y ∈ l -> ¬ P y) -> filter P l = [].
Proof.
  induction l as [|y l IH]; intros Hall; [reflexivity|].
  rewrite filter_cons. destruct (decide (P y)) as [Hy|_].
  - exfalso. apply (Hall y); [apply list_elem_of_here|exact Hy].
  - apply IH. intros z Hz. apply Hall. now apply list_elem_of_further.
Qed.

Lemma filter_only {A} (P : A -> Prop) `{forall x, Decision (P x)} (l : list A) (x : A) :
  NoDup l -> x ∈ l -> P x -> (forall y, y ∈ l -> P y -> y = x) -> filter P l = [x].
Proof.
  intros Hnd Hin Hx Hall.
  induction l as [|y l IH]; [now apply elem_of_nil in Hin|].
  apply NoDup_cons in Hnd as [Hy Hnd].
  rewrite filter_cons. destruct (decide (P y)) as [HPy|HPy].
  - assert (y = x) as -> by (apply Hall; [apply list_elem_of_here|exact HPy]).
    f_equal. apply filter_none. intros z Hz HPz.
    assert (z = x) as -> by (apply Hall; [now apply list_elem_of_further|exact HPz]).
    contradiction.
  - apply elem_of_cons in Hin as [->|Hin]; [contradiction|].
    apply IH; [exact Hnd|exact Hin|].
    intros z Hz. apply Hall. now apply list_elem_of_further.
Qed.

(** In a merge where the new record survives the tombstones and every other
    document of its key is tombstoned by id, the merged list has the new
    record as its only record of that key. *)
Lemma mergeCategories_one (dead deadNames : gset (list N))
    (cache docs : list Category.t) (new : Category.t) (oldId : jsstring) :
  let K := key new in
  toLowerCase (Category.name new) = K ->
  oldId ∈ dead -> Category.id new ∉ dead -> K ∉ deadNames ->
  NoDup docs -> new ∈ docs ->
  (forall c, c ∈ docs -> key c = K -> c = new \/ Category.id c = oldId) ->
  filter (fun c => key c = K) (mergeCategories dead deadNames cache docs) = [new].
Proof.
  intros K Hname Hold Hnew HK Hnd Hin Hdocs.
  apply Permutation_singleton_r. unfold mergeCategories.
  rewrite sort_perm, filter_app.
  set (alive := fun c : Category.t =>
                  ¬ Category.id c ∈ dead ∧ ¬ toLowerCase (trim (Category.name c)) ∈ deadNames).
  assert (Halive : new ∈ filter alive docs).
  { apply list_elem_of_filter. split; [|exact Hin]. split; [exact Hnew|exact HK]. }
  rewrite (filter_none _ (filter _ cache)).
  - rewrite app_nil_r, list_filter_filter.
    rewrite (filter_only _ docs new); [reflexivity|exact Hnd|exact Hin| |].
    + split; [reflexivity|]. split; [exact Hnew|exact HK].
    + intros c Hc [Hkey [Hid _]].
      destruct (Hdocs c Hc Hkey) as [->|Hc']; [reflexivity|].
      exfalso. apply Hid. now rewrite Hc'.
  - intros c [[Hcloud _] _]%list_elem_of_filter Hkey. apply Hcloud.
    apply elem_of_list_to_set, list_elem_of_fmap. exists new.
    split; [|exact Halive]. unfold key in Hkey. now rewrite Hkey, Hname.
Qed.

Lemma deleteSystemCategory_tombstones (id adminEmail : jsstring) (w : World)
    (target : Category.t) :
  List.find (fun c => bool_decide (Category.id c = id)) (MOCK_CATEGORIES w)
  = Some target ->
  startsWith id (lit "temp_") = false ->
  let w1 := after true (DeleteSystemCategory id adminEmail) w in
  PENDING_DELETES w1 = PENDING_DELETES w ∪ {[id]}
  /\ PENDING_DELETE_NAMES w1 = PENDING_DELETE_NAMES w ∪ {[key target]}
  /\ MOCK_CATEGORIES w1 = filter (fun c => Category.id c <> id) (MOCK_CATEGORIES w).
Proof.
  intros Hfind Htemp w1. subst w1. unfold after. cbn [step].
  unfold deleteSystemCategory. mrun. rewrite Hfind. mrun.
  rewrite notifyListeners_run. mrun. rewrite Htemp. mrun. cbn. auto.
Qed.

Lemma deleteSystemCategory_offline (id adminEmail : jsstring) (w : World)
    (target : Category.t) :
  List.find (fun c => bool_decide (Category.id c = id)) (MOCK_CATEGORIES w)
  = Some target ->
  let w1 := after false (DeleteSystemCategory id adminEmail) w in
  PENDING_DELETES w1 = PENDING_DELETES w ∪ {[id]}
  /\ PENDING_DELETE_NAMES w1 = PENDING_DELETE_NAMES w ∪ {[key target]}
  /\ MOCK_CATEGORIES w1 = filter (fun c => Category.id c <> id) (MOCK_CATEGORIES w)
  /\ ticks w1 = ticks w
  /\ remote w1 = remote w.
Proof.
  intros Hfind w1. subst w1. unfold after. cbn [step].
  unfold deleteSystemCategory. mrun. rewrite Hfind. mrun.
  rewrite notifyListeners_run. mrun. cbn. auto.
Qed.

Lemma addSystemCategory_offline (name adminEmail : jsstring) (w : World) :
  nameIsFree name w ->
  let w' := after false (AddSystemCategory name adminEmail) w in
  MOCK_CATEGORIES w'
  = MOCK_CATEGORIES w ++ [newCategory name (clock (ticks w)) (clock (S (ticks w)))]
  /\ remote w' = remote w.
Proof.
  intros Hfree w'. subst w'. unfold after. cbn [step].
  unfold addSystemCategory. cbn [negb]. mrun.
  assert (Hcats : forall v, MOCK_CATEGORIES
              (if decide (toLowerCase (trim name) ∈ PENDING_DELETE_NAMES w)
               then set_PENDING_DELETE_NAMES v w else w) = MOCK_CATEGORIES w)
    by (intros v; now case_decide).
  rewrite Hcats. destruct (decide (Exists _ (MOCK_CATEGORIES w))) as [Hex|_];
    [contradiction|].
  mrun. rewrite notifyListeners_run. mrun.
  match goal with
  | |- context [logSystemAction ?b ?a1 ?a2 ?a3 ?a4 ?v] =>
      destruct (logSystemAction_run b a1 a2 a3 a4 v)
        as (w' & -> & Hcat & _ & _ & _ & Hrem)
  end.
  cbn [snd]. rewrite Hcat, Hrem by reflexivity. cbn.
  case_decide; cbn; split; reflexivity.
Qed.

Lemma addSystemCategory_connected (name adminEmail : jsstring) (w : World) :
  nameIsFree name w ->
  exists ts,
    remote (after true (AddSystemCategory name adminEmail) w)
    = remote w ++ [AddCategory (trim name) false ts].
Proof.
  intros Hfree. unfold after. cbn [step].
  unfold addSystemCategory. cbn [negb]. mrun.
  assert (Hcats : forall v, MOCK_CATEGORIES
              (if decide (toLowerCase (trim name) ∈ PENDING_DELETE_NAMES w)
               then set_PENDING_DELETE_NAMES v w else w) = MOCK_CATEGORIES w)
    by (intros v; now case_decide).
  rewrite Hcats. destruct (decide (Exists _ (MOCK_CATEGORIES w))) as [Hex|_];
    [contradiction|].
  mrun. case_decide; cbn; eauto.
Qed.

Lemma addSystemCategory_keeps_store (name adminEmail : jsstring) (w : World) :
  MOCK_CATEGORIES (after true (AddSystemCategory name adminEmail) w)
  = MOCK_CATEGORIES w.
Proof.
  unfold after. cbn [step]. unfold addSystemCategory. cbn [negb]. mrun.
  assert (Hcats : forall v, MOCK_CATEGORIES
              (if decide (toLowerCase (trim name) ∈ PENDING_DELETE_NAMES w)
               then set_PENDING_DELETE_NAMES v w else w) = MOCK_CATEGORIES w)
    by (intros v; now case_decide).
  rewrite Hcats. destruct (decide (Exists _ (MOCK_CATEGORIES w))); mrun;
    [exact (Hcats _)|]. case_decide; reflexivity.
Qed.

(** The snapshots of the categories keep out of the store what a state
    keeps out of it by the id tombstones. *)
Lemma snapshots_keep_out (P : Category.t -> Prop) (snaps : list (list Category.t))
    (w : World) :
  (forall c, c ∈ MOCK_CATEGORIES w -> ¬ P c) ->
  (forall docs c, docs ∈ snaps -> c ∈ docs -> P c -> Category.id c ∈ PENDING_DELETES w) ->
  forall c, c ∈ MOCK_CATEGORIES (run true (map CategoriesSnapshot snaps) w) -> ¬ P c.
Proof.
  revert w. induction snaps as [|docs snaps IH]; intros w Hstore Hdocs; [exact Hstore|].
  cbn [map]. rewrite run_cons. apply IH.
  - unfold after. cbn [step]. rewrite onCategoriesSnapshot_run. cbn.
    intros c Hc HP. pose proof (elem_of_mergeCategories _ _ _ _ _ Hc) as [Hid _].
    revert Hc. unfold mergeCategories.
    rewrite elem_of_sort, elem_of_app, !list_elem_of_filter.
    intros [[_ Hc]|[_ Hc]].
    + apply Hid, (Hdocs docs c); [apply list_elem_of_here|exact Hc|exact HP].
    + now apply (Hstore c).
  - intros docs' c Hin Hc HP.
    destruct (snapshots_keep_tombstones true [CategoriesSnapshot docs] w) as [Hk _].
    { repeat constructor. }
    change (run true [CategoriesSnapshot docs] w)
      with (after true (CategoriesSnapshot docs) w) in Hk. rewrite Hk.
    apply (Hdocs docs' c); [now apply list_elem_of_further|exact Hc|exact HP].
Qed.

(** C2, create cancels tombstone, as the code has it.  A cached category is
    deleted and a category of the same natural key is created, no other
    cached category having that key.  Without a Firestore handle the store
    then holds exactly one category of the key, the new one.  With a handle
    (and a deleted id that is not a local [temp_] id) the delete tombstones
    id and name, the create cancels the name tombstone, leaves the store as
    it is and hands the new category to Firestore; in every later
    reconciliation the old category stays out; as long as the snapshots do
    not hold a new document of the key, the merged view has no category of
    the key at all; and once a snapshot holds the new document, the view
    has exactly that one. *)
Theorem create_cancels_tombstone (w : World) (old : Category.t)
    (name adminEmail adminEmail' : jsstring) :
  let oldId := Category.id old in
  let K := toLowerCase (trim name) in
  List.find (fun c => bool_decide (Category.id c = oldId)) (MOCK_CATEGORIES w)
  = Some old ->
  key old = K ->
  (forall c, c ∈ MOCK_CATEGORIES w -> Category.id c <> oldId ->
             key c <> K /\ toLowerCase (Category.name c) <> K) ->
  (let w1 := after false (DeleteSystemCategory oldId adminEmail) w in
   let w2 := after false (AddSystemCategory name adminEmail') w1 in
   (K ∉ PENDING_DELETE_NAMES w2)
   /\ filter (fun c => key c = K) (MOCK_CATEGORIES w2)
      = [newCategory name (clock (ticks w)) (clock (S (ticks w)))]
   /\ remote w2 = remote w)
  /\ (startsWith oldId (lit "temp_") = false ->
      let w1 := after true (DeleteSystemCategory oldId adminEmail) w in
      let w2 := after true (AddSystemCategory name adminEmail') w1 in
      let reconciled snaps := MOCK_CATEGORIES (run true (map CategoriesSnapshot snaps) w2) in
      (oldId ∈ PENDING_DELETES w1 /\ K ∈ PENDING_DELETE_NAMES w1)
      /\ (oldId ∈ PENDING_DELETES w2 /\ (K ∉ PENDING_DELETE_NAMES w2))
      /\ MOCK_CATEGORIES w2 = MOCK_CATEGORIES w1
      /\ (exists ts, remote w2 = remote w1 ++ [AddCategory (trim name) false ts])
      /\ (forall snaps c, c ∈ reconciled snaps -> Category.id c <> oldId)
      /\ (forall snaps,
            (forall docs c, docs ∈ snaps -> c ∈ docs -> key c = K ->
                            Category.id c = oldId) ->
            filter (fun c => key c = K) (reconciled snaps) = [])
      /\ (forall snaps docs newId createdAt,
            let new := Category.mk newId (trim name) false createdAt in
            newId ∉ PENDING_DELETES w -> newId <> oldId ->
            NoDup docs -> new ∈ docs ->
            (forall c, c ∈ docs -> key c = K -> c = new \/ Category.id c = oldId) ->
            filter (fun c => key c = K) (reconciled (snaps ++ [docs])) = [new])).
Proof.
  intros oldId K Hfind Hkey Hothers.
  assert (Hrest : forall c, c ∈ filter (fun c => Category.id c <> oldId) (MOCK_CATEGORIES w) ->
                            key c <> K /\ toLowerCase (Category.name c) <> K).
  { intros c [Hid Hc]%list_elem_of_filter. now apply Hothers. }
  split.
  - intros w1 w2.
    destruct (deleteSystemCategory_offline oldId adminEmail w old Hfind)
      as (_ & _ & Hstore & Hticks & Hremote).
    fold w1 in Hstore, Hticks, Hremote.
    assert (Hfree : nameIsFree name w1).
    { unfold nameIsFree. rewrite Hstore. intros Hex.
      apply list.Exists_exists in Hex as (c & Hc & Hname).
      now apply (Hrest c Hc). }
    destruct (addSystemCategory_offline name adminEmail' w1 Hfree) as [Hadd Hrem].
    fold w2 in Hadd, Hrem.
    split; [apply addSystemCategory_cancels|].
    split; [|now rewrite Hrem].
    rewrite Hadd, Hstore, Hticks, filter_app, (filter_none _ (filter _ _)).
    + rewrite filter_cons, filter_nil.
      destruct (decide _) as [_|Hn]; [reflexivity|].
      exfalso. apply Hn. unfold key, newCategory. cbn [Category.name].
      now rewrite trim_idempotent.
    + intros c Hc. now apply (Hrest c Hc).
  - intros Htemp w1 w2 reconciled.
    destruct (deleteSystemCategory_tombstones oldId adminEmail w old Hfind Htemp)
      as (Hdead & Hnames & Hstore).
    fold w1 in Hdead, Hnames, Hstore.
    assert (Hcancel : K ∉ PENDING_DELETE_NAMES w2)
      by apply addSystemCategory_cancels.
    assert (Hdead2 : PENDING_DELETES w2 = PENDING_DELETES w ∪ {[oldId]}).
    { unfold w2. now rewrite addSystemCategory_keeps_ids. }
    assert (Hold2 : oldId ∈ PENDING_DELETES w2).
    { rewrite Hdead2. apply elem_of_union. right. now apply elem_of_singleton. }
    assert (Hstore2 : MOCK_CATEGORIES w2 = MOCK_CATEGORIES w1)
      by apply addSystemCategory_keeps_store.
    assert (Hfree : nameIsFree name w1).
    { unfold nameIsFree. rewrite Hstore. intros Hex.
      apply list.Exists_exists in Hex as (c & Hc & Hname).
      now apply (Hrest c Hc). }
    split; [|split; [|split; [|split; [|split; [|split]]]]].
    + rewrite Hdead, Hnames, Hkey. split; apply elem_of_union; right;
        now apply elem_of_singleton.
    + split; [exact Hold2|exact Hcancel].
    + exact Hstore2.
    + now apply addSystemCategory_connected.
    + intros snaps c Hc Hid.
      apply (snapshots_keep_out (fun c => Category.id c = oldId) snaps w2) in Hc;
        [now apply Hc| |].
      * rewrite Hstore2, Hstore. now intros c' [Hne _]%list_elem_of_filter.
      * intros docs c' _ _ ->. exact Hold2.
    + intros snaps Hsnaps. apply filter_none.
      apply (snapshots_keep_out (fun c => key c = K) snaps w2).
      * rewrite Hstore2, Hstore. intros c Hc. now apply (Hrest c Hc).
      * intros docs c Hdocs Hc Hk. rewrite (Hsnaps docs c Hdocs Hc Hk). exact Hold2.
    + intros snaps docs newId createdAt new Hfresh Hne Hnd Hin Hdocs.
      unfold reconciled. rewrite map_app, run_app.
      set (u := run true (map CategoriesSnapshot snaps) w2).
      destruct (snapshots_keep_tombstones true (map CategoriesSnapshot snaps) w2)
        as [Hu1 Hu2].
      { apply Forall_forall. now intros e (l & -> & _)%list_elem_of_fmap. }
      fold u in Hu1, Hu2.
      cbn [map]. rewrite run_cons. cbn [run fold_left]. unfold after. cbn [step].
      rewrite onCategoriesSnapshot_run. cbn [snd]. cbn.
      rewrite Hu1, Hu2, Hdead2.
      assert (HK : key new = K).
      { unfold key, new. cbn [Category.name]. now rewrite trim_idempotent. }
      rewrite <- HK.
      apply (mergeCategories_one _ _ _ _ new oldId); try assumption.
      * now rewrite HK.
      * apply elem_of_union. right. now apply elem_of_singleton.
      * cbn. intros [Hd|Hd%elem_of_singleton]%elem_of_union; contradiction.
      * now rewrite HK.
      * intros c Hc Hck. apply Hdocs; [exact Hc|]. now rewrite <- HK.
Qed.

End Recreate.

(** *** Decoding the documents of a snapshot *)

Section Decoding.
Context {R : Runtime} (db : bool).
Import JSString Db Security.

Lemma mapM__run {A B} (f : A -> M B) (g : A -> B) (l : list A) (w : World) :
  (forall x v, f x v = (Normal (g x), v)) -> mapM_ f l w = (Normal (map g l), w).
Proof.
  intros Hf. induction l as [|x l IH]; [reflexivity|].
  cbn [mapM_ map]. unfold bind at 1. rewrite Hf.
  unfold bind at 1. now rewrite IH.
Qed.

Lemma mapM__map {A A' B} (h : A -> A') (f : A' -> M B) (g : A -> B) (l : list A)
    (w : World) :
  (forall x v, f (h x) v = (Normal (g x), v)) ->
  mapM_ f (map h l) w = (Normal (map g l), w).
Proof.
  intros Hf. induction l as [|x l IH]; [reflexivity|].
  cbn [mapM_ map]. unfold bind at 1. rewrite Hf.
  unfold bind at 1. now rewrite IH.
Qed.

Lemma filter_map_same {A B} (h : A -> B) (P : B -> Prop) (Q : A -> Prop)
    `{forall y, Decision (P y)} `{forall x, Decision (Q x)} (l : list A) :
  (forall x, P (h x) <-> Q x) -> filter P (map h l) = map h (filter Q l).
Proof.
  intros HPQ. induction l as [|x l IH]; [reflexivity|].
  cbn [map]. rewrite !filter_cons, IH.
  destruct (decide (P (h x))) as [Hp|Hp], (decide (Q x)) as [Hq|Hq];
    try reflexivity; exfalso; apply HPQ in Hp || apply Hp, HPQ; tauto.
Qed.

(** The records the document mappings make of documents that conform to
    the interface. *)
Definition decodedCutOff (doc : CutOff.t) : CutOff.t :=
  withIncome (CutOffDoc.conforming doc)
    (Some (parseFloat (plaintext (CutOff.encryptedTotalIncome doc))))
    (Some (parseFloat (plaintext (CutOff.encryptedTotalSavings doc)))).

Definition decodedCutOffIncome (doc : CutOff.t) : CutOff.t :=
  withIncome (CutOffDoc.conforming doc)
    (Some (parseFloat (plaintext (CutOff.encryptedTotalIncome doc))))
    (CutOff.decryptedSavings doc).

Definition decodedExpense (doc : Expense.t) : Expense.t :=
  Expense.mk R (Expense.id doc) (Expense.cutOffId doc) (Expense.userId doc)
    (Expense.category doc) (Expense.date doc) (Expense.description doc)
    (Expense.encryptedAmount doc)
    (Some (parseFloat (plaintext (Expense.encryptedAmount doc)))).

Definition decodedTemplate (doc : RecurringTemplate.t) : RecurringTemplate.t :=
  RecurringTemplate.mk R (RecurringTemplate.id doc) (RecurringTemplate.userId doc)
    (RecurringTemplate.category doc) (RecurringTemplate.description doc)
    (RecurringTemplate.encryptedAmount doc)
    (Some (parseFloat (plaintext (RecurringTemplate.encryptedAmount doc)))).

Lemma decodeCutOff_run (doc : CutOff.t) (w : World) :
  decodeCutOff (CutOffDoc.conforming doc) w = (Normal (decodedCutOff doc), w).
Proof.
  unfold decodeCutOff. mrun. cbn [CutOffDoc.conforming CutOffDoc.encryptedTotalIncome
    CutOffDoc.encryptedTotalSavings decryptValue].
  rewrite decryptData_returns. mrun. now rewrite decryptData_returns.
Qed.

Lemma decodeCutOffIncome_run (doc : CutOff.t) (w : World) :
  decodeCutOffIncome (CutOffDoc.conforming doc) w
  = (Normal (decodedCutOffIncome doc), w).
Proof.
  unfold decodeCutOffIncome. mrun.
  cbn [CutOffDoc.conforming CutOffDoc.encryptedTotalIncome decryptValue].
  now rewrite decryptData_returns.
Qed.

Lemma decodeExpense_run (doc : Expense.t) (w : World) :
  decodeExpense (ExpenseDoc.conforming doc) w = (Normal (decodedExpense doc), w).
Proof.
  unfold decodeExpense. mrun.
  cbn [ExpenseDoc.conforming ExpenseDoc.encryptedAmount decryptValue].
  now rewrite decryptData_returns.
Qed.

Lemma decodeTemplate_run (doc : RecurringTemplate.t) (w : World) :
  decodeTemplate (TemplateDoc.conforming doc) w = (Normal (decodedTemplate doc), w).
Proof.
  unfold decodeTemplate. mrun.
  cbn [TemplateDoc.conforming TemplateDoc.encryptedAmount decryptValue].
  now rewrite decryptData_returns.
Qed.

Lemma onCutoffsSnapshot_run (userId : jsstring) (collection : list CutOff.t)
    (w : World) :
  let docs := filter (fun d => CutOff.userId d = userId) collection in
  let merged := mergeCutoffs userId (MOCK_CUTOFFS w) (map decodedCutOff docs) in
  onCutoffsSnapshot userId (map CutOffDoc.conforming collection) w =
  (Normal tt,
   set_deliveries (deliveries w ++ published "cutoffs" (CutOffs merged) w)
     (set_MOCK_CUTOFFS merged w)).
Proof.
  intros docs merged. unfold onCutoffsSnapshot. mrun.
  rewrite (filter_map_same _ _ (fun d => CutOff.userId d = userId)) by reflexivity.
  rewrite (mapM__map _ _ decodedCutOff) by apply decodeCutOff_run.
  mrun. now rewrite notifyListeners_run.
Qed.

Lemma onExpensesSnapshot_run (userId : jsstring) (collection : list Expense.t)
    (w : World) :
  let docs := filter (fun d => Expense.userId d = userId) collection in
  let merged := mergeExpenses userId (MOCK_EXPENSES w) (map decodedExpense docs) in
  onExpensesSnapshot userId (map ExpenseDoc.conforming collection) w =
  (Normal tt,
   set_deliveries (deliveries w ++ published "expenses" (Expenses merged) w)
     (set_MOCK_EXPENSES merged w)).
Proof.
  intros docs merged. unfold onExpensesSnapshot. mrun.
  rewrite (filter_map_same _ _ (fun d => Expense.userId d = userId)) by reflexivity.
  rewrite (mapM__map _ _ decodedExpense) by apply decodeExpense_run.
  mrun. now rewrite notifyListeners_run.
Qed.

Lemma onTemplatesSnapshot_conforming (userId : jsstring)
    (collection : list RecurringTemplate.t) (w : World) :
  let docs := filter (fun d => RecurringTemplate.userId d = userId) collection in
  let templates := map decodedTemplate docs in
  let cloudIds : gset (list N) := list_to_set (map RecurringTemplate.id templates) in
  let optimistic :=
    filter (fun t => RecurringTemplate.userId t = userId
                     ∧ (RecurringTemplate.id t ∉ cloudIds)) (MOCK_TEMPLATES w) in
  let others := filter (fun t => RecurringTemplate.userId t <> userId) (MOCK_TEMPLATES w) in
  let merged := others ++ templates ++ optimistic in
  onTemplatesSnapshot userId (map TemplateDoc.conforming collection) w =
  (Normal tt,
   set_deliveries (deliveries w ++ published "recurring" (Templates merged) w)
     (set_MOCK_TEMPLATES merged w)).
Proof.
  cbn zeta. unfold onTemplatesSnapshot. mrun.
  rewrite (filter_map_same _ _ (fun d => RecurringTemplate.userId d = userId))
    by reflexivity.
  rewrite (mapM__map _ _ decodedTemplate) by apply decodeTemplate_run.
  mrun. now rewrite notifyListeners_run.
Qed.

Lemma onAllCutoffsSnapshot_run (collection : list CutOff.t) (w : World) :
  let cloudData := map decodedCutOffIncome (take 500 collection) in
  let others :=
    filter (fun c => ¬ Exists (fun d => CutOff.id d = CutOff.id c) cloudData)
      (MOCK_CUTOFFS w) in
  onAllCutoffsSnapshot (map CutOffDoc.conforming collection) w =
  (Normal tt,
   set_deliveries
     (deliveries w ++ published "admin_all_cutoffs" (CutOffs (others ++ cloudData)) w)
     (set_MOCK_CUTOFFS (others ++ cloudData) w)).
Proof.
  intros cloudData others. unfold onAllCutoffsSnapshot. mrun.
  rewrite <- fmap_take.
  rewrite (mapM__map _ _ decodedCutOffIncome) by apply decodeCutOffIncome_run.
  mrun. now rewrite notifyListeners_run.
Qed.

Lemma onAllExpensesSnapshot_run (collection : list Expense.t) (w : World) :
  let cloudData := map decodedExpense (take 500 collection) in
  let others :=
    filter (fun e => ¬ Exists (fun c => Expense.id c = Expense.id e) cloudData)
      (MOCK_EXPENSES w) in
  onAllExpensesSnapshot (map ExpenseDoc.conforming collection) w =
  (Normal tt,
   set_deliveries
     (deliveries w ++ published "admin_all_expenses" (Expenses (others ++ cloudData)) w)
     (set_MOCK_EXPENSES (others ++ cloudData) w)).
Proof.
  intros cloudData others. unfold onAllExpensesSnapshot. mrun.
  rewrite <- fmap_take.
  rewrite (mapM__map _ _ decodedExpense) by apply decodeExpense_run.
  mrun. now rewrite notifyListeners_run.
Qed.

(** A snapshot callback that is handed documents that conform to the
    interface returns. *)
Lemma snapshot_returns (e : Event) (w : World) :
  isSnapshot e = true -> fst (step db e w) = Normal tt.
Proof.
  intros He. destruct e; try discriminate He; cbn [step].
  - now rewrite onCategoriesSnapshot_run.
  - now rewrite onTemplatesSnapshot_conforming.
  - now rewrite onCutoffsSnapshot_run.
  - now rewrite onExpensesSnapshot_run.
  - now rewrite onAllExpensesSnapshot_run.
  - now rewrite onAllCutoffsSnapshot_run.
Qed.

(** The fields that the mapping of the cut-offs decodes hold strings. *)
Definition decodable (doc : CutOffDoc.t) : Prop :=
  is_Some (CutOffDoc.encryptedTotalIncome doc)
  /\ is_Some (CutOffDoc.encryptedTotalSavings doc).

Global Instance decodable_dec (doc : CutOffDoc.t) : Decision (decodable doc).
Proof. unfold decodable. apply _. Defined.

(** The record that the mapping of the cut-offs makes of a document whose
    fields hold strings: each amount is [parseFloat] of what [decryptData]
    returns for the field. *)
Definition decodedDoc (doc : CutOffDoc.t) : CutOff.t :=
  withIncome doc
    (Some (parseFloat (plaintext (copied (CutOffDoc.encryptedTotalIncome doc)))))
    (Some (parseFloat (plaintext (copied (CutOffDoc.encryptedTotalSavings doc))))).

Lemma decodeCutOff_decodable (doc : CutOffDoc.t) (w : World) :
  decodable doc -> decodeCutOff doc w = (Normal (decodedDoc doc), w).
Proof.
  intros [[i Hi] [s Hs]]. unfold decodeCutOff, decodedDoc. mrun.
  rewrite Hi, Hs. cbn [decryptValue copied default].
  rewrite decryptData_returns. mrun. now rewrite decryptData_returns.
Qed.

Lemma decodeCutOff_throws (doc : CutOffDoc.t) (w : World) :
  ¬ decodable doc -> decodeCutOff doc w = (Throw TypeError, w).
Proof.
  intros Hd. unfold decodeCutOff. mrun.
  destruct (CutOffDoc.encryptedTotalIncome doc) as [i|] eqn:Hi; [|reflexivity].
  cbn [decryptValue]. rewrite decryptData_returns. mrun.
  destruct (CutOffDoc.encryptedTotalSavings doc) as [s|] eqn:Hs; [|reflexivity].
  exfalso. apply Hd. unfold decodable. rewrite Hi, Hs. eauto.
Qed.

Lemma decodeCutOff_all (docs : list CutOffDoc.t) (w : World) :
  Forall decodable docs ->
  mapM_ decodeCutOff docs w = (Normal (map decodedDoc docs), w).
Proof.
  induction 1 as [|doc docs Hdoc _ IH]; [reflexivity|].
  cbn [mapM_ map]. unfold bind at 1. rewrite decodeCutOff_decodable by exact Hdoc.
  unfold bind at 1. now rewrite IH.
Qed.

Lemma decodeCutOff_aborts (docs : list CutOffDoc.t) (w : World) :
  Exists (fun doc => ¬ decodable doc) docs ->
  mapM_ decodeCutOff docs w = (Throw TypeError, w).
Proof.
  induction docs as [|doc docs IH]; intros Hex; [inversion Hex|].
  cbn [mapM_]. unfold bind at 1.
  destruct (decide (decodable doc)) as [Hd|Hd].
  - rewrite decodeCutOff_decodable by exact Hd. unfold bind at 1.
    rewrite IH; [reflexivity|]. inversion Hex; [contradiction|assumption].
  - now rewrite decodeCutOff_throws.
Qed.

(** C8, decode tolerance, and where it ends.  [decryptData] returns for
    every string and never throws; it returns "0" when the prefix is missing
    and when [atob] rejects the payload.  A snapshot of cut-offs in which
    the encrypted fields of the owner's documents hold strings is processed
    to its end: every document is decoded on its own, one whose amount does
    not decode getting [parseFloat("0")], and all of them are stored and
    published.  But a document of the owner in which one of the two fields
    is missing makes the callback throw a [TypeError],
    with nothing stored and nothing published: the call of [startsWith]
    stands before the [try] of [decryptData]. *)
Theorem decode_tolerance :
  (forall s, exists v, decryptData s = Normal v)
  /\ (forall s, startsWith s (lit "ENC_") = false -> decryptData s = Normal (lit "0"))
  /\ (forall payload err,
        Base64.atob payload = Throw err ->
        decryptData (lit "ENC_" ++ payload) = Normal (lit "0"))
  /\ (forall userId collection w,
        let docs := filter (fun d => CutOffDoc.userId d = userId) collection in
        let merged := mergeCutoffs userId (MOCK_CUTOFFS w) (map decodedDoc docs) in
        Forall decodable docs ->
        onCutoffsSnapshot userId collection w
        = (Normal tt,
           set_deliveries (deliveries w ++ published "cutoffs" (CutOffs merged) w)
             (set_MOCK_CUTOFFS merged w))
        /\ (forall doc, doc ∈ docs -> decodedDoc doc ∈ merged)
        /\ (forall doc s, doc ∈ docs ->
              CutOffDoc.encryptedTotalIncome doc = Some s ->
              decryptData s = Normal (lit "0") ->
              CutOff.decryptedIncome (decodedDoc doc) = Some (parseFloat (lit "0"))))
  /\ (forall userId collection w doc,
        doc ∈ collection -> CutOffDoc.userId doc = userId -> ¬ decodable doc ->
        onCutoffsSnapshot userId collection w = (Throw TypeError, w)).
Proof.
  split; [intros s; eexists; apply decryptData_returns|].
  split; [apply decryptData_no_prefix|].
  split; [apply decryptData_malformed|].
  split.
  - intros userId collection w docs merged Hdocs. split; [|split].
    + unfold onCutoffsSnapshot. mrun. fold docs.
      rewrite decodeCutOff_all by exact Hdocs. mrun.
      now rewrite notifyListeners_run.
    + intros doc Hdoc. unfold merged, mergeCutoffs.
      apply elem_of_app. right. apply elem_of_app. left.
      apply elem_of_sort. now apply list_elem_of_fmap_2.
    + intros doc s _ Hs Hzero. unfold decodedDoc, withIncome.
      cbn [CutOff.decryptedIncome]. rewrite Hs. unfold copied, plaintext.
      cbn [default from_option id]. now rewrite Hzero.
  - intros userId collection w doc Hin Hu Hd. unfold onCutoffsSnapshot. mrun.
    rewrite decodeCutOff_aborts; [reflexivity|].
    apply list.Exists_exists. exists doc. split; [|exact Hd].
    apply list_elem_of_filter. now split.
Qed.

End Decoding.

(** *** Applying a merge twice *)

Section Idempotence.
Context {R : Runtime} (db : bool).
Import JSString Db.

Lemma filter_idem {A} (P : A -> Prop) `{forall x, Decision (P x)} (l : list A) :
  filter P (filter P l) = filter P l.
Proof.
  induction l as [|x l IH]; [reflexivity|].
  rewrite filter_cons. destruct (decide (P x)) as [Hx|Hx]; [|exact IH].
  rewrite filter_cons. destruct (decide (P x)); [|contradiction]. now rewrite IH.
Qed.

(** The merge of the cut-offs, applied to the store it has produced with the
    same documents, produces the same store again, provided the documents
    are those of the owner, as the query of the subscription selects
    them. *)
Lemma mergeCutoffs_idempotent (userId : jsstring) (cache decoded : list CutOff.t) :
  Forall (fun c => CutOff.userId c = userId) decoded ->
  mergeCutoffs userId (mergeCutoffs userId cache decoded) decoded
  = mergeCutoffs userId cache decoded.
Proof.
  intros Hown. unfold mergeCutoffs.
  set (cloudData := sort _ decoded).
  set (cloudIds := list_to_set (map CutOff.id cloudData) : gset (list N)).
  set (mine := fun c : CutOff.t => CutOff.userId c = userId ∧ (CutOff.id c ∉ cloudIds)).
  set (foreign := fun c : CutOff.t => CutOff.userId c <> userId).
  assert (Hcloud : forall c, c ∈ cloudData -> CutOff.userId c = userId).
  { intros c Hc. apply elem_of_sort in Hc. rewrite Forall_forall in Hown. now apply Hown. }
  rewrite !filter_app, !filter_idem.
  rewrite (filter_none mine (filter foreign cache)),
          (filter_none mine cloudData),
          (filter_none foreign cloudData),
          (filter_none foreign (filter mine cache)).
  - now rewrite !app_nil_r.
  - intros c [[Hc _] _]%list_elem_of_filter Hf. now apply Hf.
  - intros c Hc Hf. now apply Hf, Hcloud.
  - intros c Hc [_ Hid]. apply Hid.
    apply elem_of_list_to_set, list_elem_of_fmap. now exists c.
  - intros c [Hf _]%list_elem_of_filter [Hc _]. now apply Hf.
Qed.

Lemma mergeExpenses_idempotent (userId : jsstring) (cache decoded : list Expense.t) :
  Forall (fun c => Expense.userId c = userId) decoded ->
  mergeExpenses userId (mergeExpenses userId cache decoded) decoded
  = mergeExpenses userId cache decoded.
Proof.
  intros Hown. unfold mergeExpenses.
  set (cloudData := sort _ decoded).
  set (cloudIds := list_to_set (map Expense.id cloudData) : gset (list N)).
  set (mine := fun c : Expense.t => Expense.userId c = userId ∧ (Expense.id c ∉ cloudIds)).
  set (foreign := fun c : Expense.t => Expense.userId c <> userId).
  assert (Hcloud : forall c, c ∈ cloudData -> Expense.userId c = userId).
  { intros c Hc. apply elem_of_sort in Hc. rewrite Forall_forall in Hown. now apply Hown. }
  rewrite !filter_app, !filter_idem.
  rewrite (filter_none mine (filter foreign cache)),
          (filter_none mine cloudData),
          (filter_none foreign cloudData),
          (filter_none foreign (filter mine cache)).
  - now rewrite !app_nil_r.
  - intros c [[Hc _] _]%list_elem_of_filter Hf. now apply Hf.
  - intros c Hc Hf. now apply Hf, Hcloud.
  - intros c Hc [_ Hid]. apply Hid.
    apply elem_of_list_to_set, list_elem_of_fmap. now exists c.
  - intros c [Hf _]%list_elem_of_filter [Hc _]. now apply Hf.
Qed.

(** X26: the snapshot callback of the cut-offs stores the same list when
    it is called a second time with the same collection. *)
Lemma cutoffs_snapshot_idempotent (userId : jsstring) (collection : list CutOff.t)
    (w : World) :
  let w1 := after db (CutoffsSnapshot userId collection) w in
  MOCK_CUTOFFS (after db (CutoffsSnapshot userId collection) w1) = MOCK_CUTOFFS w1.
Proof.
  intros w1. subst w1. unfold after. cbn [step].
  rewrite !onCutoffsSnapshot_run. cbn.
  apply mergeCutoffs_idempotent.
  apply Forall_forall. intros c (d & -> & Hd)%list_elem_of_fmap.
  now apply list_elem_of_filter in Hd as [Hd _].
Qed.

(** X27: the snapshot callback of the expenses stores the same list when
    it is called a second time with the same collection. *)
Lemma expenses_snapshot_idempotent (userId : jsstring) (collection : list Expense.t)
    (w : World) :
  let w1 := after db (ExpensesSnapshot userId collection) w in
  MOCK_EXPENSES (after db (ExpensesSnapshot userId collection) w1) = MOCK_EXPENSES w1.
Proof.
  intros w1. subst w1. unfold after. cbn [step].
  rewrite !onExpensesSnapshot_run. cbn.
  apply mergeExpenses_idempotent.
  apply Forall_forall. intros c (d & -> & Hd)%list_elem_of_fmap.
  now apply list_elem_of_filter in Hd as [Hd _].
Qed.

End Idempotence.

(** *** The merge of the categories, applied twice *)

Section FilterAll.
Context {A : Type}.

Lemma filter_all (P : A -> Prop) `{forall x, Decision (P x)} (l : list A) :
  (forall x, x ∈ l -> P x) -> filter P l = l.
Proof.
  induction l as [|x l IH]; intros Hall; [reflexivity|].
  rewrite filter_cons. destruct (decide (P x)) as [_|Hx].
  - f_equal. apply IH. intros y Hy. apply Hall. now apply list_elem_of_further.
  - exfalso. apply Hx, Hall, list_elem_of_here.
Qed.
End FilterAll.

Section SortTwice.
Context {A : Type} (cmp : A -> A -> Z).

(** The comparator never puts two elements after each other both ways. *)
Hypothesis cmp_asym : forall a b, (0 < cmp a b)%Z -> ¬ (0 < cmp b a)%Z.

(** Neighbours are in order. *)
Fixpoint ordered (l : list A) : Prop :=
  match l with
  | [] => True
  | x :: l' => match l' with
               | [] => True
               | y :: _ => ¬ (0 < cmp x y)%Z
               end /\ ordered l'
  end.

Lemma insert_sorted_ordered (x : A) (l : list A) :
  ordered l -> ordered (insert_sorted cmp x l).
Proof.
  induction l as [|y l IH]; intros Hl; [now split|].
  cbn [insert_sorted]. destruct (0 <? cmp x y)%Z eqn:Hxy.
  - destruct Hl as [Hy Hl]. specialize (IH Hl).
    split; [|exact IH].
    destruct l as [|z l]; cbn [insert_sorted].
    + apply cmp_asym. now apply Z.ltb_lt.
    + destruct (0 <? cmp x z)%Z; [exact Hy|].
      apply cmp_asym. now apply Z.ltb_lt.
  - split; [|exact Hl]. intros H%Z.ltb_lt. congruence.
Qed.

Lemma sort_ordered (l : list A) : ordered (sort cmp l).
Proof.
  induction l as [|x l IH]; [exact I|]. now apply insert_sorted_ordered.
Qed.

Lemma sort_of_ordered (l : list A) : ordered l -> sort cmp l = l.
Proof.
  induction l as [|x l IH]; intros Hl; [reflexivity|].
  destruct Hl as [Hx Hl]. cbn [sort]. rewrite (IH Hl).
  destruct l as [|y l]; [reflexivity|].
  cbn [insert_sorted]. destruct (0 <? cmp x y)%Z eqn:Hxy; [|reflexivity].
  apply Z.ltb_lt in Hxy. contradiction.
Qed.

Lemma sort_sort (l : list A) : sort cmp (sort cmp l) = sort cmp l.
Proof. apply sort_of_ordered, sort_ordered. Qed.

Lemma sort_app (l1 l2 : list A) :
  sort cmp (l1 ++ l2) = foldr (insert_sorted cmp) (sort cmp l2) l1.
Proof. induction l1 as [|x l1 IH]; [reflexivity|]. cbn. now rewrite IH. Qed.

Lemma filter_insert_sorted (P : A -> Prop) `{forall x, Decision (P x)}
    (x : A) (l : list A) :
  ¬ P x -> filter P (insert_sorted cmp x l) = filter P l.
Proof.
  intros Hx. induction l as [|y l IH]; cbn [insert_sorted].
  - rewrite filter_cons. now destruct (decide (P x)).
  - destruct (0 <? cmp x y)%Z.
    + rewrite !filter_cons, IH. reflexivity.
    + rewrite (filter_cons _ x). now destruct (decide (P x)).
Qed.
End SortTwice.

Section CategoriesTwice.
Context {R : Runtime}.
Import JSString Db.

(** [localeCompare] is a consistent comparator. *)
Hypothesis localeCompare_asym :
  forall a b, (0 < localeCompare a b)%Z -> ¬ (0 < localeCompare b a)%Z.

(** X28: where the names of the remote categories have no white space
    around them, the merge of the categories is idempotent too: the duplicates of
    [categories_merge_accumulates] come from the untrimmed names in
    [cloudNames] alone. *)
Lemma mergeCategories_idempotent (dead deadNames : gset (list N))
    (cache docs : list Category.t) :
  Forall (fun c => trim (Category.name c) = Category.name c) docs ->
  mergeCategories dead deadNames (mergeCategories dead deadNames cache docs) docs
  = mergeCategories dead deadNames cache docs.
Proof.
  intros Htrim. unfold mergeCategories.
  set (cmp := fun a b : Category.t => localeCompare (Category.name a) (Category.name b)).
  set (categories := filter _ docs).
  set (cloudNames := list_to_set (map _ categories) : gset (list N)).
  set (P := fun c : Category.t =>
              (toLowerCase (trim (Category.name c)) ∉ cloudNames)
              ∧ (Category.id c ∉ dead)
              ∧ (toLowerCase (trim (Category.name c)) ∉ deadNames)).
  set (pending := filter P cache).
  assert (Hcloud : forall c, c ∈ categories -> ¬ P c).
  { intros c Hc [Hn _]. apply Hn.
    apply elem_of_list_to_set, list_elem_of_fmap. exists c. split; [|exact Hc].
    f_equal. apply list_elem_of_filter in Hc as [_ Hc].
    rewrite Forall_forall in Htrim. now apply Htrim. }
  assert (Hpend : filter P (sort cmp (categories ++ pending)) = sort cmp pending).
  { rewrite sort_app.
    assert (Hgen : forall l, (forall c, c ∈ l -> ¬ P c) ->
                             filter P (foldr (insert_sorted cmp) (sort cmp pending) l)
                             = sort cmp pending).
    { induction l as [|c l IH]; intros Hl; cbn [foldr].
      - apply filter_all. intros c Hc%elem_of_sort.
        now apply list_elem_of_filter in Hc as [Hc _].
      - rewrite filter_insert_sorted by (apply Hl, list_elem_of_here).
        apply IH. intros c' Hc'. apply Hl. now apply list_elem_of_further. }
    now apply Hgen. }
  rewrite Hpend, !sort_app, sort_sort; [reflexivity|].
  intros a b. apply localeCompare_asym.
Qed.
End CategoriesTwice.

(** ** Arrays handed to callbacks *)

Section AliasingFacts.
Context {A : Type}.
Import Aliasing.

Definition isUserCallback' (cb : listener A) : Prop :=
  match cb with
  | UserCallback _ _ => True
  | Callback _ => False
  end.

(** The filter of a [userCallback]. *)
Definition ownedOf (cb : listener A) : A -> bool :=
  match cb with
  | UserCallback owned _ => owned
  | Callback _ => fun _ => true
  end.

Lemma read_write_ne (h : list (list A)) (r r' : nat) (l : list A) :
  r <> r' -> read (write h r l) r' = read h r'.
Proof. intros Hne. unfold read, write. now rewrite list_lookup_insert_ne. Qed.

Lemma read_alloc (h : list (list A)) (l : list A) (r : nat) :
  (r < length h)%nat -> read (h ++ [l]) r = read h r.
Proof. intros Hr. unfold read. now rewrite lookup_app_l. Qed.

Lemma length_write (h : list (list A)) (r : nat) (l : list A) : length (write h r l) = length h.
Proof. apply length_insert. Qed.

(** Calling the listeners on the copy [safeData] leaves every array below
    [safeData] as it is. *)
Lemma calls_frame (ls : list (listener A)) (safeData : nat) (h : list (list A))
    (log : list (reception A)) :
  (safeData < length h)%nat ->
  let st := fold_left (fun st cb => call cb safeData st) ls (h, log) in
  (length h <= length (fst st))%nat
  /\ forall r, (r < safeData)%nat -> read (fst st) r = read h r.
Proof.
  revert h log. induction ls as [|cb ls IH]; intros h log Hs; [now split|].
  cbn [fold_left]. destruct cb as [f|owned f]; cbn [call callObserver alloc].
  - destruct (IH (write h safeData (f (read h safeData)))
                (log ++ [mkReception safeData (read h safeData)])) as [Hlen Hread].
    { now rewrite length_write. }
    rewrite length_write in Hlen. split; [exact Hlen|].
    intros r Hr. rewrite Hread by exact Hr. apply read_write_ne. lia.
  - set (h1 := h ++ [List.filter owned (read h safeData)]).
    assert (Hlen1 : length h1 = S (length h)).
    { unfold h1. rewrite length_app. cbn. lia. }
    destruct (IH (write h1 (length h) (f (read h1 (length h))))
                (log ++ [mkReception (length h) (read h1 (length h))])) as [Hlen Hread].
    { rewrite length_write. lia. }
    rewrite length_write in Hlen. split; [lia|].
    intros r Hr. rewrite Hread by exact Hr.
    rewrite read_write_ne by lia. apply read_alloc. lia.
Qed.

(** When all listeners are [userCallback] closures, each callback receives
    an array of its own that holds the filtered copy. *)
Lemma calls_scoped (ls : list (listener A)) (safeData : nat) (h : list (list A))
    (log : list (reception A)) :
  (safeData < length h)%nat ->
  Forall isUserCallback' ls ->
  snd (fold_left (fun st cb => call cb safeData st) ls (h, log))
  = log ++ imap (fun i cb =>
                   mkReception (length h + i)
                     (List.filter (ownedOf cb) (read h safeData))) ls.
Proof.
  revert h log. induction ls as [|cb ls IH]; intros h log Hs Hall.
  - cbn. now rewrite app_nil_r.
  - apply Forall_cons in Hall as [Hcb Hall].
    destruct cb as [f|owned f]; [contradiction|].
    cbn [fold_left call callObserver alloc].
    set (h1 := h ++ [List.filter owned (read h safeData)]).
    assert (Hlen1 : length h1 = S (length h)).
    { unfold h1. rewrite length_app. cbn. lia. }
    assert (Hnew : read h1 (length h) = List.filter owned (read h safeData)).
    { unfold read, h1. rewrite lookup_app_r by lia.
      now rewrite Nat.sub_diag. }
    rewrite IH; [|rewrite length_write; lia|exact Hall].
    rewrite length_write, Hlen1, Hnew, <- app_assoc. cbn [app imap ownedOf].
    rewrite Nat.add_0_r. do 2 f_equal.
    apply imap_ext. intros i cb _. cbn.
    rewrite read_write_ne by lia. unfold h1. rewrite read_alloc by lia.
    f_equal. lia.
Qed.

(** C9, as the code has it: a call of [notifyListeners] makes one copy of
    the published array.  Whatever the callbacks do to the arrays they are
    handed, every array that existed before the call, the stores among
    them, is unchanged; and on a channel whose listeners are all
    [userCallback] closures every callback receives an array of its own,
    different from all others, holding the published list behind its
    filter. *)
Theorem notify_copies_once (ls : list (listener A)) (data : nat) (h : list (list A))
    (log : list (reception A)) :
  let st := notifyListeners ls data (h, log) in
  (forall r, (r < length h)%nat -> read (fst st) r = read h r)
  /\ (Forall isUserCallback' ls ->
      exists new,
        snd st = log ++ new
        /\ map seen new = map (fun cb => List.filter (ownedOf cb) (read h data)) ls
        /\ NoDup (map array new)).
Proof.
  cbn [notifyListeners alloc].
  set (h1 := h ++ [read h data]).
  assert (Hlen1 : length h1 = S (length h)).
  { unfold h1. rewrite length_app. cbn. lia. }
  split.
  - intros r Hr.
    destruct (calls_frame ls (length h) h1 log) as [_ Hread]; [lia|].
    rewrite Hread by exact Hr. now apply read_alloc.
  - intros Hall. eexists. split; [apply calls_scoped; [lia|exact Hall]|].
    assert (Hcopy : read h1 (length h) = read h data).
    { unfold read at 1, h1. rewrite lookup_app_r by lia.
      now rewrite Nat.sub_diag. }
    rewrite Hcopy. split.
    + apply list_eq. intros i. rewrite !list_lookup_fmap, list_lookup_imap.
      now destruct (ls !! i).
    + apply NoDup_alt. intros i j r.
      rewrite !list_lookup_fmap, !list_lookup_imap.
      destruct (ls !! i), (ls !! j); cbn; try discriminate.
      intros [= <-] [= Hij]. lia.
Qed.

End AliasingFacts.

(** ** Encoding and decoding *)

Section RoundTrip.
Import Security.

(** C10, round trip: for every string of code units below 256, which are
    the strings [btoa] accepts, [encryptData] returns and [decryptData]
    gives the string back from its result. *)
Theorem encrypt_decrypt_roundtrip (s : jsstring) :
  Forall (fun c => c < 256) s ->
  cbind (encryptData s) decryptData = Normal s.
Proof.
  intros Hs. unfold encryptData.
  rewrite btoa_latin1.
  - cbn [cbind]. now apply decryptData_encoded.
  - apply Forall_app. split; [|exact Hs]. vm_compute. repeat constructor.
Qed.

End RoundTrip.

(** ** The functions on concrete data *)

Section Examples.
Import JSString Db.
Local Existing Instance AsciiRuntime.runtime.

Definition food : Category.t := Category.mk (lit "c1") (lit "Food") false 0.
Definition transport : Category.t := Category.mk (lit "c2") (lit "Transport") false 0.
Definition admin : jsstring := lit "admin@secure.com".

(** The store holds [food] and [transport]; then [food] is deleted. *)
Definition afterDelete : World :=
  run true [CategoriesSnapshot [food; transport];
            DeleteSystemCategory (lit "c1") admin] initial.

Example afterDelete_state :
  MOCK_CATEGORIES afterDelete = [transport]
  /\ elements (PENDING_DELETES afterDelete) = [lit "c1"]
  /\ elements (PENDING_DELETE_NAMES afterDelete) = [lit "food"].
Proof. vm_compute. auto. Qed.

(** The scenario of the specification: both remote categories are merged,
    and after the delete a stale snapshot that still holds the deleted
    category leaves the merged view as it is. *)
Example snapshot_merged :
  MOCK_CATEGORIES (after true (CategoriesSnapshot [food; transport])
                     (set_MOCK_CATEGORIES [food] initial))
  = [food; transport].
Proof. vm_compute. reflexivity. Qed.

Example stale_snapshot_filtered :
  MOCK_CATEGORIES (after true (CategoriesSnapshot [food; transport]) afterDelete)
  = [transport].
Proof. vm_compute. reflexivity. Qed.

(** C3 on the categories: a remote category whose name has white space
    around it is merged once by the first snapshot and once more by every
    later one, since [cloudNames] holds the names untrimmed and the pending
    test looks for the trimmed name. *)
Theorem categories_merge_accumulates :
  let padded := Category.mk (lit "c3") (lit " Food") false 0 in
  let w1 := after true (CategoriesSnapshot [padded]) initial in
  let w2 := after true (CategoriesSnapshot [padded]) w1 in
  let w3 := after true (CategoriesSnapshot [padded]) w2 in
  MOCK_CATEGORIES w1 = [padded]
  /\ MOCK_CATEGORIES w2 = [padded; padded]
  /\ MOCK_CATEGORIES w3 = [padded; padded; padded].
Proof. vm_compute. auto. Qed.

Ltac by_computation := apply (bool_decide_unpack _); vm_compute; exact I.

Lemma tombstone_precedence_witness :
  let snapshots := [[food; transport]; [food]] in
  let w' := run true (map CategoriesSnapshot snapshots) afterDelete in
  Category.id food ∈ PENDING_DELETES afterDelete
  /\ key food ∈ PENDING_DELETE_NAMES afterDelete
  /\ (snapshots <> [] -> food ∉ MOCK_CATEGORIES w')
  /\ exists new, deliveries w' = deliveries afterDelete ++ new
                 /\ forall d l, d ∈ new -> payload d = Categories l -> food ∉ l.
Proof.
  intros snapshots w'.
  assert (H1 : Category.id food ∈ PENDING_DELETES afterDelete) by by_computation.
  assert (H2 : key food ∈ PENDING_DELETE_NAMES afterDelete) by by_computation.
  split; [exact H1|]. split; [exact H2|].
  exact (tombstone_precedence true food snapshots afterDelete H1 H2).
Defined.

(** [food] is deleted and "Food" created again.  Without a Firestore
    handle the store holds the new category at once.  With a handle the
    view has no category of the key while the remote store still answers
    with the old documents, and exactly the new one once the remote store
    answers with the new document (while it still holds the old one). *)
Lemma create_cancels_tombstone_witness :
  let w := after true (CategoriesSnapshot [food; transport]) initial in
  let requests := [DeleteSystemCategory (lit "c1") admin;
                   AddSystemCategory (lit " Food ") admin] in
  let new := Category.mk (lit "c9") (lit "Food") false 5 in
  let reconciled snaps :=
    MOCK_CATEGORIES (run true (map CategoriesSnapshot snaps) (run true requests w)) in
  filter (fun c => key c = lit "food") (MOCK_CATEGORIES (run false requests w))
  = [newCategory (lit " Food ") (clock (ticks w)) (clock (S (ticks w)))]
  /\ filter (fun c => key c = lit "food") (reconciled [[food; transport]]) = []
  /\ filter (fun c => key c = lit "food")
       (reconciled ([[food; transport]] ++ [[food; new; transport]])) = [new].
Proof.
  intros w requests new reconciled.
  assert (Hfind : List.find (fun c => bool_decide (Category.id c = Category.id food))
                    (MOCK_CATEGORIES w) = Some food)
    by (vm_compute; reflexivity).
  assert (Hkey : key food = toLowerCase (trim (lit " Food ")))
    by (vm_compute; reflexivity).
  assert (Hothers : forall c, c ∈ MOCK_CATEGORIES w -> Category.id c <> Category.id food ->
                      key c <> toLowerCase (trim (lit " Food "))
                      /\ toLowerCase (Category.name c) <> toLowerCase (trim (lit " Food "))).
  { intros c Hc Hid. change (MOCK_CATEGORIES w) with [food; transport] in Hc.
    apply elem_of_cons in Hc as [->|Hc]; [now contradiction Hid|].
    apply elem_of_cons in Hc as [->|Hc]; [split; vm_compute; discriminate|].
    now apply elem_of_nil in Hc. }
  destruct (create_cancels_tombstone w food (lit " Food ") admin admin Hfind Hkey Hothers)
    as [(_ & Hoffline & _) Hconnected].
  destruct (Hconnected eq_refl) as (_ & _ & _ & _ & _ & Hnone & Hone).
  split; [exact Hoffline|]. split.
  - apply (Hnone [[food; transport]]). intros docs c Hdocs Hc Hk.
    apply elem_of_cons in Hdocs as [->|Hdocs]; [|now apply elem_of_nil in Hdocs].
    apply elem_of_cons in Hc as [->|Hc]; [reflexivity|].
    apply elem_of_cons in Hc as [->|Hc]; [vm_compute in Hk; discriminate Hk|].
    now apply elem_of_nil in Hc.
  - refine (Hone [[food; transport]] [food; new; transport] (lit "c9") 5 _ _ _ _ _).
    + by_computation.
    + discriminate.
    + repeat (apply NoDup_cons; split;
              [intros Hin; repeat (apply elem_of_cons in Hin as [Hin|Hin];
                                    [discriminate Hin|]);
               now apply elem_of_nil in Hin|]).
      apply NoDup_nil. exact I.
    + apply list_elem_of_further, list_elem_of_here.
    + intros c Hc Hk.
      apply elem_of_cons in Hc as [->|Hc]; [right; reflexivity|].
      apply elem_of_cons in Hc as [->|Hc]; [left; reflexivity|].
      apply elem_of_cons in Hc as [->|Hc]; [vm_compute in Hk; discriminate Hk|].
      now apply elem_of_nil in Hc.
Defined.

(** C2 as stated fails with a Firestore handle: [food] is deleted and
    "Food" created again, and a snapshot taken before the remote store has
    either write is reconciled.  The merged view then has no category of
    the key [food]: the old document is filtered by its id, and the create
    has put nothing into the store. *)
Lemma recreated_category_absent_until_echoed :
  let w := run true [CategoriesSnapshot [food; transport];
                     DeleteSystemCategory (lit "c1") admin;
                     AddSystemCategory (lit "Food") admin;
                     CategoriesSnapshot [food; transport]] initial in
  MOCK_CATEGORIES w = [transport]
  /\ filter (fun c => key c = lit "food") (MOCK_CATEGORIES w) = []
  /\ elements (PENDING_DELETE_NAMES w) = [].
Proof. vm_compute. auto. Qed.

Definition alice : jsstring := lit "alice".
Definition bob : jsstring := lit "bob".

Definition rent (userId : jsstring) : Expense.t :=
  Expense.mk AsciiRuntime.runtime [] (lit "p1") userId (lit "Rent") (lit "2026-01-05")
    (lit "flat") (lit "ENC_VEhFU0lTX1NFQ1VSRV8xNTAwLjUw") None.

Definition january (userId : jsstring) : CutOff.t :=
  CutOff.mk AsciiRuntime.runtime (lit "p1") userId (lit "2026-01-01") (lit "2026-01-15")
    (lit "ENC_VEhFU0lTX1NFQ1VSRV8xNTAwLjUw") (lit "not encrypted") None None.

(** Without a Firestore handle both users save an expense, then [alice]
    subscribes: her callback receives her expense only. *)
Lemma ownership_isolation_witness :
  let es := [SaveExpense (rent alice) alice; SaveExpense (rent bob) bob;
             SubscribeToExpenses alice 1%nat] in
  let d := mkDelivery AsciiRuntime.runtime (UserCallback 0%nat alice 1%nat)
             (Expenses [newExpense (rent alice) 1700000000000]) in
  d ∈ deliveries (run false es initial)
  /\ ownedBy alice (payload d).
Proof.
  intros es d.
  assert (Hd : d ∈ deliveries (run false es initial)).
  { subst d es. vm_compute. apply list_elem_of_here. }
  split; [exact Hd|].
  exact (proj1 (ownership_isolation false es) d 0%nat alice 1%nat Hd eq_refl).
Defined.

(** Both users have saved an expense when [alice] subscribes: her callback
    is called during the call with her expense, and a later publication of
    the store, which by then holds two expenses of [bob], hands it her
    expense again. *)
Lemma late_subscriber_replay_witness :
  let before := [SaveExpense (rent alice) alice; SaveExpense (rent bob) bob] in
  let e := SubscribeToExpenses alice 1%nat in
  let later := [SubscribeToExpenses bob 2%nat; SaveExpense (rent bob) bob] in
  let w := run false before initial in
  let w1 := after false e w in
  let w2 := run false later w1 in
  let cb := UserCallback 0%nat alice 1%nat in
  let hers := Expenses [newExpense (rent alice) 1700000000000] in
  (exists rest, deliveries w1 = deliveries w ++ mkDelivery _ cb hers :: rest)
  /\ (exists pre post,
        deliveries (snd (notifyListeners "expenses" (Expenses (MOCK_EXPENSES w2)) w2))
        = deliveries w2 ++ pre ++ mkDelivery _ cb hers :: post).
Proof.
  intros before e later w w1 w2 cb hers.
  assert (Hlater : forall s, CallUnsubscribe s ∈ later -> sub_listener s <> cb).
  { intros s Hs. repeat (apply elem_of_cons in Hs as [Hs|Hs]; [discriminate Hs|]).
    now apply elem_of_nil in Hs. }
  assert (Hseen : lastKnownView e w = Some hers) by (vm_compute; reflexivity).
  assert (Hshare : shareOf cb (Expenses (MOCK_EXPENSES w2)) = hers)
    by (vm_compute; reflexivity).
  destruct (late_subscriber_replay false before later e "expenses" cb
              (Expenses (MOCK_EXPENSES w)) (Expenses (MOCK_EXPENSES w2)) eq_refl Hlater)
    as [(seen & rest & Hview & Hfirst) (pre & post & Hnext)].
  fold w in Hview. rewrite Hseen in Hview. injection Hview as <-.
  rewrite Hshare in Hnext.
  split; [exists rest; exact Hfirst|exists pre, post; exact Hnext].
Defined.

(** C6 as stated fails with a Firestore handle: after [saveExpense] the
    store is still empty and the subscribed callback has only been called
    by its subscription, with the empty list. *)
Lemma optimistic_write_absent_when_connected :
  let w := run true [SubscribeToExpenses alice 1%nat; SaveExpense (rent alice) alice] initial in
  MOCK_EXPENSES w = []
  /\ deliveries w = [mkDelivery _ (UserCallback 0%nat alice 1%nat) (Expenses [])].
Proof. vm_compute. auto. Qed.

Lemma optimistic_write_offline_only_witness :
  let w := after false (SubscribeToCategories 1%nat) initial in
  let w' := after false (AddSystemCategory (lit " Food ") admin) w in
  nameIsFree (lit " Food ") w
  /\ MOCK_CATEGORIES w'
     = MOCK_CATEGORIES w ++ [newCategory (lit " Food ") (clock (ticks w)) (clock (S (ticks w)))]
  /\ (exists logs,
         deliveries w'
         = deliveries w
           ++ published "categories" (Categories (MOCK_CATEGORIES w')) w ++ logs)
  /\ remote w' = remote w.
Proof.
  intros w w'.
  assert (Hfree : nameIsFree (lit " Food ") w).
  { unfold nameIsFree. vm_compute. intros H. now apply Exists_nil in H. }
  split; [exact Hfree|].
  exact (proj1 (proj2 (proj2 (optimistic_write_offline_only w))) (lit " Food ") admin Hfree).
Defined.

(** C7 as stated fails: a snapshot without the deleted category leaves its
    id and its name in the pending-delete sets. *)
Lemma tombstone_survives_confirmed_absence :
  let w := after true (CategoriesSnapshot [transport]) afterDelete in
  lit "c1" ∈ PENDING_DELETES w /\ lit "food" ∈ PENDING_DELETE_NAMES w.
Proof. split; by_computation. Qed.

Lemma tombstones_outlive_snapshots_witness :
  let es := [CategoriesSnapshot [transport]; ExpensesSnapshot alice [rent alice]] in
  Forall (fun e => isSnapshot e = true) es
  /\ PENDING_DELETES (run true es afterDelete) = PENDING_DELETES afterDelete
  /\ PENDING_DELETE_NAMES (run true es afterDelete) = PENDING_DELETE_NAMES afterDelete.
Proof.
  intros es.
  assert (Hes : Forall (fun e => isSnapshot e = true) es)
    by (repeat (apply Forall_cons; split; [reflexivity|]); apply Forall_nil; exact I).
  split; [exact Hes|].
  exact (proj1 (tombstones_outlive_snapshots true es afterDelete [] []) Hes).
Defined.

(** A document of the remote collection that has no field
    [encryptedTotalSavings]. *)
Definition unfinished (userId : jsstring) : CutOffDoc.t :=
  CutOffDoc.mk AsciiRuntime.runtime (lit "p2") userId (lit "2026-01-16")
    (lit "2026-01-31") (Some (lit "ENC_VEhFU0lTX1NFQ1VSRV8xNTAwLjUw")) None None None.

(** A field that is a string but not an encoded one is decoded to zero and
    the snapshot is stored; one document without the field makes the
    callback throw, and the document beside it is not stored either. *)
Lemma decode_tolerance_witness :
  let good := CutOffDoc.conforming (january alice) in
  let stored := snd (onCutoffsSnapshot alice [good] initial) in
  Security.decryptData (lit "1500.50") = Normal (lit "0")
  /\ Security.decryptData (lit "ENC_" ++ lit "###") = Normal (lit "0")
  /\ map CutOff.decryptedSavings (MOCK_CUTOFFS stored) = [Some (parseFloat (lit "0"))]
  /\ onCutoffsSnapshot alice [good; unfinished alice] initial
     = (Throw TypeError, initial).
Proof.
  intros good stored.
  destruct decode_tolerance as (_ & Hprefix & Hpayload & Hstored & Haborts).
  split; [apply Hprefix; reflexivity|].
  split; [apply (Hpayload (lit "###") InvalidCharacterError); reflexivity|].
  split.
  - destruct (Hstored alice [good] initial) as (Hrun & _ & _).
    { repeat constructor; eexists; reflexivity. }
    unfold stored. rewrite Hrun. vm_compute. reflexivity.
  - apply (Haborts alice [good; unfinished alice] initial (unfinished alice)).
    + apply list_elem_of_further, list_elem_of_here.
    + reflexivity.
    + intros [_ [s Hs]]. discriminate Hs.
Defined.

Lemma encrypt_decrypt_roundtrip_witness :
  Forall (fun c => c < 256) (lit "1500.50")
  /\ cbind (Security.encryptData (lit "1500.50")) Security.decryptData
     = Normal (lit "1500.50").
Proof.
  assert (H : Forall (fun c => c < 256) (lit "1500.50"))
    by (vm_compute; repeat constructor).
  split; [exact H|]. exact (encrypt_decrypt_roundtrip (lit "1500.50") H).
Defined.

(** C9 as stated fails: two callbacks on a channel without owner filter
    receive the same array, and the edit of the first is what the second
    finds in it. *)
Lemma observers_share_one_copy :
  let append99 : Aliasing.observer := fun l => l ++ [99] in
  let reader : Aliasing.observer := fun l => l in
  Aliasing.notifyListeners
    [Aliasing.Callback append99; Aliasing.Callback reader] 0%nat ([[1; 2]], [])
  = ([[1; 2]; [1; 2; 99]],
     [Aliasing.mkReception 1%nat [1; 2]; Aliasing.mkReception 1%nat [1; 2; 99]]).
Proof. reflexivity. Qed.

Lemma notify_copies_once_witness :
  let append99 : Aliasing.observer := fun l => l ++ [99] in
  let ls := [Aliasing.UserCallback N.even append99; Aliasing.UserCallback N.odd append99] in
  let st := Aliasing.notifyListeners ls 0%nat ([[1; 2]], []) in
  Forall isUserCallback' ls
  /\ Aliasing.read (fst st) 0%nat = [1; 2]
  /\ exists new,
       snd st = [] ++ new
       /\ map Aliasing.seen new
          = map (fun cb => List.filter (ownedOf cb) (Aliasing.read [[1; 2]] 0%nat)) ls
       /\ NoDup (map Aliasing.array new).
Proof.
  intros append99 ls st.
  assert (Hls : Forall isUserCallback' ls)
    by (repeat (apply Forall_cons; split; [exact I|]); apply Forall_nil; exact I).
  split; [exact Hls|].
  destruct (notify_copies_once ls 0%nat [[1; 2]] []) as [Hframe Hscoped].
  split; [apply (Hframe 0%nat); cbn; lia|].
  exact (Hscoped Hls).
Defined.

End Examples.

(** * Further properties of the code *)
(** ** Properties of [sanitizeInput] and [validateStrongPassword] *)

Section ValidationFacts.
Import Validation.

(** One of the five characters that [sanitizeInput] replaces. *)
Definition replaced (c : N) : Prop :=
  c = 60 \/ c = 62 \/ c = 38 \/ c = 34 \/ c = 39.

Lemma sanitizeInput_flat_map (s : jsstring) : sanitizeInput s = flat_map escape s.
Proof. now destruct s. Qed.

Ltac eval_lit :=
  repeat match goal with
    | |- context [lit ?s] =>
        let v := eval vm_compute in (lit s) in change (lit s) with v
    end.

Ltac escape_cases c :=
  unfold escape;
  destruct (N.eqb_spec c 60); [|destruct (N.eqb_spec c 62);
    [|destruct (N.eqb_spec c 38); [|destruct (N.eqb_spec c 34);
      [|destruct (N.eqb_spec c 39)]]]];
  eval_lit; cbn [app].

Lemma escape_same (c : N) : ¬ replaced c -> escape c = [c].
Proof. intros H. unfold replaced in H. escape_cases c; try reflexivity; tauto. Qed.

(** The entities are told apart by their first two code units, and a code
    unit that is kept is not an ampersand. *)
Lemma escape_app_inj (c d : N) (x y : jsstring) :
  escape c ++ x = escape d ++ y -> c = d /\ x = y.
Proof.
  escape_cases c; escape_cases d; subst; intros H;
    try discriminate H; try (injection H as H; tauto);
    injection H as H1 H; congruence.
Qed.

(** X2: [sanitizeInput] loses nothing: two inputs with the same result are
    the same input. *)
Theorem sanitizeInput_injective (a b : jsstring) :
  sanitizeInput a = sanitizeInput b -> a = b.
Proof.
  rewrite !sanitizeInput_flat_map. revert b.
  induction a as [|c a IH]; intros [|d b]; cbn [flat_map]; intros H.
  - reflexivity.
  - exfalso. revert H. escape_cases d; discriminate.
  - exfalso. revert H. escape_cases c; discriminate.
  - apply escape_app_inj in H as [-> H]. f_equal. now apply IH.
Qed.

(** X1: the result of [sanitizeInput] holds none of [<], [>], the double
    quote and the single quote, whatever the input. *)
Theorem sanitizeInput_safe (s : jsstring) :
  Forall (fun c => c <> 60 /\ c <> 62 /\ c <> 34 /\ c <> 39) (sanitizeInput s).
Proof.
  rewrite sanitizeInput_flat_map. induction s as [|d s IH]; cbn [flat_map].
  - constructor.
  - apply Forall_app. split; [|exact IH].
    escape_cases d; repeat (constructor; [lia|]); constructor.
Qed.

Lemma sanitizeInput_grows (s : jsstring) :
  (length s <= length (flat_map escape s))%nat.
Proof.
  induction s as [|c s IH]; cbn [flat_map]; [reflexivity|].
  rewrite length_app. cbn [length].
  enough (1 <= length (escape c))%nat by lia.
  escape_cases c; cbn [length]; lia.
Qed.

Lemma sanitizeInput_fixed (s : jsstring) :
  sanitizeInput s = s <-> Forall (fun c => ¬ replaced c) s.
Proof.
  rewrite sanitizeInput_flat_map. induction s as [|c s IH]; cbn [flat_map].
  - split; [intros _; constructor|reflexivity].
  - rewrite Forall_cons. split.
    + intros H. destruct (decide (replaced c)) as [Hc|Hc].
      * exfalso. revert H. unfold replaced in Hc.
        generalize (sanitizeInput_grows s).
        escape_cases c; subst; intros Hlen H; try discriminate H; try lia.
        apply (f_equal length) in H. cbn [length] in H. lia.
      * rewrite (escape_same c Hc) in H. injection H as H.
        split; [exact Hc|now apply IH].
    + intros [Hc Hs]. rewrite (escape_same c Hc). cbn. f_equal. now apply IH.
Qed.

(** Every entity holds an ampersand, which is replaced in its turn. *)
Lemma escape_replaced (c : N) : replaced c -> Exists replaced (escape c).
Proof.
  intros Hc. unfold replaced in *.
  escape_cases c; subst; apply Exists_cons_hd; lia.
Qed.

Lemma sanitizeInput_clean (s : jsstring) :
  Forall (fun c => ¬ replaced c) (flat_map escape s) ->
  Forall (fun c => ¬ replaced c) s.
Proof.
  induction s as [|c s IH]; cbn [flat_map]; [constructor|].
  intros [Hc Hs]%Forall_app. apply Forall_cons. split; [|now apply IH].
  intros Hr. apply escape_replaced in Hr.
  apply list.Exists_exists in Hr as (x & Hx & Hrx).
  rewrite Forall_forall in Hc. now apply (Hc x).
Qed.

(** X3: sanitizing a second time changes the text again, unless the input
    had none of the five characters: only then is the result of
    [sanitizeInput] a fixed point of it. *)
Theorem sanitizeInput_twice (s : jsstring) :
  sanitizeInput (sanitizeInput s) = sanitizeInput s
  <-> Forall (fun c => ¬ replaced c) s.
Proof.
  split.
  - intros H%sanitizeInput_fixed. rewrite sanitizeInput_flat_map in H.
    now apply sanitizeInput_clean.
  - intros H. apply sanitizeInput_fixed in H. now rewrite !H.
Qed.
End ValidationFacts.

Section PasswordFacts.
Import Validation.

Lemma validateStrongPassword_valid (p : jsstring) :
  isValid (validateStrongPassword p) = true
  <-> (8 <= length p)%nat /\ test isUpper p = true /\ test isLower p = true
      /\ test isDigit p = true /\ test isSpecial p = true.
Proof.
  unfold validateStrongPassword.
  destruct (N.ltb_spec (N.of_nat (length p)) 8) as [Hl|Hl]; cbn [isValid].
  { split; [discriminate|]. intros [? _]. lia. }
  destruct (test isUpper p), (test isLower p), (test isDigit p), (test isSpecial p);
    cbn [negb isValid]; split; try discriminate; try tauto;
    try (intros _; repeat split; try reflexivity; lia).
Qed.

Lemma test_app (class : N -> bool) (a b : jsstring) :
  test class (a ++ b) = test class a || test class b.
Proof. apply existsb_app. Qed.

(** X4: a password that [validateStrongPassword] accepts is still accepted
    with any text put before and after it: the five rules only ask for a
    minimal length and for the presence of characters. *)
Theorem strong_password_extends (p before after : jsstring) :
  isValid (validateStrongPassword p) = true ->
  isValid (validateStrongPassword (before ++ p ++ after)) = true.
Proof.
  rewrite !validateStrongPassword_valid.
  intros (Hl & Hu & Hlo & Hd & Hs).
  rewrite !test_app, Hu, Hlo, Hd, Hs, !length_app, !orb_true_r.
  repeat split; try reflexivity. lia.
Qed.
End PasswordFacts.

Section EncryptionFacts.
Import JSString Base64 Security.

Lemma forallb_latin1 (s : jsstring) :
  forallb (fun c => c <? 256) s = true <-> Forall (fun c => c < 256) s.
Proof.
  rewrite forallb_forall, Forall_forall. split; intros H c Hc.
  - apply N.ltb_lt, H. now apply list_elem_of_In.
  - apply N.ltb_lt, H. now apply list_elem_of_In.
Qed.

Lemma prefix_latin1 : Forall (fun c => c < 256) SECRET_KEY_PREFIX.
Proof. vm_compute. repeat constructor. Qed.


Lemma forallb_not_latin1 (s : jsstring) :
  forallb (fun c => c <? 256) s = false <-> Exists (fun c => 256 <= c) s.
Proof.
  induction s as [|c s IH]; cbn [forallb].
  - split; [discriminate|]. intros H. inversion H.
  - rewrite Exists_cons, andb_false_iff, IH, N.ltb_ge. reflexivity.
Qed.

(** X5: [encryptData] throws exactly on the texts that hold a code unit
    above 255, and what it throws is the exception of [btoa]. *)
Theorem encryptData_throws (s : jsstring) :
  encryptData s = Throw InvalidCharacterError <-> Exists (fun c => 256 <= c) s.
Proof.
  rewrite <- forallb_not_latin1. unfold encryptData, btoa.
  rewrite forallb_app.
  replace (forallb (fun c => c <? 256) SECRET_KEY_PREFIX) with true
    by (symmetry; apply forallb_latin1, prefix_latin1).
  cbn [andb]. destruct (forallb _ s); cbn [cbind]; split; congruence.
Qed.

(** X6: [decryptData] does not check that the payload was made by
    [encryptData]: any text of code units below 256, encoded in base 64
    behind the marker, is decoded, and the first occurrence of the key
    prefix is taken out of it wherever it stands. *)
Theorem decryptData_any_payload (bs : jsstring) :
  Forall (fun c => c < 256) bs ->
  decryptData (lit "ENC_" ++ encode bs) = Normal (replace bs SECRET_KEY_PREFIX []).
Proof.
  intros Hb. unfold decryptData.
  rewrite startsWith_app, replace_prefix. cbn [negb].
  now rewrite atob_encode.
Qed.
End EncryptionFacts.

(** *** From the form to the snapshot *)

Section TemplateForm.
Context {R : Runtime}.
Import JSString Db Security Validation ExpenseManager.

(** The document Firestore holds for [payload] under the id it gave it. *)
Definition stored (docId : jsstring) (payload : RecurringTemplate.t)
  : RecurringTemplate.t :=
  RecurringTemplate.mk R docId (RecurringTemplate.userId payload)
    (RecurringTemplate.category payload) (RecurringTemplate.description payload)
    (RecurringTemplate.encryptedAmount payload)
    (RecurringTemplate.decryptedAmount payload).


End TemplateForm.

(** *** Unsubscribing *)

Section Unsubscribing.
Context {R : Runtime} (db : bool).
Import JSString Db.

Lemma unsubscribe_run (s : Subscription) (w : World) (ls : list Listener) :
  listeners w !! sub_channel s = Some ls ->
  exists w',
    unsubscribe s w = (Normal tt, w')
    /\ listeners w'
       = <[sub_channel s := filter (fun cb => cb <> sub_listener s) ls]> (listeners w).
Proof.
  intros Hls. unfold unsubscribe, remove.
  destruct (sub_query s); mrun; cbn [listeners set_remote]; rewrite Hls; mrun;
    eexists; (split; [reflexivity|reflexivity]).
Qed.

(** X8: an unsubscribe closure removes listeners by identity: after it
    has run, the listeners of the nine channels are those of before,
    except every registration, on its own channel, of the function it was
    created for. *)
Theorem unsubscribe_by_identity (s : Subscription) (w : World) (key : string)
    (cb : Listener) :
  is_Some (listeners w !! sub_channel s) ->
  listening key cb (after db (CallUnsubscribe s) w)
  <-> listening key cb w /\ ¬ (key = sub_channel s /\ cb = sub_listener s).
Proof.
  intros [ls Hls]. unfold after. cbn [step].
  destruct (unsubscribe_run s w ls Hls) as (w' & -> & Hw'). cbn [snd].
  unfold listening. rewrite Hw'.
  destruct (decide (key = sub_channel s)) as [->|Hne].
  - rewrite lookup_insert_eq, Hls. split.
    + intros (ls' & [= <-] & [Hcb Hin]%list_elem_of_filter).
      split; [now exists ls|]. intros [_ ->]. now apply Hcb.
    + intros [(ls' & [= <-] & Hin) Hcb]. eexists. split; [reflexivity|].
      apply list_elem_of_filter. split; [|exact Hin]. intros ->. now apply Hcb.
  - rewrite lookup_insert_ne by congruence. split.
    + intros H. split; [exact H|]. intros [? _]. contradiction.
    + now intros [H _].
Qed.

(** The closures in [listeners] were numbered below the counter. *)
Definition freshClosures (w : World) : Prop :=
  forall key ls k u f,
    listeners w !! key = Some ls -> UserCallback k u f ∈ ls -> (k < closures w)%nat.

Lemma push_freshClosures (key : string) (f : Observer) :
  preserves freshClosures (push key (Callback f)).
Proof.
  intros w Hw. unfold push. rewrite bind_run. cbn [gets].
  destruct (listeners w !! key) as [ls|] eqn:Hls; [|exact Hw].
  cbn. intros key' ls' k u g. cbn.
  destruct (decide (key = key')) as [<-|Hne].
  - rewrite lookup_insert_eq.
    intros [= <-] [Hin|Hin%list_elem_of_singleton]%elem_of_app; [|discriminate].
    now apply (Hw key ls k u g).
  - rewrite lookup_insert_ne by exact Hne. apply Hw.
Qed.

Lemma remove_freshClosures (key : string) (cb : Listener) :
  preserves freshClosures (remove key cb).
Proof.
  intros w Hw. unfold remove. rewrite bind_run. cbn [gets].
  destruct (listeners w !! key) as [ls|] eqn:Hls; [|exact Hw].
  cbn. intros key' ls' k u g. cbn.
  destruct (decide (key = key')) as [<-|Hne].
  - rewrite lookup_insert_eq. intros [= <-] [_ Hin]%list_elem_of_filter.
    now apply (Hw key ls k u g).
  - rewrite lookup_insert_ne by exact Hne. apply Hw.
Qed.

(** What an owner-scoped subscription does to [listeners] and to the
    counter of closures, and the closure it returns. *)
Definition registers (m : M Subscription) (key : string) (userId : jsstring)
    (callback : Observer) : Prop :=
  forall w,
    let cb := UserCallback (closures w) userId callback in
    match listeners w !! key with
    | Some ls =>
        exists s w',
          m w = (Normal s, w')
          /\ sub_channel s = key /\ sub_listener s = cb
          /\ listeners w' = <[key := ls ++ [cb]]> (listeners w)
          /\ closures w' = S (closures w)
    | None =>
        listeners (snd (m w)) = listeners w /\ closures (snd (m w)) = S (closures w)
    end.

Ltac registers_tac :=
  intros ?; cbn zeta;
  match goal with
  | |- match listeners ?w !! ?key with _ => _ end =>
      destruct (listeners w !! key) eqn:?
  end;
  [ mrun;
    match goal with
    | H : listeners _ !! _ = Some _ |- _ => erewrite push_run by exact H
    end;
    mrun; unfold listen; destruct db; mrun; eexists _, _;
    (split; [reflexivity|]); cbn; auto
  | unfold push; mrun; cbn [listeners set_closures];
    match goal with
    | H : listeners _ !! _ = None |- _ => rewrite H
    end; cbn; auto ].

Lemma subscribeToTemplates_registers (userId : jsstring) (callback : Observer) :
  registers (subscribeToTemplates db userId callback) "recurring" userId callback.
Proof. unfold subscribeToTemplates. registers_tac. Qed.

Lemma subscribeToCutoffs_registers (userId : jsstring) (callback : Observer) :
  registers (subscribeToCutoffs db userId callback) "cutoffs" userId callback.
Proof. unfold subscribeToCutoffs. registers_tac. Qed.

Lemma subscribeToExpenses_registers (userId : jsstring) (callback : Observer) :
  registers (subscribeToExpenses db userId callback) "expenses" userId callback.
Proof. unfold subscribeToExpenses. registers_tac. Qed.

Lemma registers_freshClosures (m : M Subscription) (key : string)
    (userId : jsstring) (callback : Observer) :
  registers m key userId callback -> preserves freshClosures (discard m).
Proof.
  intros Hm w Hw. specialize (Hm w). cbn zeta in Hm.
  unfold discard. rewrite bind_run.
  destruct (listeners w !! key) as [ls|] eqn:Hls.
  - destruct Hm as (s & w' & -> & _ & _ & Hl & Hc). cbn.
    intros key' ls' k u g. rewrite Hl, Hc.
    destruct (decide (key = key')) as [<-|Hne].
    + rewrite lookup_insert_eq.
      intros [= <-] [Hin|Hin%list_elem_of_singleton]%elem_of_app.
      * specialize (Hw key ls k u g Hls Hin). lia.
      * injection Hin as -> _ _. lia.
    + rewrite lookup_insert_ne by exact Hne. intros H1 H2.
      specialize (Hw key' ls' k u g H1 H2). lia.
  - destruct Hm as [Hl Hc]. destruct (m w) as [[s|e] w']; cbn in *;
      intros key' ls' k u g; rewrite Hl, Hc; intros H1 H2;
      specialize (Hw key' ls' k u g H1 H2); lia.
Qed.

Lemma step_freshClosures (e : Event) : preserves freshClosures (step db e).
Proof.
  destruct e; cbn [step];
    lazymatch goal with
    | |- preserves _ (discard (subscribeToTemplates _ _ _)) =>
        eapply registers_freshClosures, subscribeToTemplates_registers
    | |- preserves _ (discard (subscribeToCutoffs _ _ _)) =>
        eapply registers_freshClosures, subscribeToCutoffs_registers
    | |- preserves _ (discard (subscribeToExpenses _ _ _)) =>
        eapply registers_freshClosures, subscribeToExpenses_registers
    | |- _ =>
        preserve_core;
        match goal with
        | |- preserves _ (push _ (Callback _)) => apply push_freshClosures
        | |- preserves _ (remove _ _) => apply remove_freshClosures
        | H : freshClosures _ |- _ => exact H
        end
    end.
Qed.

Lemma initial_freshClosures : freshClosures initial.
Proof.
  intros key ls k u f Hls Hin. exfalso.
  assert (ls = []) as ->; [|now apply elem_of_nil in Hin].
  revert Hls. unfold initial. cbn [listeners].
  intros Hls. apply elem_of_list_to_map_2 in Hls.
  repeat (apply elem_of_cons in Hls as [[= _ <-]|Hls]; [reflexivity|]).
  now apply elem_of_nil in Hls.
Qed.

Lemma registered_round_trip (m : M Subscription) (key : string) (userId : jsstring)
    (callback : Observer) (w : World) :
  registers m key userId callback -> freshClosures w -> key ∈ channels ->
  hasChannels w ->
  exists s w1, m w = (Normal s, w1) /\ listeners (snd (unsubscribe s w1)) = listeners w.
Proof.
  intros Hm Hfresh Hkey Hch. specialize (Hm w). cbn zeta in Hm.
  destruct (Hch key Hkey) as [ls Hls]. rewrite Hls in Hm.
  destruct Hm as (s & w1 & Hrun & Hc & Hl & Hls1 & _).
  exists s, w1. split; [exact Hrun|].
  destruct (unsubscribe_run s w1 (ls ++ [sub_listener s])) as (w2 & Hun & Hw2).
  { rewrite Hls1, Hc, Hl. apply lookup_insert_eq. }
  rewrite Hun. cbn [snd]. rewrite Hw2, Hls1, Hc, Hl, insert_insert_eq.
  rewrite filter_app, filter_cons, filter_nil.
  destruct (decide _) as [Hne|_]; [contradiction|].
  rewrite filter_all, app_nil_r; [now apply insert_id|].
  intros cb Hcb ->. specialize (Hfresh key ls _ _ _ Hls Hcb). lia.
Qed.

(** X9: in every run of the module, an owner-scoped subscription
    followed by the call of the closure it returned leaves [listeners] as it
    was: the subscription returns, and its closure removes the one function
    the subscription stored and no other. *)
Theorem scoped_subscription_round_trip (es : list Event) (userId : jsstring)
    (callback : Observer) :
  let w := run db es initial in
  (exists s w1, subscribeToCutoffs db userId callback w = (Normal s, w1)
                /\ listeners (snd (unsubscribe s w1)) = listeners w)
  /\ (exists s w1, subscribeToExpenses db userId callback w = (Normal s, w1)
                   /\ listeners (snd (unsubscribe s w1)) = listeners w)
  /\ (exists s w1, subscribeToTemplates db userId callback w = (Normal s, w1)
                   /\ listeners (snd (unsubscribe s w1)) = listeners w).
Proof.
  intros w.
  assert (Hfresh : freshClosures w).
  { apply preserves_run; [intros e _; apply step_freshClosures
                         |apply initial_freshClosures]. }
  assert (Hch : hasChannels w).
  { apply preserves_run; [intros e _; apply step_hasChannels|apply initial_hasChannels]. }
  repeat split.
  - eapply registered_round_trip; eauto using subscribeToCutoffs_registers.
    unfold channels. repeat first [apply list_elem_of_here | apply list_elem_of_further].
  - eapply registered_round_trip; eauto using subscribeToExpenses_registers.
    unfold channels. repeat first [apply list_elem_of_here | apply list_elem_of_further].
  - eapply registered_round_trip; eauto using subscribeToTemplates_registers.
    unfold channels. repeat first [apply list_elem_of_here | apply list_elem_of_further].
Qed.
End Unsubscribing.

(** *** Invariants of the runs *)

Section RunInvariants.
Context {R : Runtime}.
Import JSString Db.

(** An unsubscribe closure that was created without a Firestore handle:
    its inner [unsubscribe] is the empty function. *)
Definition localClosure (e : Event) : Prop :=
  match e with
  | CallUnsubscribe s => sub_query s = None
  | _ => True
  end.

Lemma step_offline (remote0 : list RemoteOp) (e : Event) :
  localClosure e -> preserves (fun w => remote w = remote0) (step false e).
Proof.
  intros He. destruct e; cbn [step]; cbn in He;
    unfold discard, onCategoriesSnapshot, onTemplatesSnapshot, onCutoffsSnapshot,
      onExpensesSnapshot, onAllExpensesSnapshot, onAllCutoffsSnapshot,
      subscribeToAuditLogs, subscribeToCategories, subscribeToUsers,
      subscribeToAppeals, subscribeToTemplates, subscribeToCutoffs,
      subscribeToExpenses, subscribeToAllExpenses, subscribeToAllCutoffs,
      unsubscribe, logSystemAction, addSystemCategory, deleteSystemCategory,
      saveRecurringTemplate, deleteRecurringTemplate, saveCutOff, saveExpense,
      logSystemAction, listen;
    try rewrite He; cbn [negb]; preserve;
    match goal with
    | H : remote _ = _ |- _ => exact H
    end.
Qed.

Lemma step_logs (db : bool) (logs0 : list AuditLog.t) (e : Event) :
  preserves (fun w => exists new, MOCK_LOGS w = new ++ logs0) (step db e).
Proof.
  destruct e; preserve;
    match goal with
    | H : exists new, MOCK_LOGS _ = _ |- _ =>
        first [ exact H
              | destruct H as [new H]; eexists (_ :: new); cbn; rewrite H; reflexivity ]
    end.
Qed.

(** X11: no exported function and no snapshot callback of the
    categories, templates, cut-offs and expenses removes or changes an entry
    of the audit log in memory: after any run of them, the log is the log of
    before with entries put in front. *)
Theorem audit_log_only_grows (db : bool) (es : list Event) (w : World) :
  exists new, MOCK_LOGS (run db es w) = new ++ MOCK_LOGS w.
Proof.
  apply (preserves_run db (fun w' => exists new, MOCK_LOGS w' = new ++ MOCK_LOGS w)).
  - intros e _. apply step_logs.
  - now exists [].
Qed.

(** A remote call that carries no decoded amount. *)
Definition sealed (op : RemoteOp) : Prop :=
  match op with
  | AddCutOff p _ => CutOff.decryptedIncome p = None /\ CutOff.decryptedSavings p = None
  | AddExpense p _ => Expense.decryptedAmount p = None
  | AddTemplate p _ => RecurringTemplate.decryptedAmount p = None
  | _ => True
  end.

Lemma step_sealed (db : bool) (e : Event) :
  preserves (fun w => Forall sealed (remote w)) (step db e).
Proof.
  destruct e; preserve;
    match goal with
    | H : Forall sealed (remote _) |- _ =>
        first [ exact H
              | cbn [remote set_remote]; apply Forall_app; split; [exact H|];
                apply Forall_cons; split; [cbn; auto|constructor] ]
    end.
Qed.

(** X12: the decoded amounts never leave the module: in every run, each
    cut-off, expense and template handed to Firestore has its decrypted
    fields taken out, whatever the caller had put there. *)
Theorem decoded_amounts_stay_local (db : bool) (es : list Event) :
  Forall sealed (remote (run db es initial)).
Proof.
  apply (preserves_run db (fun w => Forall sealed (remote w))).
  - intros e _. apply step_sealed.
  - constructor.
Qed.
End RunInvariants.

(** *** What the merges keep *)

Section MergeFacts.
Context {R : Runtime} (db : bool).
Import JSString Db.

Lemma decodedExpense_userId (d : Expense.t) :
  Expense.userId (decodedExpense d) = Expense.userId d.
Proof. reflexivity. Qed.

Lemma decodedCutOff_userId (d : CutOff.t) :
  CutOff.userId (decodedCutOff d) = CutOff.userId d.
Proof. reflexivity. Qed.

Lemma mergeExpenses_others (userId : jsstring) (cache decoded : list Expense.t) :
  Forall (fun e => Expense.userId e = userId) decoded ->
  filter (fun e => Expense.userId e <> userId) (mergeExpenses userId cache decoded)
  = filter (fun e => Expense.userId e <> userId) cache.
Proof.
  intros Hd. unfold mergeExpenses. rewrite !filter_app, filter_idem.
  rewrite (filter_none _ (sort _ _)), (filter_none _ (filter _ cache)), !app_nil_r;
    [reflexivity| |].
  - intros y [[Hy _] _]%list_elem_of_filter. tauto.
  - intros y Hy%elem_of_sort. rewrite Forall_forall in Hd. specialize (Hd y Hy). tauto.
Qed.

Lemma mergeCutoffs_others (userId : jsstring) (cache decoded : list CutOff.t) :
  Forall (fun e => CutOff.userId e = userId) decoded ->
  filter (fun e => CutOff.userId e <> userId) (mergeCutoffs userId cache decoded)
  = filter (fun e => CutOff.userId e <> userId) cache.
Proof.
  intros Hd. unfold mergeCutoffs. rewrite !filter_app, filter_idem.
  rewrite (filter_none _ (sort _ _)), (filter_none _ (filter _ cache)), !app_nil_r;
    [reflexivity| |].
  - intros y [[Hy _] _]%list_elem_of_filter. tauto.
  - intros y Hy%elem_of_sort. rewrite Forall_forall in Hd. specialize (Hd y Hy). tauto.
Qed.

Lemma decoded_owned_expenses (userId : jsstring) (collection : list Expense.t) :
  Forall (fun e => Expense.userId e = userId)
    (map decodedExpense (filter (fun d => Expense.userId d = userId) collection)).
Proof.
  apply Forall_forall. intros y (d & -> & [Hd _]%list_elem_of_filter)%list_elem_of_fmap.
  exact Hd.
Qed.

Lemma decoded_owned_cutoffs (userId : jsstring) (collection : list CutOff.t) :
  Forall (fun e => CutOff.userId e = userId)
    (map decodedCutOff (filter (fun d => CutOff.userId d = userId) collection)).
Proof.
  apply Forall_forall. intros y (d & -> & [Hd _]%list_elem_of_filter)%list_elem_of_fmap.
  exact Hd.
Qed.

(** X13: a snapshot of one owner's cut-offs or expenses leaves the
    cached records of every other owner as they are, and in their order. *)
Theorem snapshot_keeps_other_owners (userId : jsstring) (w : World) :
  (forall collection,
     filter (fun c => CutOff.userId c <> userId)
       (MOCK_CUTOFFS (after db (CutoffsSnapshot userId collection) w))
     = filter (fun c => CutOff.userId c <> userId) (MOCK_CUTOFFS w))
  /\ (forall collection,
        filter (fun e => Expense.userId e <> userId)
          (MOCK_EXPENSES (after db (ExpensesSnapshot userId collection) w))
        = filter (fun e => Expense.userId e <> userId) (MOCK_EXPENSES w)).
Proof.
  split; intros collection; unfold after; cbn [step].
  - rewrite onCutoffsSnapshot_run. cbn. apply mergeCutoffs_others, decoded_owned_cutoffs.
  - rewrite onExpensesSnapshot_run. cbn. apply mergeExpenses_others, decoded_owned_expenses.
Qed.



(** X16: the snapshot of all expenses is idempotent on the store: the
    same collection delivered a second time leaves [MOCK_EXPENSES] as the
    first delivery made it. *)
Theorem all_expenses_snapshot_idempotent (collection : list Expense.t) (w : World) :
  let w1 := after db (AllExpensesSnapshot collection) w in
  MOCK_EXPENSES (after db (AllExpensesSnapshot collection) w1) = MOCK_EXPENSES w1.
Proof.
  intros w1. subst w1. unfold after. cbn [step].
  rewrite !onAllExpensesSnapshot_run. cbn.
  rewrite filter_app, filter_idem. f_equal.
  rewrite (filter_none _ (map _ _)), app_nil_r; [reflexivity|].
  intros y Hy Hn. apply Hn. apply list.Exists_exists. exists y.
  split; [exact Hy|reflexivity].
Qed.
End MergeFacts.

(** *** Rejected and undone writes *)

Section WriteFacts.
Context {R : Runtime}.
Import JSString Db.

(** X17: [addSystemCategory] rejects a name that a cached category
    already has, up to case: it throws the error that names the category,
    with the stores, the callbacks and Firestore left alone; but the
    tombstone of the name has been cancelled by then. *)
Theorem duplicate_category_rejected (db : bool) (name adminEmail : jsstring)
    (w : World) :
  Exists (fun c => toLowerCase (Category.name c) = toLowerCase (trim name))
    (MOCK_CATEGORIES w) ->
  exists w',
    addSystemCategory db name adminEmail w
    = (Throw (Error (lit "Category '" ++ name ++ lit "' already exists.")), w')
    /\ MOCK_CATEGORIES w' = MOCK_CATEGORIES w
    /\ MOCK_LOGS w' = MOCK_LOGS w
    /\ deliveries w' = deliveries w
    /\ remote w' = remote w
    /\ ticks w' = ticks w
    /\ PENDING_DELETES w' = PENDING_DELETES w
    /\ PENDING_DELETE_NAMES w' = PENDING_DELETE_NAMES w ∖ {[toLowerCase (trim name)]}.
Proof.
  intros Hdup. unfold addSystemCategory. mrun.
  destruct (decide (toLowerCase (trim name) ∈ PENDING_DELETE_NAMES w)) as [Hin|Hin];
    cbn [MOCK_CATEGORIES set_PENDING_DELETE_NAMES];
    (destruct (decide (Exists _ _)) as [_|Hn]; [|contradiction]);
    mrun; eexists; (split; [reflexivity|]); cbn; repeat split.
  apply set_eq. intros x. rewrite elem_of_difference, elem_of_singleton.
  split; [|tauto]. intros Hx. split; [exact Hx|]. intros ->. contradiction.
Qed.

(** X18: without a Firestore handle, saving a template and deleting it
    by the id it was given restores the store of templates, provided no
    template had that id before. *)
Theorem template_save_delete_round_trip (template : RecurringTemplate.t) (w : World) :
  let id := toString (clock (ticks w)) in
  id ∉ map RecurringTemplate.id (MOCK_TEMPLATES w) ->
  MOCK_TEMPLATES
    (run false [SaveRecurringTemplate template; DeleteRecurringTemplate id] w)
  = MOCK_TEMPLATES w.
Proof.
  intros id Hid. cbn [run fold_left]. unfold after. cbn [step].
  unfold saveRecurringTemplate, deleteRecurringTemplate. cbn [negb]. mrun.
  rewrite !notifyListeners_run.
  cbn [snd MOCK_TEMPLATES set_MOCK_TEMPLATES set_deliveries set_ticks ticks].
  rewrite filter_app, filter_cons, filter_nil. cbn [RecurringTemplate.id].
  destruct (decide _) as [Hne|_]; [contradiction|].
  rewrite app_nil_r. apply filter_all.
  intros x Hx Heq. apply Hid. rewrite <- Heq. now apply list_elem_of_fmap_2.
Qed.
End WriteFacts.

(** *** Users, appeals and the snapshot of the audit log *)

Section AdminFacts.
Context {R : Runtime}.
Variable toISOString : N -> jsstring.
Variable zero : Number.
Import JSString Db Admin.

Lemma logSystemAction_keeps {A} (field : World -> A) (db : bool)
    (actor action details : jsstring) (status : LogStatus) (w : World) :
  (forall v w, field (set_ticks v w) = field w) ->
  (forall v w, field (set_MOCK_LOGS v w) = field w) ->
  (forall v w, field (set_deliveries v w) = field w) ->
  (forall v w, field (set_remote v w) = field w) ->
  exists w', logSystemAction db actor action details status w = (Normal tt, w')
             /\ field w' = field w.
Proof.
  intros Ht Hl Hd Hr. unfold logSystemAction. mrun. rewrite notifyListeners_run. mrun.
  destruct db; mrun; eexists; (split; [reflexivity|]);
    now rewrite ?Hr, ?Ht, ?Hd, ?Hl, ?Ht, ?Ht.
Qed.

Lemma logSystemAction_users (db : bool) (actor action details : jsstring)
    (status : LogStatus) (w : World) :
  exists w', logSystemAction db actor action details status w = (Normal tt, w')
             /\ MOCK_USERS w' = MOCK_USERS w.
Proof. now apply (logSystemAction_keeps MOCK_USERS). Qed.

Lemma logSystemAction_appeals (db : bool) (actor action details : jsstring)
    (status : LogStatus) (w : World) :
  exists w', logSystemAction db actor action details status w = (Normal tt, w')
             /\ MOCK_APPEALS w' = MOCK_APPEALS w.
Proof. now apply (logSystemAction_keeps MOCK_APPEALS). Qed.

(** The users after [toggleUserLock] has run without a Firestore handle. *)
Definition locked (targetUid : jsstring) (currentStatus : bool)
    (users : list UserMetadata.t) : list UserMetadata.t :=
  map (fun u => if decide (UserMetadata.uid u = targetUid)
                then withLock u (negb currentStatus) else u) users.

Lemma toggleUserLock_offline (targetUid : jsstring) (currentStatus : bool)
    (adminEmail adminUid : jsstring) (w : World) :
  targetUid <> adminUid ->
  exists w',
    toggleUserLock false targetUid currentStatus adminEmail adminUid w = (Normal None, w')
    /\ MOCK_USERS w' = locked targetUid currentStatus (MOCK_USERS w).
Proof.
  intros Hne. unfold toggleUserLock.
  destruct (decide (targetUid = adminUid)); [contradiction|]. cbn [negb]. mrun.
  rewrite notifyListeners_run. mrun.
  match goal with
  | |- context [logSystemAction false ?a ?b ?c ?d ?v] =>
      destruct (logSystemAction_users false a b c d v) as (w' & -> & Hw')
  end.
  mrun. eexists. split; [reflexivity|]. exact Hw'.
Qed.

Lemma filter_locked (targetUid adminUid : jsstring) (currentStatus : bool)
    (users : list UserMetadata.t) :
  targetUid <> adminUid ->
  filter (fun u => UserMetadata.uid u = adminUid) (locked targetUid currentStatus users)
  = filter (fun u => UserMetadata.uid u = adminUid) users.
Proof.
  intros Hne. induction users as [|u users IH]; [reflexivity|].
  cbn [locked map]. fold (locked targetUid currentStatus users).
  rewrite !filter_cons, IH.
  destruct (decide (UserMetadata.uid u = targetUid)) as [Hu|Hu]; [|reflexivity].
  cbn [withLock UserMetadata.uid].
  destruct (decide (UserMetadata.uid u = adminUid)); [congruence|reflexivity].
Qed.

(** X19: [toggleUserLock] never changes a record of the administrator
    who calls it, with or without a Firestore handle: the records of
    [adminUid] in [MOCK_USERS] are after the call what they were before, and
    a call on the administrator's own uid throws and changes nothing at
    all. *)
Theorem toggleUserLock_spares_administrator (db : bool) (targetUid : jsstring)
    (currentStatus : bool) (adminEmail adminUid : jsstring) (w : World) :
  let r := toggleUserLock db targetUid currentStatus adminEmail adminUid w in
  filter (fun u => UserMetadata.uid u = adminUid) (MOCK_USERS (snd r))
  = filter (fun u => UserMetadata.uid u = adminUid) (MOCK_USERS w)
  /\ (targetUid = adminUid ->
      r = (Throw (Error (lit "SECURITY VIOLATION: Administrators cannot lock their own root access.")),
           w)).
Proof.
  intros r. subst r. destruct (decide (targetUid = adminUid)) as [Heq|Hne].
  - unfold toggleUserLock. destruct (decide (targetUid = adminUid)); [|contradiction].
    split; reflexivity.
  - split; [|contradiction]. destruct db.
    + unfold toggleUserLock. destruct (decide (targetUid = adminUid)); [contradiction|].
      reflexivity.
    + destruct (toggleUserLock_offline targetUid currentStatus adminEmail adminUid w Hne)
        as (w' & -> & Hw').
      cbn [snd]. rewrite Hw'. now apply filter_locked.
Qed.

Lemma findUser_locked (targetUid : jsstring) (currentStatus : bool)
    (users : list UserMetadata.t) :
  findUser targetUid (locked targetUid currentStatus users)
  = option_map (fun u => withLock u (negb currentStatus)) (findUser targetUid users).
Proof.
  unfold findUser. induction users as [|u users IH]; [reflexivity|].
  cbn [locked map find]. fold (locked targetUid currentStatus users).
  destruct (decide (UserMetadata.uid u = targetUid)) as [Hu|Hu].
  - cbn [withLock UserMetadata.uid]. rewrite !bool_decide_eq_true_2 by exact Hu.
    reflexivity.
  - rewrite !bool_decide_eq_false_2 by exact Hu. exact IH.
Qed.

Lemma locked_locked (targetUid : jsstring) (currentStatus : bool)
    (users : list UserMetadata.t) :
  locked targetUid currentStatus (locked targetUid currentStatus users)
  = locked targetUid currentStatus users.
Proof.
  unfold locked. rewrite map_map. apply map_ext. intros u.
  destruct (decide (UserMetadata.uid u = targetUid)) as [Hu|Hu].
  - cbn [withLock UserMetadata.uid]. destruct (decide _); [reflexivity|contradiction].
  - destruct (decide _); [contradiction|reflexivity].
Qed.

(** X20: without a Firestore handle, [toggleUserLock] sets the lock of
    the target to the negation of the status the caller passes, whatever the
    store held: [checkUserLockStatus] then returns that value for a known
    user and [false] for an unknown one, and the same call made again leaves
    [MOCK_USERS] as the first call made it. *)
Theorem toggleUserLock_sets_status (targetUid : jsstring) (currentStatus : bool)
    (adminEmail adminUid : jsstring) (getDoc : completion (option UserMetadata.t))
    (w : World) :
  targetUid <> adminUid ->
  let toggle := toggleUserLock false targetUid currentStatus adminEmail adminUid in
  let w1 := snd (toggle w) in
  checkUserLockStatus false targetUid getDoc w1
  = (Normal match findUser targetUid (MOCK_USERS w) with
            | Some _ => negb currentStatus
            | None => false
            end, w1)
  /\ MOCK_USERS (snd (toggle w1)) = MOCK_USERS w1.
Proof.
  intros Hne toggle w1. subst toggle w1.
  destruct (toggleUserLock_offline targetUid currentStatus adminEmail adminUid w Hne)
    as (w1 & -> & Hw1).
  cbn [snd]. split.
  - unfold checkUserLockStatus. cbn [negb]. mrun. rewrite Hw1, findUser_locked.
    destruct (findUser targetUid (MOCK_USERS w)); reflexivity.
  - destruct (toggleUserLock_offline targetUid currentStatus adminEmail adminUid w1 Hne)
      as (w2 & -> & Hw2).
    cbn [snd]. rewrite Hw2, Hw1. apply locked_locked.
Qed.

Lemma findUser_app (uid : jsstring) (users more : list UserMetadata.t) :
  findUser uid (users ++ more)
  = match findUser uid users with
    | Some u => Some u
    | None => findUser uid more
    end.
Proof.
  unfold findUser. induction users as [|u users IH]; [reflexivity|].
  cbn [app find]. destruct (bool_decide _); [reflexivity|exact IH].
Qed.

Lemma syncUserProfile_offline (uid email : jsstring) (w : World) :
  exists w',
    syncUserProfile false toISOString zero uid email w = (Normal None, w')
    /\ MOCK_USERS w'
       = match findUser uid (MOCK_USERS w) with
         | Some _ => MOCK_USERS w
         | None =>
             MOCK_USERS w
             ++ [UserMetadata.mk R uid email (toISOString (clock (ticks w))) false zero]
         end
    /\ (is_Some (findUser uid (MOCK_USERS w)) -> w' = w).
Proof.
  unfold syncUserProfile. cbn [negb]. mrun.
  destruct (findUser uid (MOCK_USERS w)) as [u|] eqn:Hu; mrun.
  - eexists. repeat split.
  - rewrite notifyListeners_run. mrun. eexists. split; [reflexivity|].
    split; [reflexivity|]. intros [? [=]].
Qed.

(** X21: without a Firestore handle, [syncUserProfile] only ever adds:
    the users of before stay, in their order and unchanged; the lock status
    that [checkUserLockStatus] reports is for every uid what it was before;
    and the profile of a uid is made once, a second call for it, with
    whatever address, leaving the whole state as it is. *)
Theorem syncUserProfile_only_adds (uid email email' uid' : jsstring)
    (getDoc : completion (option UserMetadata.t)) (w : World) :
  let w1 := snd (syncUserProfile false toISOString zero uid email w) in
  (exists new, MOCK_USERS w1 = MOCK_USERS w ++ new)
  /\ fst (checkUserLockStatus false uid' getDoc w1)
     = fst (checkUserLockStatus false uid' getDoc w)
  /\ syncUserProfile false toISOString zero uid email' w1 = (Normal None, w1).
Proof.
  intros w1. subst w1.
  destruct (syncUserProfile_offline uid email w) as (w1 & -> & Hw1 & Hsame).
  cbn [snd]. split; [|split].
  - rewrite Hw1. destruct (findUser uid (MOCK_USERS w)).
    + exists []. now rewrite app_nil_r.
    + eexists. reflexivity.
  - unfold checkUserLockStatus. cbn [negb]. mrun. rewrite Hw1.
    destruct (findUser uid (MOCK_USERS w)) as [u|] eqn:Hu.
    { destruct (findUser uid' (MOCK_USERS w)); reflexivity. }
    rewrite findUser_app.
    destruct (findUser uid' (MOCK_USERS w)) as [u'|]; [reflexivity|].
    unfold findUser. cbn [find UserMetadata.uid].
    destruct (bool_decide _); reflexivity.
  - destruct (syncUserProfile_offline uid email' w1) as (w2 & Hrun & _ & Hsame2).
    rewrite Hrun. f_equal. apply Hsame2. rewrite Hw1.
    destruct (findUser uid (MOCK_USERS w)) as [u|] eqn:Hu; [now rewrite Hu|].
    rewrite findUser_app, Hu. unfold findUser. cbn [find UserMetadata.uid].
    rewrite bool_decide_eq_true_2 by reflexivity. eauto.
Qed.

(** X22: without a Firestore handle, an appeal that is submitted and
    then resolved under the id it was given stands first in [MOCK_APPEALS]
    with the decision as its status, the appeals of before following it
    unchanged, provided none of them has that id. *)
Theorem appeal_submit_resolve (uid email reason adminEmail : jsstring)
    (newStatus : AppealStatus) (w : World) :
  let id := toString (clock (ticks w)) in
  let w1 := snd (submitAppeal false toISOString uid email reason w) in
  let w2 := snd (resolveAppeal false id newStatus adminEmail w1) in
  id ∉ map AccessAppeal.id (MOCK_APPEALS w) ->
  MOCK_APPEALS w1
  = AccessAppeal.mk id uid email reason PENDING (toISOString (clock (S (ticks w))))
      :: MOCK_APPEALS w
  /\ MOCK_APPEALS w2
     = AccessAppeal.mk id uid email reason newStatus (toISOString (clock (S (ticks w))))
         :: MOCK_APPEALS w.
Proof.
  intros id w1 w2 Hid.
  assert (H1 : MOCK_APPEALS w1
               = AccessAppeal.mk id uid email reason PENDING
                   (toISOString (clock (S (ticks w)))) :: MOCK_APPEALS w).
  { subst w1. unfold submitAppeal. cbn [negb]. mrun. rewrite notifyListeners_run. mrun.
    match goal with
    | |- context [logSystemAction false ?a ?b ?c ?d ?v] =>
        destruct (logSystemAction_appeals false a b c d v) as (w' & -> & Hw')
    end.
    mrun. rewrite Hw'. reflexivity. }
  split; [exact H1|].
  subst w2. unfold resolveAppeal. cbn [negb]. mrun. rewrite notifyListeners_run. mrun.
  match goal with
  | |- context [logSystemAction false ?a ?b ?c ?d ?v] =>
      destruct (logSystemAction_appeals false a b c d v) as (w' & -> & Hw')
  end.
  mrun. rewrite Hw'. cbn [MOCK_APPEALS set_deliveries set_MOCK_APPEALS].
  rewrite H1. cbn [map AccessAppeal.id].
  destruct (decide (id = id)) as [_|Hne]; [|contradiction]. cbn [withStatus].
  f_equal. clear H1. induction (MOCK_APPEALS w) as [|a l IH]; [reflexivity|].
  cbn [map] in *. apply not_elem_of_cons in Hid as [Ha Hl].
  destruct (decide (AccessAppeal.id a = id)); [congruence|]. f_equal. now apply IH.
Qed.

(** X24: [checkUserLockStatus] never throws and changes nothing; with a
    Firestore handle it reports a lock only for a document that exists and
    has [isLocked] set, so that a read that fails reports the user as not
    locked. *)
Theorem lock_check_fails_open (uid : jsstring)
    (getDoc : completion (option UserMetadata.t)) (w : World) :
  (forall db, exists b, checkUserLockStatus db uid getDoc w = (Normal b, w))
  /\ (checkUserLockStatus true uid getDoc w = (Normal true, w)
      <-> exists data, getDoc = Normal (Some data) /\ UserMetadata.isLocked data = true)
  /\ (forall e, checkUserLockStatus true uid (Throw e) w = (Normal false, w)).
Proof.
  split; [|split].
  - intros [|]; unfold checkUserLockStatus; cbn [negb]; mrun.
    + destruct getDoc as [[data|]|e]; cbn; [destruct (UserMetadata.isLocked data)|..];
        eauto.
    + destruct (findUser uid (MOCK_USERS w)); eauto.
  - unfold checkUserLockStatus. cbn [negb]. mrun.
    destruct getDoc as [[data|]|e]; cbn.
    + destruct (UserMetadata.isLocked data) eqn:Hl; split.
      * intros _. now exists data.
      * reflexivity.
      * discriminate.
      * intros (d & [= <-] & Hd). congruence.
    + split; [discriminate|]. intros (d & [=] & _).
    + split; [discriminate|]. intros (d & [=] & _).
  - reflexivity.
Qed.
End AdminFacts.

(** *** The snapshot of the audit log *)

Section LogsSnapshot.
Context {R : Runtime}.
Import JSString Db Admin.

(** [log] is the entry made of document [doc]. *)
Definition entryOf (doc : LogDoc) (log : AuditLog.t) : Prop :=
  AuditLog.id log = log_id doc
  /\ AuditLog.actor log = log_actor doc
  /\ AuditLog.action log = log_action doc
  /\ AuditLog.details log = log_details doc
  /\ AuditLog.status log = log_status doc
  /\ (forall t, log_timestamp doc = Some t -> AuditLog.timestamp log = t).

Lemma decodeLog_run (docs : list LogDoc) (w : World) :
  exists logs n,
    mapM_ decodeLog docs w = (Normal logs, set_ticks (n + ticks w) w)
    /\ Forall2 entryOf docs logs.
Proof.
  revert w. induction docs as [|doc docs IH]; intros w.
  - exists [], 0%nat. split; [now destruct w|constructor].
  - cbn [mapM_]. unfold bind at 1. unfold decodeLog at 1.
    destruct (log_timestamp doc) as [t|] eqn:Ht; mrun; unfold bind at 1.
    + destruct (IH w) as (logs & n & -> & Hall). cbn [ret].
      eexists (_ :: logs), n. split; [reflexivity|]. constructor; [|exact Hall].
      repeat split; cbn; congruence.
    + destruct (IH (set_ticks (S (ticks w)) w)) as (logs & n & -> & Hall). cbn [ret].
      eexists (_ :: logs), (S n). split.
      * cbn. now rewrite Nat.add_succ_r.
      * constructor; [|exact Hall]. repeat split; cbn; congruence.
Qed.

Lemma newestFirst_asym (a b : AuditLog.t) :
  (0 < newestFirst a b)%Z -> ¬ (0 < newestFirst b a)%Z.
Proof. unfold newestFirst. lia. Qed.

(** X23: the snapshot of the audit log replaces the log in memory: the
    callback returns, and afterwards [MOCK_LOGS] has one entry for each of
    the first 50 documents and nothing else, the entries of before being
    dropped, with the newest entry first. *)
Theorem logs_snapshot_replaces (onStatusChange : option Observer)
    (collection : list LogDoc) (w : World) :
  exists w',
    onLogsSnapshot onStatusChange collection w = (Normal tt, w')
    /\ ordered newestFirst (MOCK_LOGS w')
    /\ exists logs, MOCK_LOGS w' ≡ₚ logs /\ Forall2 entryOf (take 50 collection) logs.
Proof.
  unfold onLogsSnapshot. mrun.
  destruct (decodeLog_run (take 50 collection) w) as (logs & n & -> & Hall).
  mrun. destruct onStatusChange as [f|]; mrun; rewrite notifyListeners_run; mrun;
    (eexists; split; [reflexivity|]); cbn;
    (split; [apply sort_ordered, newestFirst_asym|]);
    exists logs; (split; [apply sort_perm|exact Hall]).
Qed.
End LogsSnapshot.

(** *** Owner-scoped callbacks in runs with the administration functions *)

Section AdminIsolation.
Context {R : Runtime} (db : bool).
Variable toISOString : N -> jsstring.
Variable zero : Number.
Import JSString Db Admin.

Ltac admin_unfold :=
  unfold perform, discard, syncUserProfile, checkUserLockStatus, toggleUserLock,
    onUsersSnapshot, submitAppeal, resolveAppeal, onLogsSnapshot, decodeLog.

Lemma perform_deliveredByCall (a : Action) :
  preserves deliveredByCall (perform db toISOString zero a).
Proof.
  destruct a; [apply step_deliveredByCall|..]; admin_unfold; preserve;
    match goal with
    | H : deliveredByCall _ |- _ =>
        first [ exact H
              | unfold deliveredByCall in *; cbn [deliveries set_deliveries];
                apply Forall_app; split; [exact H|];
                apply Forall_cons; split; [eexists; reflexivity|constructor] ]
    end.
Qed.

Lemma perform_scopedListeners (a : Action) :
  preserves scopedListeners (perform db toISOString zero a).
Proof.
  destruct a; [apply step_scopedListeners|..]; admin_unfold; preserve;
    match goal with
    | H : scopedListeners _ |- _ => exact H
    end.
Qed.

Lemma preserves_performAll (I : World -> Prop) (acts : list Action) :
  (forall a, preserves I (perform db toISOString zero a)) ->
  forall w, I w -> I (performAll db toISOString zero acts w).
Proof.
  intros Ha. induction acts as [|a acts IH]; intros w Hw; [exact Hw|].
  cbn [performAll fold_left]. apply IH. now apply Ha.
Qed.

(** X25: the functions for users and appeals and the snapshots of the
    users and of the audit log keep the owner filter intact: in every run
    that mixes them with the events of the module, a callback subscribed
    with owner [A] still only receives records whose [userId] is [A], and
    the owner-scoped channels still hold [userCallback] closures only. *)
Theorem administration_keeps_isolation (acts : list Action) :
  let w := performAll db toISOString zero acts initial in
  (forall d closure A callback,
      d ∈ deliveries w -> via d = UserCallback closure A callback ->
      ownedBy A (payload d))
  /\ (forall key ls cb,
        scoped key -> listeners w !! key = Some ls -> cb ∈ ls ->
        exists closure A callback, cb = UserCallback closure A callback).
Proof.
  intros w. split.
  - intros d closure A callback Hd Hvia.
    assert (H : deliveredByCall w).
    { apply preserves_performAll; [apply perform_deliveredByCall|constructor]. }
    unfold deliveredByCall in H. rewrite Forall_forall in H.
    destruct (H d Hd) as [data Hdata]. rewrite Hdata, Hvia. cbn.
    apply filterByUser_ownedBy.
  - intros key ls cb Hs Hls Hcb.
    assert (H : scopedListeners w).
    { apply preserves_performAll; [apply perform_scopedListeners
                                  |apply initial_scopedListeners]. }
    specialize (H key ls cb Hs Hls Hcb). destruct cb; [contradiction|eauto].
Qed.

(** An action that, if it calls an unsubscribe closure, calls one that was
    created without a Firestore handle. *)
Definition localAction (a : Action) : Prop :=
  match a with
  | Base e => localClosure e
  | _ => True
  end.

Lemma perform_offline (remote0 : list RemoteOp) (a : Action) :
  localAction a ->
  preserves (fun w => remote w = remote0) (perform false toISOString zero a).
Proof.
  destruct a; [apply step_offline|..]; intros _; admin_unfold;
    unfold logSystemAction; cbn [negb]; preserve;
    match goal with
    | H : remote _ = _ |- _ => exact H
    end.
Qed.

(** X10: without a Firestore handle the module makes no call to
    Firestore.  In a run of its exported functions, those for users and
    appeals among them, of snapshot callbacks and of unsubscribe closures
    created without a handle, the list of remote calls stays as it was; and
    in the state such a run ends in, [syncUserProfile], [submitAppeal] and
    [resolveAppeal] return without a request to await, [toggleUserLock]
    returns without one or throws its violation, and [checkUserLockStatus]
    answers from the cached users, whatever the read of the document would
    have given. *)
Theorem offline_makes_no_remote_call (acts : list Action) (w : World) :
  Forall localAction acts ->
  let w' := performAll false toISOString zero acts w in
  remote w' = remote w
  /\ (forall uid email,
        fst (syncUserProfile false toISOString zero uid email w') = Normal None)
  /\ (forall uid getDoc,
        checkUserLockStatus false uid getDoc w'
        = (Normal (match findUser uid (MOCK_USERS w') with
                   | Some user => UserMetadata.isLocked user
                   | None => false
                   end), w'))
  /\ (forall targetUid currentStatus adminEmail adminUid,
        fst (toggleUserLock false targetUid currentStatus adminEmail adminUid w')
        = if decide (targetUid = adminUid)
          then Throw (Error (lit "SECURITY VIOLATION: Administrators cannot lock their own root access."))
          else Normal None)
  /\ (forall uid email reason,
        fst (submitAppeal false toISOString uid email reason w') = Normal None)
  /\ (forall appealId newStatus adminEmail,
        fst (resolveAppeal false appealId newStatus adminEmail w') = Normal None).
Proof.
  intros Hacts w'.
  assert (Hlog : forall actor action details status v,
             fst (logSystemAction false actor action details status v) = Normal tt).
  { intros actor action details status v.
    now destruct (logSystemAction_run false actor action details status v)
      as (v' & -> & _). }
  split; [|split; [|split; [|split; [|split]]]].
  - subst w'. revert w. induction acts as [|a acts IH]; intros w; [reflexivity|].
    cbn [performAll fold_left]. inversion Hacts as [|? ? Ha Hrest]; subst.
    fold (performAll false toISOString zero acts
            (snd (perform false toISOString zero a w))).
    rewrite (IH Hrest). now apply (perform_offline (remote w) a Ha w).
  - intros uid email. unfold syncUserProfile. cbn [negb]. mrun.
    destruct (findUser uid (MOCK_USERS w')); mrun; [reflexivity|].
    rewrite notifyListeners_run. mrun. reflexivity.
  - intros uid getDoc. unfold checkUserLockStatus. cbn [negb]. mrun.
    now destruct (findUser uid (MOCK_USERS w')).
  - intros targetUid currentStatus adminEmail adminUid. unfold toggleUserLock.
    destruct (decide (targetUid = adminUid)); [reflexivity|].
    cbn [negb]. mrun. rewrite notifyListeners_run. mrun.
    match goal with
    | |- context [logSystemAction false ?a1 ?a2 ?a3 ?a4 ?v] =>
        destruct (logSystemAction_run false a1 a2 a3 a4 v) as (v' & -> & _)
    end.
    reflexivity.
  - intros uid email reason. unfold submitAppeal. cbn [negb]. mrun.
    rewrite notifyListeners_run. mrun.
    match goal with
    | |- context [logSystemAction false ?a1 ?a2 ?a3 ?a4 ?v] =>
        destruct (logSystemAction_run false a1 a2 a3 a4 v) as (v' & -> & _)
    end.
    reflexivity.
  - intros appealId newStatus adminEmail. unfold resolveAppeal. cbn [negb]. mrun.
    rewrite notifyListeners_run. mrun.
    match goal with
    | |- context [logSystemAction false ?a1 ?a2 ?a3 ?a4 ?v] =>
        destruct (logSystemAction_run false a1 a2 a3 a4 v) as (v' & -> & _)
    end.
    reflexivity.
Qed.
End AdminIsolation.

(** ** The further properties on concrete data *)

Section MoreExamples.
Import JSString Db Admin Validation.
Local Existing Instance AsciiRuntime.runtime.

Lemma sanitizeInput_injective_witness :
  sanitizeInput (lit "<b>Tom & Jerry</b>") = lit "&lt;b&gt;Tom &amp; Jerry&lt;/b&gt;"
  /\ lit "<b>Tom & Jerry</b>" = lit "<b>Tom & Jerry</b>".
Proof.
  split; [reflexivity|].
  exact (sanitizeInput_injective (lit "<b>Tom & Jerry</b>") (lit "<b>Tom & Jerry</b>")
           eq_refl).
Defined.

Lemma strong_password_extends_witness :
  isValid (validateStrongPassword (lit "Abcdef1!")) = true
  /\ isValid (validateStrongPassword (lit "my " ++ lit "Abcdef1!" ++ lit " key")) = true.
Proof.
  assert (H : isValid (validateStrongPassword (lit "Abcdef1!")) = true) by reflexivity.
  split; [exact H|].
  exact (strong_password_extends (lit "Abcdef1!") (lit "my ") (lit " key") H).
Defined.

(** A payload that [encryptData] never made: the text "9999" without the
    key prefix. *)
Lemma decryptData_any_payload_witness :
  Forall (fun c => c < 256) (lit "9999")
  /\ Security.decryptData (lit "ENC_" ++ Base64.encode (lit "9999")) = Normal (lit "9999").
Proof.
  assert (H : Forall (fun c => c < 256) (lit "9999"))
    by (vm_compute; repeat constructor).
  split; [exact H|]. exact (decryptData_any_payload (lit "9999") H).
Defined.

(** The same callback subscribed twice to the categories: the closure of
    either subscription removes both registrations. *)
Lemma unsubscribe_by_identity_witness :
  let w := run false [SubscribeToCategories 1%nat; SubscribeToCategories 1%nat] initial in
  let s := mkSubscription "categories" (Callback 1%nat) None in
  listeners w !! "categories"%string = Some [Callback 1%nat; Callback 1%nat]
  /\ ¬ listening "categories" (Callback 1%nat) (after false (CallUnsubscribe s) w).
Proof.
  intros w s.
  assert (Hw : listeners w !! "categories"%string = Some [Callback 1%nat; Callback 1%nat])
    by (vm_compute; reflexivity).
  split; [exact Hw|].
  intros H.
  apply (unsubscribe_by_identity false s w "categories" (Callback 1%nat)) in H;
    [|cbn [sub_channel s]; rewrite Hw; eauto].
  destruct H as [_ H]. apply H. split; reflexivity.
Defined.




Lemma duplicate_category_rejected_witness :
  let w := after true (CategoriesSnapshot [food; transport]) afterDelete in
  let w' := snd (addSystemCategory true (lit " TRANSPORT ") admin w) in
  fst (addSystemCategory true (lit " TRANSPORT ") admin w)
  = Throw (Error (lit "Category ' TRANSPORT ' already exists."))
  /\ MOCK_CATEGORIES w' = MOCK_CATEGORIES w
  /\ remote w' = remote w.
Proof.
  intros w w'.
  destruct (duplicate_category_rejected true (lit " TRANSPORT ") admin w)
    as (w1 & Hrun & Hc & _ & _ & Hr & _).
  { apply Exists_cons_hd. vm_compute. reflexivity. }
  subst w'. rewrite Hrun. cbn [fst snd]. auto.
Defined.

Lemma template_save_delete_round_trip_witness :
  let template :=
    RecurringTemplate.mk AsciiRuntime.runtime [] alice (lit "Rent") (lit "flat")
      (lit "ENC_VEhFU0lTX1NFQ1VSRV8xNTAwLjUw") (Some (lit "1500.50")) in
  toString (clock (ticks initial)) ∉ map RecurringTemplate.id (MOCK_TEMPLATES initial)
  /\ MOCK_TEMPLATES
       (run false [SaveRecurringTemplate template;
                   DeleteRecurringTemplate (toString (clock (ticks initial)))] initial)
     = [].
Proof.
  intros template.
  assert (H : toString (clock (ticks initial))
              ∉ map RecurringTemplate.id (MOCK_TEMPLATES initial))
    by (intros Hin; now apply elem_of_nil in Hin).
  split; [exact H|]. exact (template_save_delete_round_trip template initial H).
Defined.

Definition isoString (n : N) : jsstring := toString n.

Lemma toggleUserLock_spares_administrator_witness :
  toggleUserLock true (lit "root") false admin (lit "root") initial
  = (Throw (Error (lit "SECURITY VIOLATION: Administrators cannot lock their own root access.")),
     initial).
Proof.
  exact (proj2 (toggleUserLock_spares_administrator true (lit "root") false admin
                  (lit "root") initial) eq_refl).
Defined.

Lemma toggleUserLock_sets_status_witness :
  let w := snd (syncUserProfile false isoString (lit "0") (lit "u1") (lit "u1@mail.com")
                  initial) in
  let toggle := toggleUserLock false (lit "u1") false admin (lit "root") in
  lit "u1" <> lit "root"
  /\ fst (checkUserLockStatus false (lit "u1") (Normal None) (snd (toggle w))) = Normal true
  /\ MOCK_USERS (snd (toggle (snd (toggle w)))) = MOCK_USERS (snd (toggle w)).
Proof.
  intros w toggle.
  assert (Hne : lit "u1" <> lit "root") by discriminate.
  split; [exact Hne|].
  destruct (toggleUserLock_sets_status (lit "u1") false admin (lit "root") (Normal None)
              w Hne) as [Hcheck Hagain].
  split; [|exact Hagain]. subst toggle. rewrite Hcheck. reflexivity.
Defined.

Lemma appeal_submit_resolve_witness :
  let w1 := snd (submitAppeal false isoString (lit "u1") (lit "u1@mail.com")
                   (lit "wrong password") initial) in
  let w2 := snd (resolveAppeal false (lit "1700000000000") APPROVED admin w1) in
  toString (clock (ticks initial)) ∉ map AccessAppeal.id (MOCK_APPEALS initial)
  /\ map AccessAppeal.status (MOCK_APPEALS w1) = [PENDING]
  /\ map AccessAppeal.status (MOCK_APPEALS w2) = [APPROVED].
Proof.
  intros w1 w2.
  assert (H : toString (clock (ticks initial))
              ∉ map AccessAppeal.id (MOCK_APPEALS initial))
    by (intros Hin; now apply elem_of_nil in Hin).
  split; [exact H|].
  destruct (appeal_submit_resolve isoString (lit "u1") (lit "u1@mail.com")
              (lit "wrong password") admin APPROVED initial H) as [H1 H2].
  subst w1 w2. split.
  - rewrite H1. reflexivity.
  - change (lit "1700000000000") with (toString (clock (ticks initial))).
    rewrite H2. reflexivity.
Defined.


Lemma compareUnits_asym (a b : jsstring) :
  (0 < AsciiRuntime.compareUnits a b)%Z -> ¬ (0 < AsciiRuntime.compareUnits b a)%Z.
Proof.
  revert b. induction a as [|x a IH]; intros [|y b]; cbn; try lia.
  destruct (N.ltb_spec x y), (N.ltb_spec y x); try lia. apply IH.
Qed.

Lemma mergeCategories_idempotent_witness :
  let docs := [transport; food] in
  Forall (fun c => trim (Category.name c) = Category.name c) docs
  /\ mergeCategories ∅ ∅ (mergeCategories ∅ ∅ [] docs) docs = [food; transport].
Proof.
  intros docs.
  assert (H : Forall (fun c => trim (Category.name c) = Category.name c) docs)
    by (repeat (apply Forall_cons; split; [reflexivity|]); apply Forall_nil; exact I).
  split; [exact H|].
  rewrite (mergeCategories_idempotent (R := AsciiRuntime.runtime) compareUnits_asym
             ∅ ∅ [] docs H).
  vm_compute. reflexivity.
Defined.

(** Without a Firestore handle a user signs in, is locked, appeals and is
    answered, between a save and a subscription that is closed again: no
    call to Firestore is made, and a lock check reads the cache. *)
Lemma offline_makes_no_remote_call_witness :
  let acts := [Base (SaveExpense (rent alice) alice);
               SyncUserProfile alice (lit "alice@example.org");
               ToggleUserLock alice false admin (lit "root");
               SubmitAppeal alice (lit "alice@example.org") (lit "please");
               ResolveAppeal (lit "1700000000004") APPROVED admin;
               Base (SubscribeToExpenses alice 1%nat);
               Base (CallUnsubscribe
                       (mkSubscription "expenses" (UserCallback 0%nat alice 1%nat) None))] in
  let w := performAll false isoString (lit "0") acts initial in
  remote w = []
  /\ fst (checkUserLockStatus false alice (Normal None) w) = Normal true.
Proof.
  intros acts w.
  assert (Hacts : Forall (localAction (R := AsciiRuntime.runtime)) acts)
    by (repeat (apply Forall_cons; split; [exact I || reflexivity|]);
        apply Forall_nil; exact I).
  destruct (offline_makes_no_remote_call (R := AsciiRuntime.runtime) isoString (lit "0")
              acts initial Hacts)
    as (Hremote & _ & Hcheck & _).
  split; [exact Hremote|].
  fold w in Hcheck. rewrite Hcheck. vm_compute. reflexivity.
Defined.

End MoreExamples.
